(** * GEM-PRO representative selection and provenance merging

    A shallow embedding of the annotation merge/precedence engine of
    [ssbio/pipeline/gempro.py] (class [GEMPRO]): the gene constructors
    ([genes] setter, [add_genes_by_id]), the representative-sequence resolver
    ([set_representative_sequence]), the structure ingestors
    ([map_uniprot_to_pdb], [blast_seqs_to_pdb], [manual_homology_models]) and
    the representative-structure resolver ([set_representative_structure]).

    Conventions of the embedding.
    - A Python dictionary with a fixed set of keys is a record; a dictionary
      whose keys vary (a PDB entry, a homology model, the UniProt metadata of
      one accession) is a finite map or a record of optional fields; a
      dictionary whose iteration order is observed (the [uniprot], [pdb] and
      [homology] mappings) is an association list in iteration order.
    - Code that can raise returns [res]; code that mutates a gene and can
      raise runs in the monad [M], which keeps the state reached when the
      exception was raised, as Python does.
    - Services outside the class (downloads, file parsing, the sequence
      quality check, file writers) are the fields of the record [External]. *)

From Stdlib Require Import ZArith QArith String Ascii List Lia OrderedTypeEx.
From stdpp Require Import base option list strings gmap sorting.

(** ** Exceptions and results *)

Inductive exn : Type :=
  | StopIteration
  | KeyError
  | IndexError
  | TypeError
  | AttributeError
  | UnboundLocalError
  | ExternalError (who : string).

Inductive res (A : Type) : Type :=
  | Ok (a : A)
  | Raise (e : exn).
Arguments Ok {A} a.
Arguments Raise {A} e.

Definition res_bind {A B} (r : res A) (k : A -> res B) : res B :=
  match r with
  | Ok a => k a
  | Raise e => Raise e
  end.

Fixpoint res_mapM {A B} (f : A -> res B) (l : list A) : res (list B) :=
  match l with
  | [] => Ok []
  | x :: l' =>
      res_bind (f x) (fun y => res_bind (res_mapM f l') (fun ys => Ok (y :: ys)))
  end.

(** A subscript [d[k]] on an optional lookup: a miss raises [KeyError]. *)
Definition subscript {A} (o : option A) : res A :=
  match o with
  | Some a => Ok a
  | None => Raise KeyError
  end.

(** ** The state-and-exception monad

    [M S A] is a computation over a mutable state [S]: mutations made before
    an exception is raised are kept. *)

Definition M (S A : Type) : Type := S -> S * res A.

Definition ret {S A} (a : A) : M S A := fun s => (s, Ok a).

Definition bind {S A B} (c : M S A) (k : A -> M S B) : M S B :=
  fun s =>
    match c s with
    | (s', Ok a) => k a s'
    | (s', Raise e) => (s', Raise e)
    end.

Definition raise {S A} (e : exn) : M S A := fun s => (s, Raise e).
Definition get_state {S} : M S S := fun s => (s, Ok s).
Definition modify {S} (f : S -> S) : M S unit := fun s => (f s, Ok tt).
Definition lift {S A} (r : res A) : M S A := fun s => (s, r).

Notation "'let*' x ':=' c 'in' k" := (bind c (fun x => k))
  (at level 10, x name, c at level 100, k at level 200, only parsing).

(** A computation on a part [T] of the state [S]. *)
Definition zoom {S T A} (proj : S -> T) (inj : T -> S -> S) (c : M T A) : M S A :=
  fun s => let '(t, r) := c (proj s) in (inj t s, r).

(** [for x in l: body x]. *)
Fixpoint for_each {S A} (body : A -> M S unit) (l : list A) : M S unit :=
  match l with
  | [] => ret tt
  | x :: l' => let* _ := body x in for_each body l'
  end.

(** ** Insertion-ordered dictionaries

    [dict] and [OrderedDict] objects whose iteration order the code observes.
    A well-formed dictionary has no duplicate key ([od_wf]). *)

Section odict.
Context {K V : Type} `{EqDecision K}.

Definition od_keys (d : list (K * V)) : list K := d.*1.

Definition od_wf (d : list (K * V)) : Prop := NoDup (od_keys d).

(** [d.get(k)] *)
Fixpoint od_get (k : K) (d : list (K * V)) : option V :=
  match d with
  | [] => None
  | (k', v) :: d' => if decide (k = k') then Some v else od_get k d'
  end.

(** [k in d] *)
Definition od_mem (k : K) (d : list (K * V)) : bool :=
  bool_decide (is_Some (od_get k d)).

(** [d[k] = v]: an existing key keeps its position, a new key goes last. *)
Fixpoint od_set (k : K) (v : V) (d : list (K * V)) : list (K * V) :=
  match d with
  | [] => [(k, v)]
  | (k', v') :: d' =>
      if decide (k = k') then (k, v) :: d' else (k', v') :: od_set k v d'
  end.

(** [d.update(new)] *)
Definition od_update (d new : list (K * V)) : list (K * V) :=
  foldl (fun acc kv => od_set kv.1 kv.2 acc) d new.

(** [OrderedDict(pairs)] *)
Definition od_of_pairs (pairs : list (K * V)) : list (K * V) :=
  od_update [] pairs.
End odict.

(** ** [sorted(l, key=..., reverse=True)]

    Python's sort is stable, also with [reverse=True]: elements are put in
    descending order of their key and elements with equal keys keep their
    original relative order. [ltb] is [<] on keys. *)

Section sorted_reverse.
Context {A K : Type} (key : A -> K) (ltb : K -> K -> bool).

Fixpoint insert_reverse (x : A) (l : list A) : list A :=
  match l with
  | [] => [x]
  | y :: l' =>
      if ltb (key x) (key y) then y :: insert_reverse x l' else x :: y :: l'
  end.

Fixpoint sorted_reverse (l : list A) : list A :=
  match l with
  | [] => []
  | x :: l' => insert_reverse x (sorted_reverse l')
  end.

(** The element the specification calls "top-ranked, first-seen wins": it
    sits at position [i], no element has a greater key, and every element
    before it has a smaller key. *)
Definition first_max (l : list A) (i : nat) (x : A) : Prop :=
  l !! i = Some x /\
  (forall y, y ∈ l -> ltb (key x) (key y) = false) /\
  (forall j y, (j < i)%nat -> l !! j = Some y -> ltb (key y) (key x) = true).
End sorted_reverse.

(** ** Sequence annotations *)

(** The [kegg_id] slot holds [None], a KEGG identifier (from the KEGG
    ingestor) or a list of identifiers (from the UniProt metadata). *)
Inductive kegg_id_val : Type :=
  | KNone
  | KStr (s : string)
  | KList (l : list string).

(** The six-key dictionary of the [kegg] and [representative] slots. *)
Record SeqRecord : Type := mkSeqRecord {
  uniprot_acc : option string;
  kegg_id : kegg_id_val;
  seq_len : Z;
  pdbs : list string;
  seq_file : option string;
  metadata_file : option string
}.

(** The metadata dictionary of one UniProt accession. [None] is an absent
    key: the parser of the UniProt text file decides which keys there are. *)
Record UniprotEntry : Type := mkUniprotEntry {
  u_reviewed : option bool;
  u_pdbs : option (list string);
  u_kegg_id : option (list string);
  u_uniprot_acc : option string;
  u_seq_len : option Z;
  u_seq_file : option string;
  u_metadata_file : option string
}.

Module SequenceProp.
Record t : Type := mk {
  kegg : SeqRecord;
  uniprot : list (string * UniprotEntry);
  representative : SeqRecord
}.

Definition set_representative (r : SeqRecord) (sp : t) : t :=
  {| kegg := kegg sp; uniprot := uniprot sp; representative := r |}.
End SequenceProp.

Definition empty_seq_record : SeqRecord :=
  {| uniprot_acc := None; kegg_id := KNone; seq_len := 0; pdbs := [];
     seq_file := None; metadata_file := None |}.

(** The default [sequence] annotation written by the gene constructors. *)
Definition default_sequence : SequenceProp.t :=
  {| SequenceProp.kegg := empty_seq_record;
     SequenceProp.uniprot := [];
     SequenceProp.representative := empty_seq_record |}.

(** *** [set_representative_sequence] *)

(** [(u, uniprot[u]['reviewed'] + len(uniprot[u]['pdbs']))] *)
Definition u_rank (uniprot : list (string * UniprotEntry)) (u : string)
  : res (string * Z) :=
  res_bind (subscript (od_get u uniprot)) (fun e =>
  res_bind (subscript (u_reviewed e)) (fun reviewed =>
  res_bind (subscript (u_pdbs e)) (fun ps =>
  Ok (u, (Z.b2z reviewed + Z.of_nat (length ps))%Z)))).

(** [u_ranker], [sorted_by_second] and [best_u = sorted_by_second[0][0]]. *)
Definition best_uniprot (uniprot : list (string * UniprotEntry)) : res string :=
  res_bind (res_mapM (u_rank uniprot) (od_keys uniprot)) (fun u_ranker =>
  let sorted_by_second := sorted_reverse snd Z.ltb u_ranker in
  match sorted_by_second with
  | [] => Raise IndexError
  | tup :: _ => Ok tup.1
  end).

(** [representative.update(for_saving)], where [for_saving] holds those of
    the six keys that [uni_prop] has. *)
Definition update_for_saving (rep : SeqRecord) (uni_prop : UniprotEntry)
  : SeqRecord :=
  {| uniprot_acc :=
       match u_uniprot_acc uni_prop with Some a => Some a | None => uniprot_acc rep end;
     kegg_id :=
       match u_kegg_id uni_prop with Some l => KList l | None => kegg_id rep end;
     seq_len := default (seq_len rep) (u_seq_len uni_prop);
     pdbs := default (pdbs rep) (u_pdbs uni_prop);
     seq_file :=
       match u_seq_file uni_prop with Some f => Some f | None => seq_file rep end;
     metadata_file :=
       match u_metadata_file uni_prop with
       | Some f => Some f
       | None => metadata_file rep
       end |}.

(** [kegg_prop['uniprot_acc'] not in seq_prop['uniprot'].keys()]; the
    accession of a KEGG record may be [None], which is no key. *)
Definition acc_not_in_keys (acc : option string)
    (uniprot : list (string * UniprotEntry)) : bool :=
  match acc with
  | None => true
  | Some a => negb (od_mem a uniprot)
  end.

(** The ranking branch shared by the UniProt-only case and the fall-through
    of the KEGG-and-UniProt case. [row_needs_kegg_id] is [true] in the
    UniProt-only case, whose data-frame row joins [genedict['kegg_id']]
    without checking that the key is there. *)
Definition set_from_uniprot (row_needs_kegg_id : bool) : M SequenceProp.t unit :=
  let* seq_prop := get_state in
  let* best_u := lift (best_uniprot (SequenceProp.uniprot seq_prop)) in
  let* uni_prop := lift (subscript (od_get best_u (SequenceProp.uniprot seq_prop))) in
  let* _ := modify (SequenceProp.set_representative
         (update_for_saving (SequenceProp.representative seq_prop) uni_prop)) in
  if row_needs_kegg_id && negb (bool_decide (is_Some (u_kegg_id uni_prop)))
  then raise KeyError
  else ret tt.

(** [representative.update(kegg_prop)]: both dictionaries have the six keys. *)
Definition set_from_kegg : M SequenceProp.t unit :=
  modify (fun seq_prop =>
    SequenceProp.set_representative (SequenceProp.kegg seq_prop) seq_prop).

(** The test of the first branch: the representative is finalized. *)
Definition already_set (seq_prop : SequenceProp.t) : bool :=
  (0 <? seq_len (SequenceProp.representative seq_prop))%Z.

(** The body of the loop over the genes, on one gene's [sequence]
    annotation. The data-frame row [genedict] is reporting output and is left
    out, except where building it raises. *)
Definition set_representative_sequence_gene : M SequenceProp.t unit :=
  let* seq_prop := get_state in
  let kegg_prop := SequenceProp.kegg seq_prop in
  let n_uniprot := length (SequenceProp.uniprot seq_prop) in
  if already_set seq_prop then ret tt
  else if (0 <? seq_len kegg_prop)%Z && (n_uniprot =? 0)%nat then set_from_kegg
  else if (seq_len kegg_prop =? 0)%Z && (0 <? n_uniprot)%nat then
    set_from_uniprot true
  else if (0 <? seq_len kegg_prop)%Z && (0 <? n_uniprot)%nat then
    if (0 <? length (pdbs kegg_prop))%nat
       && acc_not_in_keys (uniprot_acc kegg_prop) (SequenceProp.uniprot seq_prop)
    then set_from_kegg
    else set_from_uniprot false
  else ret tt.

(** ** Structure annotations *)

(** A value stored under a key of a PDB entry or of a homology model: [None],
    a number (an [int] or a finite [float], by its exact rational value) or a
    string. *)
Inductive value : Type :=
  | VNone
  | VNum (q : Q)
  | VStr (s : string).

(** [structure_id] of the representative structure: [None], a [(pdb, chain)]
    pair or the identifier of a homology model. *)
Inductive structure_id_val : Type :=
  | SidNone
  | SidPdb (pdb chain : string)
  | SidHomology (hid : string).

Record RepStructure : Type := mkRepStructure {
  structure_id : structure_id_val;
  seq_coverage : value;
  original_pdb_file : value;
  clean_pdb_file : value
}.

Module StructureProp.
Record t : Type := mk {
  homology : list (string * gmap string value);
  pdb : list ((string * string) * gmap string value);
  representative : RepStructure
}.

Definition set_homology (h : list (string * gmap string value)) (sp : t) : t :=
  {| homology := h; pdb := pdb sp; representative := representative sp |}.
Definition set_pdb (p : list ((string * string) * gmap string value)) (sp : t) : t :=
  {| homology := homology sp; pdb := p; representative := representative sp |}.
Definition set_representative (r : RepStructure) (sp : t) : t :=
  {| homology := homology sp; pdb := pdb sp; representative := r |}.
End StructureProp.

(** The default [structure] annotation written by the gene constructors. *)
Definition default_structure : StructureProp.t :=
  {| StructureProp.homology := [];
     StructureProp.pdb := [];
     StructureProp.representative :=
       {| structure_id := SidNone; seq_coverage := VNum 0;
          original_pdb_file := VNone; clean_pdb_file := VNone |} |}.

(** ** Genes *)

Record Gene : Type := mkGene {
  gene_id : string;
  sequence : SequenceProp.t;
  structure : StructureProp.t
}.

Definition set_sequence (sp : SequenceProp.t) (g : Gene) : Gene :=
  {| gene_id := gene_id g; sequence := sp; structure := structure g |}.
Definition set_structure (sp : StructureProp.t) (g : Gene) : Gene :=
  {| gene_id := gene_id g; sequence := sequence g; structure := sp |}.

(** A COBRApy [Gene] as it reaches the [genes] setter: its [annotation]
    dictionary may or may not have the [sequence] and [structure] keys. *)
Record CobraGene : Type := mkCobraGene {
  cg_id : string;
  cg_sequence : option SequenceProp.t;
  cg_structure : option StructureProp.t
}.

(** [Gene(id=x)]: a new COBRApy gene has an empty [annotation]. *)
Definition cobra_gene (x : string) : CobraGene :=
  {| cg_id := x; cg_sequence := None; cg_structure := None |}.

(** The two [if ... not in annotation.keys()] blocks of the setter. *)
Definition annotate (x : CobraGene) : Gene :=
  {| gene_id := cg_id x;
     sequence := default default_sequence (cg_sequence x);
     structure := default default_structure (cg_structure x) |}.

(** The argument of the [genes] setter: a list of gene identifiers or a
    [DictList] of COBRApy genes. *)
Inductive genes_arg : Type :=
  | IdList (genes_list : list string)
  | DictList (genes_list : list CobraGene).

(** [list(set(genes_list))]: the distinct identifiers, in the order in which
    the set enumerates them. *)
Definition list_set (genes_list : list string) : list string :=
  elements (list_to_set genes_list : gset string).

Definition genes_setter (a : genes_arg) : list Gene :=
  match a with
  | IdList genes_list =>
      (fun x => annotate (cobra_gene x)) <$> list_set genes_list
  | DictList genes_list => annotate <$> genes_list
  end.

(** [add_genes_by_id] writes both annotation slots without a test. *)
Definition new_gene (x : string) : Gene :=
  {| gene_id := x; sequence := default_sequence; structure := default_structure |}.

(** COBRApy's [DictList.union]: "adds elements with id's not already in the
    model", in the order of the argument. *)
Definition dictlist_union (genes new_genes : list Gene) : list Gene :=
  foldl (fun acc g =>
           if bool_decide (gene_id g ∈ gene_id <$> acc) then acc else acc ++ [g])
        genes new_genes.

Definition add_genes_by_id (genes : list Gene) (genes_list : list string)
  : list Gene :=
  dictlist_union genes (new_gene <$> list_set genes_list).

(** The loop over the genes of the project. An exception leaves the loop:
    the genes after the raising one are not visited. [F] holds what the
    method shares between iterations (its local variables, its effects). *)
Fixpoint for_genes_from {F} (body : M (Gene * F) unit) (genes : list Gene) (f : F)
  : (list Gene * F) * res unit :=
  match genes with
  | [] => (([], f), Ok tt)
  | g :: genes' =>
      match body (g, f) with
      | ((g', f'), Ok _) =>
          let '((genes'', f''), r) := for_genes_from body genes' f' in
          ((g' :: genes'', f''), r)
      | ((g', f'), Raise e) => ((g' :: genes', f'), Raise e)
      end
  end.

(** [for g in self.genes: body] *)
Definition for_genes {F} (body : M (Gene * F) unit) : M (list Gene * F) unit :=
  fun s => for_genes_from body s.1 s.2.

Definition on_gene {F A} (c : M Gene A) : M (Gene * F) A :=
  zoom fst (fun g s => (g, s.2)) c.
Definition on_sequence {A} (c : M SequenceProp.t A) : M Gene A :=
  zoom sequence set_sequence c.

(** [set_representative_sequence], on the genes of the project. *)
Definition set_representative_sequence (genes : list Gene) : list Gene * res unit :=
  let '((genes', _), r) :=
    for_genes (on_gene (on_sequence set_representative_sequence_gene)) (genes, tt) in
  (genes', r).

(** ** Strings *)

Definition ascii_lower (c : ascii) : ascii :=
  let n := nat_of_ascii c in
  if (65 <=? n)%nat && (n <=? 90)%nat then ascii_of_nat (n + 32) else c.

Definition ascii_upper (c : ascii) : ascii :=
  let n := nat_of_ascii c in
  if (97 <=? n)%nat && (n <=? 122)%nat then ascii_of_nat (n - 32) else c.

(** [s.lower()] and [s.upper()], on ASCII identifiers. *)
Fixpoint lower (s : string) : string :=
  match s with
  | EmptyString => EmptyString
  | String c s' => String (ascii_lower c) (lower s')
  end.

Fixpoint upper (s : string) : string :=
  match s with
  | EmptyString => EmptyString
  | String c s' => String (ascii_upper c) (upper s')
  end.

(** [s.split('.')[0]] *)
Fixpoint split_dot_head (s : string) : string :=
  match s with
  | EmptyString => EmptyString
  | String c s' =>
      if Ascii.eqb c "."%char then EmptyString else String c (split_dot_head s')
  end.

(** Truth value of a string: the empty string is false. *)
Definition truthy (s : string) : bool :=
  match s with
  | EmptyString => false
  | String _ _ => true
  end.

(** ** The project and the services around it *)

(** The directories of [self] that the modelled methods use. *)
Record Project : Type := mkProject {
  sequence_dir : string;
  structure_single_chain_dir : string
}.

(** The tolerances handed to the sequence quality check. *)
Record QCParams : Type := mkQCParams {
  allow_missing_on_termini : Q;
  allow_mutants : bool;
  allow_deletions : bool;
  allow_insertions : bool;
  allow_unresolved : bool
}.

(** One record of the ranked list of the best-structures service. *)
Record BestStructure : Type := mkBestStructure {
  bs_pdb_id : string;
  bs_chain_id : string;
  bs_experimental_method : value;
  bs_resolution : value;
  bs_coverage : value;
  bs_tax_id : value;
  bs_start : value;
  bs_end : value;
  bs_unp_start : value;
  bs_unp_end : value
}.

(** One hit of a BLAST search against the PDB. *)
Record BlastHit : Type := mkBlastHit {
  hit_pdb : string;
  hit_pdb_chains : list string;
  hit_score : value;
  hit_evalue : value;
  hit_percent_ident : value;
  hit_percent_similar : value;
  hit_num_ident : value;
  hit_num_similar : value
}.

(** The collaborators of the class. A result [None] stands for a call that
    raised; the model assumes that what a collaborator raises is never
    [StopIteration]. *)
Record External : Type := mkExternal {
  (** [os.path.join], [os.path.basename] *)
  op_join : string -> string -> string;
  op_basename : string -> string;
  (** [utils.split_folder_and_path(seq_file)]: folder, name, extension *)
  split_folder_and_path : string -> string * string * string;
  (** [str(SeqIO.read(open(path), "fasta").seq)] *)
  read_fasta_seq : string -> option string;
  (** [ssbio.sequence.fasta.write_fasta_file(seq_str, ident, outdir)] *)
  write_fasta_file : string -> string -> string -> option string;
  (** [ssbio.databases.pdb.best_structures(uniprot_id, outfile, outdir,
      seq_ident_cutoff, force_rerun)] *)
  best_structures : string -> string -> string -> Q -> bool -> option (list BestStructure);
  (** [ssbio.databases.pdb.blast_pdb(seq_str, outfile, outdir, force_rerun,
      evalue, seq_ident_cutoff, link)] *)
  blast_pdb : string -> string -> string -> bool -> Q -> Q -> bool -> option (list BlastHit);
  (** [ssbio.databases.pdb.get_resolution], [get_release_date] *)
  get_resolution : string -> option value;
  get_release_date : string -> option value;
  (** [ssbio.databases.pdb.download_structure(pdb_id, file_type='pdb',
      header=False, outdir, force_rerun)] *)
  download_structure : string -> string -> bool -> option string;
  (** [ssbio.structure.properties.residues.get_pdb_seqs(pdb_file)]: a
      dictionary from chain identifier to residue sequence *)
  get_pdb_seqs : string -> option (gmap string string);
  (** [ssbio.structure.properties.quality.sequence_checker(reference_id,
      reference_sequence, structure_id, structure_sequence, <tolerances>,
      write_output=True, outdir, force_rerun)] *)
  sequence_checker :
    string -> string -> string -> string -> QCParams -> string -> bool -> option bool;
  (** [PDBIOExt(pdb_file)] *)
  pdbio_ext : string -> option string;
  (** [my_pdb.write_pdb(custom_selection=CleanPDB(keep_chains=...),
      out_suffix, out_dir)]; the selection keeps one chain or, with
      [CleanPDB()], has no chain argument *)
  write_pdb : string -> option string -> string -> string -> option string;
  (** [shutil.copy2(src, dst)] *)
  copy2 : string -> string -> option unit
}.

(** What a method does to the world outside the gene annotations. *)
Inductive event : Type :=
  | EvEnsureDir (dir : string)
  | EvCopy2 (src dst : string)
  | EvWriteFasta (ident outdir : string)
  | EvDownload (pdb_id outdir : string)
  | EvSequenceChecker (pdb_id chain : string)
  | EvWritePdb (pdb_file : string) (keep_chain : option string) (out_suffix : string).

(** A call of a collaborator. *)
Definition call {S A} (who : string) (o : option A) : M S A :=
  match o with
  | Some a => ret a
  | None => raise (ExternalError who)
  end.

(** [if not op.exists(dir): os.mkdir(dir)] and the other effects are kept in
    a trace, in the order in which they happen. *)
Definition emit {S} (ev : event) : M (S * list event) unit :=
  modify (fun s => (s.1, s.2 ++ [ev])).

(** ** Manual sequences: [manual_seq_mapping] *)

Definition with_seq_len (n : Z) (r : SeqRecord) : SeqRecord :=
  {| uniprot_acc := uniprot_acc r; kegg_id := kegg_id r; seq_len := n; pdbs := pdbs r;
     seq_file := seq_file r; metadata_file := metadata_file r |}.

Definition with_seq_file (f : option string) (r : SeqRecord) : SeqRecord :=
  {| uniprot_acc := uniprot_acc r; kegg_id := kegg_id r; seq_len := seq_len r;
     pdbs := pdbs r; seq_file := f; metadata_file := metadata_file r |}.

Definition update_seq_representative (f : SeqRecord -> SeqRecord)
  : M (Gene * list event) unit :=
  modify (fun s =>
    (set_sequence
       (SequenceProp.set_representative
          (f (SequenceProp.representative (sequence s.1))) (sequence s.1)) s.1,
     s.2)).

(** The body of the loop over the items of [gene_to_seq_dict], on the gene
    that [get_by_id] has found. *)
Definition manual_seq_mapping_gene (E : External) (P : Project) (s : string)
  : M (Gene * list event) unit :=
  let* _ := update_seq_representative (with_seq_len (Z.of_nat (String.length s))) in
  let* st := get_state in
  let g := gene_id st.1 in
  let gene_folder := op_join E (sequence_dir P) g in
  let* _ := emit (EvEnsureDir gene_folder) in
  let* _ := emit (EvWriteFasta g gene_folder) in
  let* seq_file := call "write_fasta_file" (write_fasta_file E s g gene_folder) in
  update_seq_representative (with_seq_file (Some (op_basename E seq_file))).

(** [gene = self.genes.get_by_id(g)] followed by code that mutates [gene]:
    an unknown identifier raises [KeyError]. *)
Definition on_gene_by_id {F A} (g : string) (c : M (Gene * F) A)
  : M (list Gene * F) A :=
  fun s =>
    match list_find (fun x => gene_id x = g) s.1 with
    | None => (s, Raise KeyError)
    | Some (i, gene) =>
        let '((gene', f'), r) := c (gene, s.2) in
        ((<[i := gene']> s.1, f'), r)
    end.

Definition manual_seq_mapping (E : External) (P : Project)
    (gene_to_seq_dict : list (string * string)) : M (list Gene * list event) unit :=
  for_each (fun gs => on_gene_by_id gs.1 (manual_seq_mapping_gene E P gs.2))
           gene_to_seq_dict.

(** ** Structure ingestors *)

(** *** [map_uniprot_to_pdb] *)

(** [best_structure_dict] for one record of the ranked list. *)
Definition best_structure_dict (uniprot_id : string) (best_structure : BestStructure)
    (pdb_rel : value) (rank : Z) : gmap string value :=
  let currpdb := lower (bs_pdb_id best_structure) in
  let currchain := upper (bs_chain_id best_structure) in
  list_to_map
    [("pdb_id", VStr currpdb);
     ("pdb_chain_id", VStr currchain);
     ("uniprot_acc", VStr uniprot_id);
     ("experimental_method", bs_experimental_method best_structure);
     ("resolution", bs_resolution best_structure);
     ("seq_coverage", bs_coverage best_structure);
     ("release_date", pdb_rel);
     ("taxonomy_id", bs_tax_id best_structure);
     ("pdb_start", bs_start best_structure);
     ("pdb_end", bs_end best_structure);
     ("unp_start", bs_unp_start best_structure);
     ("unp_end", bs_unp_end best_structure);
     ("rank", VNum (inject_Z rank))].

(** The loop over [best_structures]: it fills [to_add_to_annotation] and
    counts the rank from 1. *)
Fixpoint ranked_to_add (E : External) (uniprot_id : string)
    (best : list BestStructure) (rank : Z)
    (to_add_to_annotation : list ((string * string) * gmap string value))
  : res (list ((string * string) * gmap string value)) :=
  match best with
  | [] => Ok to_add_to_annotation
  | best_structure :: best' =>
      let currpdb := lower (bs_pdb_id best_structure) in
      let currchain := upper (bs_chain_id best_structure) in
      match get_release_date E currpdb with
      | None => Raise (ExternalError "get_release_date")
      | Some pdb_rel =>
          ranked_to_add E uniprot_id best' (rank + 1)
            (od_set (currpdb, currchain)
                    (best_structure_dict uniprot_id best_structure pdb_rel rank)
                    to_add_to_annotation)
      end
  end.

(** The merge of the new ranked entries with the annotation that is there:
    the existing keys that are not among the new ones are appended after the
    new entries, and the result replaces the annotation. *)
Definition merge_ranked
    (current_annotation to_add_to_annotation : list ((string * string) * gmap string value))
  : list ((string * string) * gmap string value) :=
  match current_annotation with
  | [] => to_add_to_annotation
  | _ :: _ =>
      let temp_annotation :=
        od_of_pairs
          (filter (fun kv => negb (od_mem kv.1 to_add_to_annotation)) current_annotation) in
      od_update to_add_to_annotation temp_annotation
  end.

Definition map_uniprot_to_pdb_gene (E : External) (P : Project)
    (seq_ident_cutoff : Q) (force_rerun : bool) : M Gene unit :=
  let* g := get_state in
  match uniprot_acc (SequenceProp.representative (sequence g)) with
  | None => ret tt
  | Some uniprot_id =>
      if negb (truthy uniprot_id) then ret tt
      else
        let* best :=
          call "best_structures"
               (best_structures E uniprot_id (uniprot_id +:+ "_best_structures.json")
                  (op_join E (sequence_dir P) (gene_id g)) seq_ident_cutoff force_rerun) in
        match best with
        | [] => ret tt
        | _ :: _ =>
            let* to_add_to_annotation := lift (ranked_to_add E uniprot_id best 1 []) in
            modify (fun g =>
              set_structure
                (StructureProp.set_pdb
                   (merge_ranked (StructureProp.pdb (structure g)) to_add_to_annotation)
                   (structure g)) g)
        end
  end.

Definition map_uniprot_to_pdb (E : External) (P : Project)
    (seq_ident_cutoff : Q) (force_rerun : bool) (genes : list Gene)
  : list Gene * res unit :=
  let '((genes', _), r) :=
    for_genes (on_gene (map_uniprot_to_pdb_gene E P seq_ident_cutoff force_rerun))
              (genes, tt) in
  (genes', r).

(** *** [blast_seqs_to_pdb] *)

Definition blast_dict (pdb chain : string) (pdb_rez pdb_rel : value)
    (blast_result : BlastHit) : gmap string value :=
  list_to_map
    [("pdb_id", VStr pdb);
     ("pdb_chain_id", VStr chain);
     ("resolution", pdb_rez);
     ("release_date", pdb_rel);
     ("blast_score", hit_score blast_result);
     ("blast_evalue", hit_evalue blast_result);
     ("seq_coverage", hit_percent_ident blast_result);
     ("seq_similar", hit_percent_similar blast_result);
     ("seq_num_coverage", hit_num_ident blast_result);
     ("seq_num_similar", hit_num_similar blast_result)].

(** The loop over the chains of one hit. *)
Definition blast_chains_to_add (pdb : string) (pdb_rez pdb_rel : value)
    (blast_result : BlastHit) (chains : list string)
    (to_add_to_annotation : list ((string * string) * gmap string value))
  : list ((string * string) * gmap string value) :=
  foldl (fun acc chain =>
           let chain := upper chain in
           od_set (pdb, chain) (blast_dict pdb chain pdb_rez pdb_rel blast_result) acc)
        to_add_to_annotation chains.

(** The loop over [blast_results]. *)
Fixpoint blast_to_add (E : External) (blast_results : list BlastHit)
    (to_add_to_annotation : list ((string * string) * gmap string value))
  : res (list ((string * string) * gmap string value)) :=
  match blast_results with
  | [] => Ok to_add_to_annotation
  | blast_result :: rest =>
      let pdb := lower (hit_pdb blast_result) in
      match get_resolution E pdb with
      | None => Raise (ExternalError "get_resolution")
      | Some pdb_rez =>
          match get_release_date E pdb with
          | None => Raise (ExternalError "get_release_date")
          | Some pdb_rel =>
              blast_to_add E rest
                (blast_chains_to_add pdb pdb_rez pdb_rel blast_result
                   (hit_pdb_chains blast_result) to_add_to_annotation)
          end
      end
  end.

(** The merge of the BLAST entries into the annotation that is there: the
    new keys that the annotation already has are removed from the new
    entries, the rest is appended. *)
Definition merge_blast
    (current_annotation to_add_to_annotation : list ((string * string) * gmap string value))
  : list ((string * string) * gmap string value) :=
  let to_add_to_annotation :=
    match current_annotation with
    | [] => to_add_to_annotation
    | _ :: _ =>
        od_of_pairs
          (filter (fun kv => negb (od_mem kv.1 current_annotation)) to_add_to_annotation)
    end in
  od_update current_annotation to_add_to_annotation.

Definition blast_seqs_to_pdb_gene (E : External) (P : Project)
    (seq_ident_cutoff evalue : Q) (all_genes force_rerun display_link : bool)
  : M (Gene * list event) unit :=
  let* s := get_state in
  let g := s.1 in
  match seq_file (SequenceProp.representative (sequence g)) with
  | None => ret tt
  | Some seq_file =>
      if negb (truthy seq_file) then ret tt
      else
        let '(seq_dir, seq_name, seq_ext) := split_folder_and_path E seq_file in
        let already_has_pdbs := bool_decide (StructureProp.pdb (structure g) <> []) in
        if already_has_pdbs && negb all_genes then ret tt
        else
          let seq_file_path :=
            op_join E (op_join E (sequence_dir P) (gene_id g)) seq_file in
          let* seq_str := call "SeqIO.read" (read_fasta_seq E seq_file_path) in
          let gene_folder := op_join E (structure_single_chain_dir P) (gene_id g) in
          let* _ := emit (EvEnsureDir gene_folder) in
          let* blast_results :=
            call "blast_pdb"
                 (blast_pdb E seq_str (seq_name +:+ "_blast_pdb.xml")
                    (op_join E (sequence_dir P) (gene_id g))
                    force_rerun evalue seq_ident_cutoff display_link) in
          match blast_results with
          | [] => ret tt
          | _ :: _ =>
              let* to_add_to_annotation := lift (blast_to_add E blast_results []) in
              modify (fun s =>
                (set_structure
                   (StructureProp.set_pdb
                      (merge_blast (StructureProp.pdb (structure s.1)) to_add_to_annotation)
                      (structure s.1)) s.1, s.2))
          end
  end.

Definition blast_seqs_to_pdb (E : External) (P : Project)
    (seq_ident_cutoff evalue : Q) (all_genes force_rerun display_link : bool)
  : M (list Gene * list event) unit :=
  for_genes
    (blast_seqs_to_pdb_gene E P seq_ident_cutoff evalue all_genes force_rerun display_link).

(** *** [manual_homology_models] *)

(** The body of the loop over the models given for one gene. *)
Definition manual_homology_entry (E : External) (P : Project)
    (hid : string) (hdict : gmap string value) : M (Gene * list event) unit :=
  match hdict !! "model_file" with
  | None => raise KeyError
  | Some model_file =>
      let* s := get_state in
      let dest_gene_dir := op_join E (structure_single_chain_dir P) (gene_id s.1) in
      let* _ := emit (EvEnsureDir dest_gene_dir) in
      let* _ :=
        match model_file with
        | VStr src =>
            let* _ := emit (EvCopy2 src dest_gene_dir) in
            call "shutil.copy2" (copy2 E src dest_gene_dir)
        | _ => raise TypeError
        end in
      modify (fun s =>
        (set_structure
           (StructureProp.set_homology
              (od_set hid hdict (StructureProp.homology (structure s.1)))
              (structure s.1)) s.1, s.2))
  end.

Definition manual_homology_models_gene (E : External) (P : Project)
    (input_dict : list (string * list (string * gmap string value)))
  : M (Gene * list event) unit :=
  let* s := get_state in
  match od_get (gene_id s.1) input_dict with
  | None => ret tt
  | Some models => for_each (fun hm => manual_homology_entry E P hm.1 hm.2) models
  end.

Definition manual_homology_models (E : External) (P : Project)
    (input_dict : list (string * list (string * gmap string value)))
  : M (list Gene * list event) unit :=
  for_genes (manual_homology_models_gene E P input_dict).

(** ** [set_representative_structure] *)

(** The local variables of the method that outlive an iteration of its loop
    over the genes, and the trace of its effects. [chain] is bound by the
    loop over the chains of a structure and read again when a homology model
    is cleaned. *)
Record Locals : Type := mkLocals {
  chain : option string;
  trace : list event
}.

Definition bind_chain (c : string) : M (Gene * Locals) unit :=
  modify (fun s => (s.1, {| chain := Some c; trace := trace s.2 |})).

Definition log_event (ev : event) : M (Gene * Locals) unit :=
  modify (fun s => (s.1, {| chain := chain s.2; trace := trace s.2 ++ [ev] |})).

Definition update_representative (f : RepStructure -> RepStructure)
  : M (Gene * Locals) unit :=
  modify (fun s =>
    (set_structure
       (StructureProp.set_representative
          (f (StructureProp.representative (structure s.1))) (structure s.1)) s.1,
     s.2)).

Definition with_structure_id (v : structure_id_val) (r : RepStructure) : RepStructure :=
  {| structure_id := v; seq_coverage := seq_coverage r;
     original_pdb_file := original_pdb_file r; clean_pdb_file := clean_pdb_file r |}.
Definition with_seq_coverage (v : value) (r : RepStructure) : RepStructure :=
  {| structure_id := structure_id r; seq_coverage := v;
     original_pdb_file := original_pdb_file r; clean_pdb_file := clean_pdb_file r |}.
Definition with_original_pdb_file (v : value) (r : RepStructure) : RepStructure :=
  {| structure_id := structure_id r; seq_coverage := seq_coverage r;
     original_pdb_file := v; clean_pdb_file := clean_pdb_file r |}.
Definition with_clean_pdb_file (v : value) (r : RepStructure) : RepStructure :=
  {| structure_id := structure_id r; seq_coverage := seq_coverage r;
     original_pdb_file := original_pdb_file r; clean_pdb_file := v |}.

(** The flags [use_homology] and [use_pdb], for a gene that has a structure
    of some kind. *)
Definition select_source (always_use_homology has_homology has_pdb : bool)
  : bool * bool :=
  if always_use_homology then
    if has_homology then (true, false)
    else if has_pdb then (false, true)
    else (false, false)
  else
    if has_homology && has_pdb then (false, true)
    else if has_homology && negb has_pdb then (true, false)
    else if has_pdb && negb has_homology then (false, true)
    else (false, false).

(** Modelled from the spec: [utils.DefaultOrderedDict] is not among the
    sources. "Group candidate (structure-id, chain) entries by structure-id
    preserving insertion order": [convert_to_dict[x[0]].append(x[1])] on a
    default dictionary of lists that keeps the order in which its keys were
    first used. *)
Definition convert_to_dict (all_pdbs_and_chains : list (string * string))
  : list (string * list string) :=
  foldl (fun acc x => od_set x.1 (default [] (od_get x.1 acc) ++ [x.2]) acc)
        [] all_pdbs_and_chains.

(** *** The comparison of sort keys

    [value_ltb] orders all values (numbers by value, strings by code
    point, [None] before numbers before strings); [sortable] tells whether
    Python accepts to compare the keys at all: a list of two or more keys
    is sorted only if they are all numbers or all strings. *)
Definition value_ltb (a b : value) : bool :=
  match a, b with
  | VNone, VNone => false
  | VNone, _ => true
  | VNum _, VNone => false
  | VNum p, VNum q => negb (Qle_bool q p)
  | VNum _, VStr _ => true
  | VStr s, VStr t => String.ltb s t
  | VStr _, _ => false
  end.

Definition is_num (v : value) : bool :=
  match v with VNum _ => true | _ => false end.
Definition is_str (v : value) : bool :=
  match v with VStr _ => true | _ => false end.

Definition sortable (keys : list value) : bool :=
  (length keys <=? 1)%nat || forallb is_num keys || forallb is_str keys.

Section set_representative_structure.
Context (E : External) (P : Project).
Context (always_use_homology : bool) (sort_homology_by : string)
        (qc : QCParams) (force_rerun : bool).

(** The body of the loop over the chains of one structure. A success ends
    with [raise StopIteration]. *)
Definition check_chain (ref_seq_id ref_seq gene_struct_dir : string)
    (pdb pdb_file : string) (chain_to_seq : gmap string string) (chain : string)
  : M (Gene * Locals) unit :=
  let* _ := bind_chain chain in
  let* chain_seq := lift (subscript (chain_to_seq !! chain)) in
  let* _ := log_event (EvSequenceChecker pdb chain) in
  let* found_good_pdb :=
    call "sequence_checker"
         (sequence_checker E ref_seq_id ref_seq (pdb +:+ "_" +:+ chain) chain_seq
            qc gene_struct_dir force_rerun) in
  if found_good_pdb then
    let* s := get_state in
    let* orig_pdb_data :=
      lift (subscript (od_get (pdb, chain) (StructureProp.pdb (structure s.1)))) in
    let* _ := update_representative (with_structure_id (SidPdb pdb chain)) in
    let* cov := lift (subscript (orig_pdb_data !! "seq_coverage")) in
    let* _ := update_representative (with_seq_coverage cov) in
    let* _ :=
      update_representative (with_original_pdb_file (VStr (op_basename E pdb_file))) in
    let* my_pdb := call "PDBIOExt" (pdbio_ext E pdb_file) in
    let* _ := log_event (EvWritePdb my_pdb (Some chain) (chain +:+ "_clean")) in
    let* default_cleaned_pdb :=
      call "write_pdb"
           (write_pdb E my_pdb (Some chain) (chain +:+ "_clean") gene_struct_dir) in
    let* _ :=
      update_representative
        (with_clean_pdb_file (VStr (op_basename E default_cleaned_pdb))) in
    raise StopIteration
  else ret tt.

(** The body of the loop over the structures. *)
Definition check_pdb (ref_seq_id ref_seq gene_struct_dir : string)
    (pdb : string) (chains : list string) : M (Gene * Locals) unit :=
  let* _ := log_event (EvDownload pdb gene_struct_dir) in
  let* pdb_file :=
    call "download_structure" (download_structure E pdb gene_struct_dir force_rerun) in
  let* chain_to_seq := call "get_pdb_seqs" (get_pdb_seqs E pdb_file) in
  for_each (check_chain ref_seq_id ref_seq gene_struct_dir pdb pdb_file chain_to_seq)
           chains.

(** The body of the [try] statement. *)
Definition pdb_search (gene_seq_dir gene_struct_dir : string)
  : M (Gene * Locals) unit :=
  let* s := get_state in
  let g := s.1 in
  match seq_file (SequenceProp.representative (sequence g)) with
  | None => raise AttributeError
  | Some seq_file =>
      let ref_seq_id := split_dot_head seq_file in
      let seq_file_path := op_join E gene_seq_dir seq_file in
      let* ref_seq := call "SeqIO.read" (read_fasta_seq E seq_file_path) in
      let all_pdbs_and_chains := od_keys (StructureProp.pdb (structure g)) in
      for_each (fun kv => check_pdb ref_seq_id ref_seq gene_struct_dir kv.1 kv.2)
               (convert_to_dict all_pdbs_and_chains)
  end.

(** [sorted(hm, key=lambda x: hm[x][sort_homology_by], reverse=True)] *)
Definition sorted_homology_ids (hm : list (string * gmap string value))
  : res (list string) :=
  res_bind
    (res_mapM (fun x =>
       res_bind (subscript (od_get x hm)) (fun d =>
       res_bind (subscript (d !! sort_homology_by)) (fun k => Ok (x, k))))
       (od_keys hm))
    (fun keyed =>
       if sortable keyed.*2
       then Ok (sorted_reverse snd value_ltb keyed).*1
       else Raise TypeError).

(** The homology block. *)
Definition use_homology_model (gene_struct_dir : string) : M (Gene * Locals) unit :=
  let* s := get_state in
  let hm := StructureProp.homology (structure s.1) in
  let* sorted_ids := lift (sorted_homology_ids hm) in
  let* top_homology :=
    lift (match sorted_ids with [] => Raise IndexError | x :: _ => Ok x end) in
  let* top := lift (subscript (od_get top_homology hm)) in
  let* original_pdb_file := lift (subscript (top !! "model_file")) in
  let* seq_coverage := lift (subscript (top !! "seq_coverage")) in
  let* _ := update_representative (with_structure_id (SidHomology top_homology)) in
  let* _ := update_representative (with_seq_coverage seq_coverage) in
  let* _ := update_representative (with_original_pdb_file original_pdb_file) in
  let* my_pdb :=
    match original_pdb_file with
    | VStr f => call "PDBIOExt" (pdbio_ext E f)
    | _ => raise TypeError
    end in
  let* s := get_state in
  let* _ := lift (match chain s.2 with
                  | Some _ => Ok tt
                  | None => Raise UnboundLocalError
                  end) in
  let* _ := log_event (EvWritePdb my_pdb None "clean") in
  let* default_cleaned_pdb :=
    call "write_pdb" (write_pdb E my_pdb None "clean" gene_struct_dir) in
  update_representative (with_clean_pdb_file (VStr (op_basename E default_cleaned_pdb))).

(** The [try ... except StopIteration ... else] statement: [None] is the
    [continue] of the handler, [Some use_homology] the flag after the
    [else] clause. *)
Definition try_pdb_search (gene_seq_dir gene_struct_dir : string)
    (has_homology use_homology : bool) : M (Gene * Locals) (option bool) :=
  fun s =>
    match pdb_search gene_seq_dir gene_struct_dir s with
    | (s', Raise StopIteration) => (s', Ok None)
    | (s', Raise e) => (s', Raise e)
    | (s', Ok _) => (s', Ok (Some (if has_homology then true else use_homology)))
    end.

(** The body of the loop over the genes. *)
Definition set_representative_structure_gene : M (Gene * Locals) unit :=
  let* s := get_state in
  let g := s.1 in
  let has_homology := (0 <? length (StructureProp.homology (structure g)))%nat in
  let has_pdb := (0 <? length (StructureProp.pdb (structure g)))%nat in
  if negb has_pdb && negb has_homology then ret tt
  else
    let '(use_homology, use_pdb) :=
      select_source always_use_homology has_homology has_pdb in
    let structure_set := false in
    let gene_seq_dir := op_join E (sequence_dir P) (gene_id g) in
    let gene_struct_dir := op_join E (structure_single_chain_dir P) (gene_id g) in
    let* after_pdb :=
      if use_pdb
      then try_pdb_search gene_seq_dir gene_struct_dir has_homology use_homology
      else ret (Some use_homology) in
    match after_pdb with
    | None => ret tt
    | Some use_homology =>
        if use_homology && negb structure_set
        then use_homology_model gene_struct_dir
        else ret tt
    end.

Definition set_representative_structure : M (list Gene * Locals) unit :=
  for_genes set_representative_structure_gene.
End set_representative_structure.

(** The state of the locals when the method is entered. *)
Definition fresh_locals : Locals := {| chain := None; trace := [] |}.

(** ** Notions used to state the properties *)

(** The score of the specification: [(1 if reviewed else 0)] plus the number
    of associated structures. *)
Definition uniprot_score (u : UniprotEntry) : Z :=
  (Z.b2z (default false (u_reviewed u)) + Z.of_nat (length (default [] (u_pdbs u))))%Z.

(** The entries that the ranking can score. *)
Definition rankable (u : UniprotEntry) : Prop :=
  is_Some (u_reviewed u) /\ is_Some (u_pdbs u).

(** The representative [rep'] has been set from the entry [u] of the
    UniProt mapping: each of the six keys of a representative that the entry
    has holds the value of the entry, and a key that the entry lacks holds
    what the representative [rep] had before. *)
Definition set_from_entry (rep : SeqRecord) (u : UniprotEntry) (rep' : SeqRecord)
  : Prop :=
  (forall a, u_uniprot_acc u = Some a -> uniprot_acc rep' = Some a) /\
  (u_uniprot_acc u = None -> uniprot_acc rep' = uniprot_acc rep) /\
  (forall l, u_kegg_id u = Some l -> kegg_id rep' = KList l) /\
  (u_kegg_id u = None -> kegg_id rep' = kegg_id rep) /\
  (forall n, u_seq_len u = Some n -> seq_len rep' = n) /\
  (u_seq_len u = None -> seq_len rep' = seq_len rep) /\
  (forall ps, u_pdbs u = Some ps -> pdbs rep' = ps) /\
  (u_pdbs u = None -> pdbs rep' = pdbs rep) /\
  (forall f, u_seq_file u = Some f -> seq_file rep' = Some f) /\
  (u_seq_file u = None -> seq_file rep' = seq_file rep) /\
  (forall f, u_metadata_file u = Some f -> metadata_file rep' = Some f) /\
  (u_metadata_file u = None -> metadata_file rep' = metadata_file rep).

(** The distinct elements of a list, in the order of their first occurrence. *)
Fixpoint nub {A} `{EqDecision A} (l : list A) : list A :=
  match l with
  | [] => []
  | x :: l' => x :: filter (fun y => y <> x) (nub l')
  end.

(** The order in which the specification evaluates the candidates: structure
    by structure in the order in which the structures first appear among the
    keys, and within a structure chain by chain in the order of the keys. *)
Definition search_order (keys : list (string * string)) : list (string * string) :=
  flat_map (fun p => filter (fun x => x.1 = p) keys) (nub keys.*1).

(** The candidates of a gene, in that order. *)
Definition candidates (g : Gene) : list (string * string) :=
  search_order (od_keys (StructureProp.pdb (structure g))).

Section candidate.
Context (E : External) (P : Project) (qc : QCParams) (force_rerun : bool).

Definition gene_seq_dir (g : Gene) : string :=
  op_join E (sequence_dir P) (gene_id g).
Definition gene_struct_dir (g : Gene) : string :=
  op_join E (structure_single_chain_dir P) (gene_id g).

(** The reference of the quality check: identifier and sequence of the
    representative sequence of the gene. *)
Definition reference_sequence (g : Gene) : res (string * string) :=
  match seq_file (SequenceProp.representative (sequence g)) with
  | None => Raise AttributeError
  | Some f =>
      match read_fasta_seq E (op_join E (gene_seq_dir g) f) with
      | None => Raise (ExternalError "SeqIO.read")
      | Some s => Ok (split_dot_head f, s)
      end
  end.

(** The sequence of one candidate: its structure file is downloaded, the
    sequences of the chains are read from it and the chain is looked up. *)
Definition structure_sequence (g : Gene) (pdb chain : string) : res string :=
  match download_structure E pdb (gene_struct_dir g) force_rerun with
  | None => Raise (ExternalError "download_structure")
  | Some pdb_file =>
      match get_pdb_seqs E pdb_file with
      | None => Raise (ExternalError "get_pdb_seqs")
      | Some chain_to_seq => subscript (chain_to_seq !! chain)
      end
  end.

(** The verdict of the quality check on one candidate. *)
Definition qc_verdict (g : Gene) (ref : string * string) (pdb chain : string)
  : res bool :=
  res_bind (structure_sequence g pdb chain) (fun chain_seq =>
    match sequence_checker E ref.1 ref.2 (pdb +:+ "_" +:+ chain) chain_seq qc
            (gene_struct_dir g) force_rerun with
    | None => Raise (ExternalError "sequence_checker")
    | Some b => Ok b
    end).
End candidate.

(** The quality checks of a trace, in order. *)
Definition qc_checks (tr : list event) : list (string * string) :=
  flat_map (fun ev =>
              match ev with
              | EvSequenceChecker p c => [(p, c)]
              | _ => []
              end) tr.

(** The sort key of a homology model. *)
Definition homology_key (sort_homology_by : string) (m : string * gmap string value)
  : value :=
  default VNone (m.2 !! sort_homology_by).

(** The key under which a record of the ranked list is stored. *)
Definition ranked_key (best_structure : BestStructure) : string * string :=
  (lower (bs_pdb_id best_structure), upper (bs_chain_id best_structure)).

(** The (pdb, chain) pairs that the ranked ingestor has entries for, for a
    gene. *)
Definition ranked_keys (E : External) (P : Project) (seq_ident_cutoff : Q)
    (force_rerun : bool) (g : Gene) : list (string * string) :=
  match uniprot_acc (SequenceProp.representative (sequence g)) with
  | None => []
  | Some uniprot_id =>
      match best_structures E uniprot_id (uniprot_id +:+ "_best_structures.json")
              (op_join E (sequence_dir P) (gene_id g)) seq_ident_cutoff force_rerun with
      | None => []
      | Some best => ranked_key <$> best
      end
  end.

(** The effects of copying and storing one manual homology model. *)
Definition model_events (dest : string) (m : string * gmap string value) : list event :=
  match m.2 !! "model_file" with
  | Some (VStr src) => [EvEnsureDir dest; EvCopy2 src dest]
  | _ => []
  end.

(** A manual homology model that has a file, which can be copied. *)
Definition model_copied (E : External) (dest : string) (m : string * gmap string value)
  : Prop :=
  exists src, m.2 !! "model_file" = Some (VStr src) /\ copy2 E src dest = Some tt.

(** The groups of the specification: one group for each structure, in the
    order of first appearance, with the chains of the structure in the order
    of the keys. *)
Definition grouped (keys : list (string * string)) : list (string * list string) :=
  (fun p => (p, (filter (fun x => x.1 = p) keys).*2)) <$> nub keys.*1.

(** The candidates of a list of groups, group after group. *)
Definition flatten_groups (groups : list (string * list string))
  : list (string * string) :=
  flat_map (fun kv => (fun c => (kv.1, c)) <$> kv.2) groups.

(** ** The search of the PDB entries as one loop

    The two nested loops of the search visit the candidates one after the
    other; the structure file is downloaded and read when the first chain of
    a structure is reached. [check_candidate] is the visit of one candidate:
    the download is an event only for the first chain of a structure, its
    result is the same for every chain. *)
Definition check_candidate (E : External) (qc : QCParams) (force_rerun : bool)
    (ref_seq_id ref_seq gene_struct_dir : string) (x : bool * (string * string))
  : M (Gene * Locals) unit :=
  let pdb := x.2.1 in
  let chain := x.2.2 in
  let* _ := if x.1 then log_event (EvDownload pdb gene_struct_dir) else ret tt in
  let* pdb_file :=
    call "download_structure" (download_structure E pdb gene_struct_dir force_rerun) in
  let* chain_to_seq := call "get_pdb_seqs" (get_pdb_seqs E pdb_file) in
  check_chain E qc force_rerun ref_seq_id ref_seq gene_struct_dir pdb pdb_file
    chain_to_seq chain.

(** The candidates of a list of groups, the first of each group marked. *)
Definition mark_first (groups : list (string * list string))
  : list (bool * (string * string)) :=
  flat_map (fun kv =>
              match kv.2 with
              | [] => []
              | c :: cs => (true, (kv.1, c)) :: ((fun c' => (false, (kv.1, c'))) <$> cs)
              end) groups.

(** The files of a representative PDB structure: the name of the downloaded
    file and the name of the cleaned single-chain file. *)
Definition cleaned_pdb (E : External) (P : Project) (force_rerun : bool) (g : Gene)
    (pdb chain : string) : option (string * string) :=
  pdb_file ← download_structure E pdb (gene_struct_dir E P g) force_rerun;
  my_pdb ← pdbio_ext E pdb_file;
  cleaned ← write_pdb E my_pdb (Some chain) (chain +:+ "_clean") (gene_struct_dir E P g);
  Some (op_basename E pdb_file, op_basename E cleaned).

(** The events of the search of a list of marked candidates that the
    quality check rejects. *)
Definition rejected_events (gene_struct_dir : string) (x : bool * (string * string))
  : list event :=
  (if x.1 then [EvDownload x.2.1 gene_struct_dir] else [])
  ++ [EvSequenceChecker x.2.1 x.2.2].

(** * The mapping methods, the I-TASSER models and the folding rate

    The methods of [GEMPRO] that fill the annotation from the KEGG and
    UniProt services ([kegg_mapping_and_metadata],
    [uniprot_mapping_and_metadata], [manual_uniprot_mapping]), the method
    that takes the I-TASSER models in ([get_itasser_models]), the query
    [get_pdbs_for_gene], and [get_foldrate] of [kinetic_folding_rate.py].
    The services that these methods call are the fields of the record
    [Services]. *)

(** ** What a method may change *)

Definition only_sequence_representative (g g' : Gene) : Prop :=
  gene_id g' = gene_id g /\ structure g' = structure g /\
  SequenceProp.kegg (sequence g') = SequenceProp.kegg (sequence g) /\
  SequenceProp.uniprot (sequence g') = SequenceProp.uniprot (sequence g).

Definition only_structure_pdb (g g' : Gene) : Prop :=
  gene_id g' = gene_id g /\ sequence g' = sequence g /\
  StructureProp.homology (structure g') = StructureProp.homology (structure g) /\
  StructureProp.representative (structure g') = StructureProp.representative (structure g).

Definition only_structure_homology (g g' : Gene) : Prop :=
  gene_id g' = gene_id g /\ sequence g' = sequence g /\
  StructureProp.pdb (structure g') = StructureProp.pdb (structure g) /\
  StructureProp.representative (structure g') = StructureProp.representative (structure g).

Definition only_structure_representative (g g' : Gene) : Prop :=
  gene_id g' = gene_id g /\ sequence g' = sequence g /\
  StructureProp.homology (structure g') = StructureProp.homology (structure g) /\
  StructureProp.pdb (structure g') = StructureProp.pdb (structure g).

(** A computation each of whose runs relates the state it starts from to the
    state it ends in, whether it returns or raises. *)
Definition preserves {S A} (R : S -> S -> Prop) (c : M S A) : Prop :=
  forall s, R s (c s).1.

(** The relation on the states of a loop over the genes that a relation on
    genes gives. *)
Definition on_fst {F} (R : Gene -> Gene -> Prop) (s s' : Gene * F) : Prop :=
  R s.1 s'.1.

(** The structures that a trace downloads, in order. *)
Definition downloads (tr : list event) : list string :=
  flat_map (fun ev =>
              match ev with
              | EvDownload p _ => [p]
              | _ => []
              end) tr.

(** An entry of the [pdb] mapping that agrees with its key and has a
    coverage: what the search of the PDB entries and the downloader of the
    structures read from an entry. The identifier of the structure is in
    lower case, the chain in upper case. *)
Definition entry_consistent (kv : (string * string) * gmap string value) : Prop :=
  kv.2 !! "pdb_id" = Some (VStr kv.1.1) /\
  kv.2 !! "pdb_chain_id" = Some (VStr kv.1.2) /\
  is_Some (kv.2 !! "seq_coverage") /\
  lower kv.1.1 = kv.1.1 /\ upper kv.1.2 = kv.1.2.

(** The models that the manual input has for a gene. *)
Definition manual_models (input_dict : list (string * list (string * gmap string value)))
    (g : Gene) : list (string * gmap string value) :=
  default [] (od_get (gene_id g) input_dict).

(** The gene after its manual models have been stored. *)
Definition with_manual_models
    (input_dict : list (string * list (string * gmap string value))) (g : Gene) : Gene :=
  set_structure
    (StructureProp.set_homology
       (od_update (StructureProp.homology (structure g)) (manual_models input_dict g))
       (structure g)) g.

(** ** The mapping services

    The KEGG, UniProt and I-TASSER collaborators of the class. As in
    [External], a result [None] stands for a call that raised. *)

(** What [bs_kegg.parse] makes of a KEGG entry, as far as the class reads
    it: the dictionary under ["STRUCTURE"], when the entry has one. *)
Record KeggParsed : Type := mkKeggParsed {
  kp_structure : option (gmap string string)
}.

Record Services : Type := mkServices {
  (** [ssbio.databases.kegg.map_kegg_all_genes(organism_code,
      target_db='uniprot')]: a dictionary from KEGG gene to accession *)
  map_kegg_all_genes : string -> option (gmap string string);
  (** [ssbio.databases.kegg.download_kegg_gene_metadata(organism_code,
      gene_id, outdir, force_rerun)]: the path of the file, or [None] *)
  download_kegg_gene_metadata : string -> string -> string -> bool -> option (option string);
  (** [bs_kegg.parse(mf.read())] on the opened metadata file *)
  kegg_parse : string -> option KeggParsed;
  (** [ssbio.databases.kegg.download_kegg_aa_seq(organism_code, gene_id,
      outdir, force_rerun)]: the path of the file, or [None] *)
  download_kegg_aa_seq : string -> string -> string -> bool -> option (option string);
  (** [len(SeqIO.read(open(sequence_file), "fasta"))] *)
  fasta_seq_len : string -> option Z;
  (** [bs_unip.mapping(fr=model_gene_source, to='ACC', query=genes_to_map)]:
      a dictionary from identifier to the list of its accessions *)
  uniprot_mapping : string -> list string -> option (gmap string (list string));
  (** [ssbio.databases.uniprot.download_uniprot_file(uniprot_id, filetype,
      outdir, force_rerun)]; the last argument is [None] where the call does
      not give it *)
  download_uniprot_file : string -> string -> string -> option bool -> option string;
  (** [ssbio.databases.uniprot.parse_uniprot_txt_file(metadata_file)]: the
      metadata dictionary, as far as its keys are read by the class *)
  parse_uniprot_txt_file : string -> option UniprotEntry;
  (** [ssbio.itasser.itasserparse.organize_itasser_models(raw_dir,
      copy_to_dir, rename_model_to)]: the dictionary of the model; a result
      without content ([None] or an empty dictionary) is the empty map *)
  organize_itasser_models : string -> string -> string -> option (gmap string value)
}.

(** ** [get_itasser_models] *)

(** [orig_itasser_dir]. [custom_itasser_name_mapping] is a dictionary from
    gene to folder; [None] and the empty dictionary, which the code does not
    tell apart, are the empty list. *)
Definition orig_itasser_dir (E : External) (homology_raw_dir : string)
    (custom_itasser_name_mapping : list (string * string)) (gene_id : string) : string :=
  match custom_itasser_name_mapping, od_get gene_id custom_itasser_name_mapping with
  | _ :: _, Some folder => op_join E homology_raw_dir folder
  | _, _ => op_join E homology_raw_dir gene_id
  end.

(** The body of the loop over the genes. The second component of the state
    holds the rows of [itasser_pre_df] and the effects. *)
Definition get_itasser_models_gene (D : Services) (E : External) (P : Project)
    (homology_raw_dir : string) (custom_itasser_name_mapping : list (string * string))
  : M (Gene * (list (string * gmap string value) * list event)) unit :=
  let* s := get_state in
  let gene_id := gene_id s.1 in
  let dest_gene_dir := op_join E (structure_single_chain_dir P) gene_id in
  let* _ := modify (fun s => (s.1, (s.2.1, s.2.2 ++ [EvEnsureDir dest_gene_dir]))) in
  let orig_itasser_dir :=
    orig_itasser_dir E homology_raw_dir custom_itasser_name_mapping gene_id in
  let* itasser_info :=
    call "organize_itasser_models"
         (organize_itasser_models D orig_itasser_dir dest_gene_dir gene_id) in
  if bool_decide (itasser_info <> ∅) then
    let itasser_info := <["seq_coverage" := VNum 1]> itasser_info in
    modify (fun s =>
      (set_structure
         (StructureProp.set_homology
            (od_set gene_id itasser_info (StructureProp.homology (structure s.1)))
            (structure s.1)) s.1,
       (s.2.1 ++ [(gene_id, itasser_info)], s.2.2)))
  else ret tt.

(** [get_itasser_models]: the genes and the effects afterwards; the result
    is the list of the rows of the data frame [df_itasser]. *)
Definition get_itasser_models (D : Services) (E : External) (P : Project)
    (homology_raw_dir : string) (custom_itasser_name_mapping : list (string * string))
  : M (list Gene * list event) (list (string * gmap string value)) :=
  fun s =>
    let '((genes, (itasser_pre_df, effects)), r) :=
      for_genes_from
        (get_itasser_models_gene D E P homology_raw_dir custom_itasser_name_mapping)
        s.1 ([], s.2) in
    ((genes, effects), res_bind r (fun _ => Ok itasser_pre_df)).

(** ** [get_pdbs_for_gene] *)

(** The argument of [get_pdbs_for_gene]: the identifier of a gene or the
    gene. *)
Inductive gene_ref : Type :=
  | ById (g : string)
  | ByGene (gene : Gene).

(** [self.genes.get_by_id(g)]: an unknown identifier raises [KeyError]. *)
Definition get_by_id (genes : list Gene) (g : string) : res Gene :=
  subscript (snd <$> list_find (fun x => gene_id x = g) genes).

(** [x[:4]] for a key [x] of the [pdb] mapping, a tuple of two strings: the
    tuple of its first four components, written as their list. *)
Definition tuple_slice_4 (x : string * string) : list string :=
  take 4 [x.1; x.2].

(** [list(set(...))], in the order in which the set enumerates. *)
Definition get_pdbs_for_gene (genes : list Gene) (gene : gene_ref)
  : res (list (list string)) :=
  res_bind (match gene with
            | ById g => get_by_id genes g
            | ByGene gene => Ok gene
            end) (fun gene =>
  let pdbs := [] in
  if (0 <? length (StructureProp.pdb (structure gene)))%nat then
    let keys := od_keys (StructureProp.pdb (structure gene)) in
    Ok (elements (list_to_set (tuple_slice_4 <$> keys) : gset (list string)))
  else Ok pdbs).

(** ** [kegg_mapping_and_metadata] *)

(** [s.split(sep)] for a separator of one character. *)
Fixpoint split_on (sep : ascii) (s : string) : list string :=
  match s with
  | EmptyString => [EmptyString]
  | String c s' =>
      if Ascii.eqb c sep then EmptyString :: split_on sep s'
      else match split_on sep s' with
           | [] => [String c EmptyString]
           | w :: ws => String c w :: ws
           end
  end.

(** [kegg_dict]: [None] is a key that the loop has not set. *)
Record KeggDict : Type := mkKeggDict {
  kd_uniprot_acc : option string;
  kd_kegg_id : option string;
  kd_seq_len : option Z;
  kd_pdbs : option (list string);
  kd_seq_file : option string;
  kd_metadata_file : option string
}.

(** [g.annotation['sequence']['kegg'].update(kegg_dict)] *)
Definition update_kegg (kegg : SeqRecord) (kegg_dict : KeggDict) : SeqRecord :=
  {| uniprot_acc :=
       match kd_uniprot_acc kegg_dict with Some a => Some a | None => uniprot_acc kegg end;
     kegg_id :=
       match kd_kegg_id kegg_dict with Some k => KStr k | None => kegg_id kegg end;
     seq_len := default (seq_len kegg) (kd_seq_len kegg_dict);
     pdbs := default (pdbs kegg) (kd_pdbs kegg_dict);
     seq_file :=
       match kd_seq_file kegg_dict with Some f => Some f | None => seq_file kegg end;
     metadata_file :=
       match kd_metadata_file kegg_dict with
       | Some f => Some f
       | None => metadata_file kegg
       end |}.

Definition set_kegg (r : SeqRecord) (sp : SequenceProp.t) : SequenceProp.t :=
  {| SequenceProp.kegg := r; SequenceProp.uniprot := SequenceProp.uniprot sp;
     SequenceProp.representative := SequenceProp.representative sp |}.

(** A path that a download has returned counts when it is not [None] and
    not empty. *)
Definition found (file : option string) : option string :=
  match file with
  | Some f => if truthy f then Some f else None
  | None => None
  end.

(** The body of the loop over the genes. [custom_gene_mapping] is a
    dictionary from gene to KEGG gene; [None] and the empty dictionary, which
    the code does not tell apart, are the empty list. The second component of
    the state holds the rows of [kegg_pre_df] and the effects. *)
Definition kegg_mapping_gene (D : Services) (E : External) (P : Project)
    (kegg_organism_code : string) (custom_gene_mapping : list (string * string))
    (force_rerun : bool) (kegg_to_uniprot : gmap string string)
  : M (Gene * (list (string * KeggDict) * list event)) unit :=
  let* s := get_state in
  let gene_id := gene_id s.1 in
  let* kegg_g :=
    lift (match custom_gene_mapping with
          | [] => Ok gene_id
          | _ :: _ => subscript (od_get gene_id custom_gene_mapping)
          end) in
  let gene_folder := op_join E (sequence_dir P) gene_id in
  let* _ := modify (fun s => (s.1, (s.2.1, s.2.2 ++ [EvEnsureDir gene_folder]))) in
  let* metadata_file :=
    call "download_kegg_gene_metadata"
         (download_kegg_gene_metadata D kegg_organism_code kegg_g gene_folder force_rerun) in
  let* metadata :=
    match found metadata_file with
    | Some f =>
        let* kegg_parsed := call "bs_kegg.parse" (kegg_parse D f) in
        match kp_structure kegg_parsed with
        | Some kegg_structure =>
            let* pdb := lift (subscript (kegg_structure !! "PDB")) in
            ret (Some (op_basename E f), Some (split_on " " pdb))
        | None => ret (Some (op_basename E f), None)
        end
    | None => ret (None, None)
    end in
  let* sequence_file :=
    call "download_kegg_aa_seq"
         (download_kegg_aa_seq D kegg_organism_code kegg_g gene_folder force_rerun) in
  let* seq_len :=
    match found sequence_file with
    | Some f => let* n := call "SeqIO.read" (fasta_seq_len D f) in ret (Some n)
    | None => ret None
    end in
  let kegg_dict :=
    {| kd_metadata_file := metadata.1;
       kd_pdbs := metadata.2;
       kd_kegg_id := (fun _ => kegg_organism_code +:+ ":" +:+ kegg_g) <$> found sequence_file;
       kd_seq_file := op_basename E <$> found sequence_file;
       kd_seq_len := seq_len;
       kd_uniprot_acc := kegg_to_uniprot !! kegg_g |} in
  modify (fun s =>
    (set_sequence
       (set_kegg (update_kegg (SequenceProp.kegg (sequence s.1)) kegg_dict) (sequence s.1))
       s.1,
     (s.2.1 ++ [(gene_id, kegg_dict)], s.2.2))).

(** [df[pd.isnull(df.kegg_id)].gene.unique().tolist()]: a row without the
    key has a null in the column. *)
Definition missing_kegg (df_kegg_metadata : list (string * KeggDict)) : list string :=
  nub (filter (fun row => kd_kegg_id row.2 = None) df_kegg_metadata).*1.

(** [kegg_mapping_and_metadata]: the genes and the effects afterwards; the
    result holds what the method assigns to the attributes
    [df_kegg_metadata] and [missing_kegg_mapping]. *)
Definition kegg_mapping_and_metadata (D : Services) (E : External) (P : Project)
    (kegg_organism_code : string) (custom_gene_mapping : list (string * string))
    (force_rerun : bool)
  : M (list Gene * list event) (list (string * KeggDict) * list string) :=
  fun s =>
    match map_kegg_all_genes D kegg_organism_code with
    | None => (s, Raise (ExternalError "map_kegg_all_genes"))
    | Some kegg_to_uniprot =>
        let '((genes, (kegg_pre_df, effects)), r) :=
          for_genes_from
            (kegg_mapping_gene D E P kegg_organism_code custom_gene_mapping force_rerun
               kegg_to_uniprot)
            s.1 ([], s.2) in
        ((genes, effects),
         res_bind r (fun _ => Ok (kegg_pre_df, missing_kegg kegg_pre_df)))
    end.

(** The KEGG gene that a gene is looked up as, in a run that does not
    raise. *)
Definition kegg_gene (custom_gene_mapping : list (string * string)) (g : Gene) : string :=
  default (gene_id g) (od_get (gene_id g) custom_gene_mapping).

(** The sequence file that the KEGG service has for a gene, if any. *)
Definition kegg_sequence_file (D : Services) (E : External) (P : Project)
    (kegg_organism_code : string) (custom_gene_mapping : list (string * string))
    (force_rerun : bool) (g : Gene) : option string :=
  download_kegg_aa_seq D kegg_organism_code (kegg_gene custom_gene_mapping g)
    (op_join E (sequence_dir P) (gene_id g)) force_rerun ≫= found.

(** ** [uniprot_mapping_and_metadata] *)

(** [uniprot_dict = {}] *)
Definition empty_uniprot_dict : UniprotEntry :=
  {| u_reviewed := None; u_pdbs := None; u_kegg_id := None; u_uniprot_acc := None;
     u_seq_len := None; u_seq_file := None; u_metadata_file := None |}.

(** [uniprot_dict.update(metadata)] *)
Definition update_uniprot_dict (d metadata : UniprotEntry) : UniprotEntry :=
  {| u_reviewed :=
       match u_reviewed metadata with Some b => Some b | None => u_reviewed d end;
     u_pdbs := match u_pdbs metadata with Some l => Some l | None => u_pdbs d end;
     u_kegg_id := match u_kegg_id metadata with Some l => Some l | None => u_kegg_id d end;
     u_uniprot_acc :=
       match u_uniprot_acc metadata with Some a => Some a | None => u_uniprot_acc d end;
     u_seq_len := match u_seq_len metadata with Some n => Some n | None => u_seq_len d end;
     u_seq_file :=
       match u_seq_file metadata with Some f => Some f | None => u_seq_file d end;
     u_metadata_file :=
       match u_metadata_file metadata with
       | Some f => Some f
       | None => u_metadata_file d
       end |}.

Definition with_u_uniprot_acc (a : string) (d : UniprotEntry) : UniprotEntry :=
  {| u_reviewed := u_reviewed d; u_pdbs := u_pdbs d; u_kegg_id := u_kegg_id d;
     u_uniprot_acc := Some a; u_seq_len := u_seq_len d; u_seq_file := u_seq_file d;
     u_metadata_file := u_metadata_file d |}.
Definition with_u_seq_file (f : string) (d : UniprotEntry) : UniprotEntry :=
  {| u_reviewed := u_reviewed d; u_pdbs := u_pdbs d; u_kegg_id := u_kegg_id d;
     u_uniprot_acc := u_uniprot_acc d; u_seq_len := u_seq_len d; u_seq_file := Some f;
     u_metadata_file := u_metadata_file d |}.
Definition with_u_metadata_file (f : string) (d : UniprotEntry) : UniprotEntry :=
  {| u_reviewed := u_reviewed d; u_pdbs := u_pdbs d; u_kegg_id := u_kegg_id d;
     u_uniprot_acc := u_uniprot_acc d; u_seq_len := u_seq_len d;
     u_seq_file := u_seq_file d; u_metadata_file := Some f |}.

(** [if 'pdbs' not in uniprot_dict: uniprot_dict['pdbs'] = []] *)
Definition default_u_pdbs (d : UniprotEntry) : UniprotEntry :=
  {| u_reviewed := u_reviewed d;
     u_pdbs := match u_pdbs d with Some l => Some l | None => Some [] end;
     u_kegg_id := u_kegg_id d; u_uniprot_acc := u_uniprot_acc d;
     u_seq_len := u_seq_len d; u_seq_file := u_seq_file d;
     u_metadata_file := u_metadata_file d |}.

Definition set_uniprot (u : list (string * UniprotEntry)) (sp : SequenceProp.t)
  : SequenceProp.t :=
  {| SequenceProp.kegg := SequenceProp.kegg sp; SequenceProp.uniprot := u;
     SequenceProp.representative := SequenceProp.representative sp |}.

(** The dictionary [uniprot_dict] is made once for a gene, before the loop
    over the accessions mapped to the gene, and every turn of that loop
    updates it and stores it: the entries that the loop puts into the
    [uniprot] mapping of the gene and the rows that it appends to
    [uniprot_pre_df] are one object. [Shared] is a reference to that object,
    [Own e] a dictionary that was in the mapping before. *)
Inductive dict_ref : Type :=
  | Own (e : UniprotEntry)
  | Shared.

Definition deref (uniprot_dict : UniprotEntry) (r : dict_ref) : UniprotEntry :=
  match r with
  | Own e => e
  | Shared => uniprot_dict
  end.

(** The state of the loop over the accessions of one gene: the content of
    [uniprot_dict], the [uniprot] mapping of the gene and the number of rows
    appended to [uniprot_pre_df], each of which is [uniprot_dict]. *)
Record UniprotLocals : Type := mkUniprotLocals {
  uniprot_dict : UniprotEntry;
  uniprot_refs : list (string * dict_ref);
  appended : nat
}.

Definition update_dict (f : UniprotEntry -> UniprotEntry) : M UniprotLocals unit :=
  modify (fun l =>
    {| uniprot_dict := f (uniprot_dict l); uniprot_refs := uniprot_refs l;
       appended := appended l |}).

(** [g.annotation['sequence']['uniprot'][key] = uniprot_dict] *)
Definition store_dict (key : string) : M UniprotLocals unit :=
  modify (fun l =>
    {| uniprot_dict := uniprot_dict l;
       uniprot_refs := od_set key Shared (uniprot_refs l);
       appended := appended l |}).

(** [uniprot_pre_df.append(uniprot_dict)] *)
Definition append_dict : M UniprotLocals unit :=
  modify (fun l =>
    {| uniprot_dict := uniprot_dict l; uniprot_refs := uniprot_refs l;
       appended := S (appended l) |}).

(** The body of the loop over the accessions mapped to a gene. *)
Definition uniprot_mapping_accession (D : Services) (E : External)
    (gene_folder : string) (force_rerun : bool) (mapped_uniprot : string)
  : M UniprotLocals unit :=
  let* _ := update_dict (with_u_uniprot_acc mapped_uniprot) in
  let* metadata_file :=
    call "download_uniprot_file"
         (download_uniprot_file D mapped_uniprot "txt" gene_folder (Some force_rerun)) in
  let* sequence_file :=
    call "download_uniprot_file"
         (download_uniprot_file D mapped_uniprot "fasta" gene_folder (Some force_rerun)) in
  let* _ := update_dict (with_u_seq_file (op_basename E sequence_file)) in
  let* _ := update_dict (with_u_metadata_file (op_basename E metadata_file)) in
  let* metadata := call "parse_uniprot_txt_file" (parse_uniprot_txt_file D metadata_file) in
  let* _ := update_dict (fun d => update_uniprot_dict d metadata) in
  let* _ := update_dict default_u_pdbs in
  let* _ := store_dict mapped_uniprot in
  append_dict.

(** [uniprot_gene]: the identifier under which the gene is looked up. *)
Definition uniprot_gene (custom_gene_mapping : list (string * string)) (gene_id : string)
  : string :=
  match custom_gene_mapping, od_get gene_id custom_gene_mapping with
  | _ :: _, Some x => x
  | _, _ => gene_id
  end.

(** The loop over the accessions, or the one row of a gene that is not
    mapped. *)
Definition uniprot_mapping_accessions (D : Services) (E : External)
    (gene_folder : string) (force_rerun : bool)
    (genes_to_uniprots : gmap string (list string)) (uniprot_gene : string)
  : M UniprotLocals unit :=
  match genes_to_uniprots !! uniprot_gene with
  | None => append_dict
  | Some accessions =>
      for_each (uniprot_mapping_accession D E gene_folder force_rerun) accessions
  end.

(** The body of the loop over the genes. The second component of the state
    holds the rows of [uniprot_pre_df], each with its gene, and the effects.
    When the body is left, with or without exception, nothing changes
    [uniprot_dict] any more: the mapping of the gene and the new rows hold
    its last content. *)
Definition uniprot_mapping_gene (D : Services) (E : External) (P : Project)
    (custom_gene_mapping : list (string * string)) (force_rerun : bool)
    (genes_to_uniprots : gmap string (list string))
  : M (Gene * (list (string * UniprotEntry) * list event)) unit :=
  fun s =>
    let g := s.1 in
    let gene_folder := op_join E (sequence_dir P) (gene_id g) in
    let '(locals, r) :=
      uniprot_mapping_accessions D E gene_folder force_rerun genes_to_uniprots
        (uniprot_gene custom_gene_mapping (gene_id g))
        {| uniprot_dict := empty_uniprot_dict;
           uniprot_refs := (fun kv => (kv.1, Own kv.2)) <$> SequenceProp.uniprot (sequence g);
           appended := 0 |} in
    ((set_sequence
        (set_uniprot
           ((fun kv => (kv.1, deref (uniprot_dict locals) kv.2)) <$> uniprot_refs locals)
           (sequence g)) g,
      (s.2.1 ++ replicate (appended locals) (gene_id g, uniprot_dict locals),
       s.2.2 ++ [EvEnsureDir gene_folder])),
     r).

(** The attributes [df_uniprot_metadata] and [missing_uniprot_mapping] of
    the project; [None] is an attribute that has not been set. A data frame
    is the list of its rows, in the order of its index. *)
Record UniprotFrames : Type := mkUniprotFrames {
  df_uniprot_metadata : option (list (string * UniprotEntry));
  missing_uniprot_mapping : option (list string)
}.

(** [df[pd.isnull(df.kegg_id)].gene.unique().tolist()] *)
Definition missing_uniprot (df : list (string * UniprotEntry)) : list string :=
  nub (filter (fun row => u_kegg_id row.2 = None) df).*1.

(** [df.append(rows, ignore_index=True).reset_index(drop=True)] on the data
    frame that is there, or a new data frame of the rows. *)
Definition append_rows (old : option (list (string * UniprotEntry)))
    (rows : list (string * UniprotEntry)) : list (string * UniprotEntry) :=
  match old with
  | Some df => df ++ rows
  | None => rows
  end.

Definition uniprot_mapping_and_metadata (D : Services) (E : External) (P : Project)
    (model_gene_source : string) (custom_gene_mapping : list (string * string))
    (force_rerun : bool)
  : M (list Gene * (UniprotFrames * list event)) unit :=
  fun s =>
    let genes_to_map :=
      match custom_gene_mapping with
      | [] => gene_id <$> s.1
      | _ :: _ => custom_gene_mapping.*2
      end in
    match uniprot_mapping D model_gene_source genes_to_map with
    | None => (s, Raise (ExternalError "bs_unip.mapping"))
    | Some genes_to_uniprots =>
        let '((genes, (uniprot_pre_df, effects)), r) :=
          for_genes_from
            (uniprot_mapping_gene D E P custom_gene_mapping force_rerun genes_to_uniprots)
            s.1 ([], s.2.2) in
        match r with
        | Raise e => ((genes, (s.2.1, effects)), Raise e)
        | Ok _ =>
            let df := append_rows (df_uniprot_metadata s.2.1) uniprot_pre_df in
            ((genes,
              ({| df_uniprot_metadata := Some df;
                  missing_uniprot_mapping := Some (missing_uniprot df) |}, effects)),
             Ok tt)
        end
    end.

(** ** [manual_uniprot_mapping] *)

(** [l.remove(x)]: the first occurrence goes. *)
Fixpoint list_remove (x : string) (l : list string) : list string :=
  match l with
  | [] => []
  | y :: l' => if decide (x = y) then l' else y :: list_remove x l'
  end.

(** The state of the method besides the genes: the data frame, with the
    labels of its index, and the list of the genes that were not mapped, both
    [None] when the attribute has not been set; the rows of
    [uniprot_pre_df]; the effects. *)
Record ManualLocals : Type := mkManualLocals {
  m_df : option (list (nat * (string * UniprotEntry)));
  m_missing : option (list string);
  m_pre_df : list (string * UniprotEntry);
  m_effects : list event
}.

(** [df.drop(i)]: the rows with the label [i] go; a label that the index
    does not have raises [KeyError]. *)
Definition drop_label (i : nat) : M (Gene * ManualLocals) unit :=
  let* s := get_state in
  match m_df s.2 with
  | None => raise AttributeError
  | Some df =>
      if bool_decide (i ∈ df.*1) then
        modify (fun s =>
          (s.1, {| m_df := Some (filter (fun row => row.1 <> i) df);
                   m_missing := m_missing s.2; m_pre_df := m_pre_df s.2;
                   m_effects := m_effects s.2 |}))
      else raise KeyError
  end.

(** The block that takes the gene out of the list of the genes that were
    not mapped and its rows out of the data frame. *)
Definition forget_gene (g : string) : M (Gene * ManualLocals) unit :=
  let* s := get_state in
  match m_df s.2 with
  | None => ret tt
  | Some _ =>
      let* missing :=
        lift (match m_missing s.2 with
              | None => Raise AttributeError
              | Some missing => Ok missing
              end) in
      let* _ :=
        if bool_decide (g ∈ missing) then
          modify (fun s =>
            (s.1, {| m_df := m_df s.2; m_missing := Some (list_remove g missing);
                     m_pre_df := m_pre_df s.2; m_effects := m_effects s.2 |}))
        else ret tt in
      let* s := get_state in
      match m_df s.2 with
      | None => raise AttributeError
      | Some df =>
          if bool_decide (g ∈ (df.*2).*1) then
            let get_index := (filter (fun row => row.2.1 = g) df).*1 in
            for_each drop_label get_index
          else ret tt
      end
  end.

(** The body of the loop over the items of [gene_to_uniprot_dict], on the
    gene that [get_by_id] has found. *)
Definition manual_uniprot_mapping_gene (D : Services) (E : External) (P : Project)
    (g u : string) : M (Gene * ManualLocals) unit :=
  let uniprot_dict := with_u_uniprot_acc u empty_uniprot_dict in
  let gene_folder := op_join E (sequence_dir P) g in
  let* _ :=
    modify (fun s =>
      (s.1, {| m_df := m_df s.2; m_missing := m_missing s.2; m_pre_df := m_pre_df s.2;
               m_effects := m_effects s.2 ++ [EvEnsureDir gene_folder] |})) in
  let* metadata_file :=
    call "download_uniprot_file" (download_uniprot_file D u "txt" gene_folder None) in
  let* sequence_file :=
    call "download_uniprot_file" (download_uniprot_file D u "fasta" gene_folder None) in
  let uniprot_dict := with_u_seq_file (op_basename E sequence_file) uniprot_dict in
  let uniprot_dict := with_u_metadata_file (op_basename E metadata_file) uniprot_dict in
  let* metadata := call "parse_uniprot_txt_file" (parse_uniprot_txt_file D metadata_file) in
  let uniprot_dict := update_uniprot_dict uniprot_dict metadata in
  let uniprot_dict := default_u_pdbs uniprot_dict in
  let* _ :=
    modify (fun s =>
      (set_sequence
         (SequenceProp.set_representative
            (update_for_saving (SequenceProp.representative (sequence s.1)) uniprot_dict)
            (sequence s.1)) s.1,
       {| m_df := m_df s.2; m_missing := m_missing s.2;
          m_pre_df := m_pre_df s.2 ++ [(g, uniprot_dict)];
          m_effects := m_effects s.2 |})) in
  forget_gene g.

(** The index of a data frame after [reset_index(drop=True)]: the labels
    are the positions. *)
Definition labelled {A} (rows : list A) : list (nat * A) :=
  imap (fun i row => (i, row)) rows.

Definition manual_uniprot_mapping (D : Services) (E : External) (P : Project)
    (gene_to_uniprot_dict : list (string * string))
  : M (list Gene * (UniprotFrames * list event)) unit :=
  fun s =>
    let '((genes, locals), r) :=
      for_each (fun gu => on_gene_by_id gu.1 (manual_uniprot_mapping_gene D E P gu.1 gu.2))
               gene_to_uniprot_dict
               (s.1, {| m_df := labelled <$> df_uniprot_metadata s.2.1;
                        m_missing := missing_uniprot_mapping s.2.1;
                        m_pre_df := []; m_effects := s.2.2 |}) in
    match r with
    | Raise e =>
        ((genes, ({| df_uniprot_metadata := (fun df => df.*2) <$> m_df locals;
                     missing_uniprot_mapping := m_missing locals |}, m_effects locals)),
         Raise e)
    | Ok _ =>
        ((genes,
          ({| df_uniprot_metadata :=
                Some (append_rows ((fun df => df.*2) <$> m_df locals) (m_pre_df locals));
              missing_uniprot_mapping := m_missing locals |}, m_effects locals)),
         Ok tt)
    end.

(** ** Notions used to state the properties of the mapping methods *)

(** The content of [uniprot_dict] after the turn of the loop for one
    accession, when the services answer. *)
Definition accession_dict (D : Services) (E : External) (gene_folder : string)
    (force_rerun : option bool) (mapped_uniprot : string) (d : UniprotEntry)
  : option UniprotEntry :=
  metadata_file ← download_uniprot_file D mapped_uniprot "txt" gene_folder force_rerun;
  sequence_file ← download_uniprot_file D mapped_uniprot "fasta" gene_folder force_rerun;
  metadata ← parse_uniprot_txt_file D metadata_file;
  Some (default_u_pdbs
          (update_uniprot_dict
             (with_u_metadata_file (op_basename E metadata_file)
                (with_u_seq_file (op_basename E sequence_file)
                   (with_u_uniprot_acc mapped_uniprot d)))
             metadata)).

(** The content after the turns for a list of accessions. *)
Fixpoint accessions_dict (D : Services) (E : External) (gene_folder : string)
    (force_rerun : option bool) (accessions : list string) (d : UniprotEntry)
  : option UniprotEntry :=
  match accessions with
  | [] => Some d
  | a :: accessions' =>
      d' ← accession_dict D E gene_folder force_rerun a d;
      accessions_dict D E gene_folder force_rerun accessions' d'
  end.

(** The dictionary that [manual_uniprot_mapping] makes for an accession,
    when the services answer. *)
Definition manual_uniprot_dict (D : Services) (E : External) (P : Project)
    (g u : string) : option UniprotEntry :=
  accession_dict D E (op_join E (sequence_dir P) g) None u empty_uniprot_dict.

(** ** The kinetic folding rate: [kinetic_folding_rate.py] *)

(** [str.find(s, sub)]: the lowest index at which [sub] occurs in [s], or
    [-1]. *)
Fixpoint find_from (i : Z) (s sub : string) : Z :=
  match s with
  | EmptyString => if String.prefix sub EmptyString then i else (-1)%Z
  | String _ s' => if String.prefix sub s then i else find_from (i + 1) s' sub
  end.

Definition str_find (s sub : string) : Z := find_from 0 s sub.

(** A bound of a slice, as Python adjusts it: a negative bound counts from
    the end, and the result is cut down to the string. *)
Definition slice_bound (len i : Z) : Z :=
  if (i <? 0)%Z then Z.max 0 (i + len) else Z.min i len.

(** [s[i:j]] *)
Definition str_slice (s : string) (i j : Z) : string :=
  let len := Z.of_nat (String.length s) in
  let start := slice_bound len i in
  let stop := slice_bound len j in
  if (start <? stop)%Z
  then String.substring (Z.to_nat start) (Z.to_nat (stop - start)) s
  else EmptyString.

(** The text that [get_foldrate] cuts out of the page of the FOLD-RATE
    server, [result = str(response.read())]. *)
Definition foldrate_of_page (result : string) : string :=
  let ind := str_find result "The folding rate," in
  let result2 := str_slice result ind (ind + 70) in
  let ind1 := str_find result2 "=" in
  let ind2 := str_find result2 "/sec" in
  let rate := str_slice result2 (ind1 + 2) ind2 in
  rate.

(** [get_foldrate(seq, secstruct)]. [fold_rate_page seq secstruct] is the
    request: the sequence is cast to a string, the form is posted to the
    server and the page is read; [None] stands for a call that raised. *)
Definition get_foldrate (fold_rate_page : string -> string -> option string)
    (seq secstruct : string) : res string :=
  match fold_rate_page seq secstruct with
  | None => Raise (ExternalError "urlopen")
  | Some result => Ok (foldrate_of_page result)
  end.

(** A character occurs in a string. *)
Fixpoint has_char (c : ascii) (s : string) : bool :=
  match s with
  | EmptyString => false
  | String c' s' => Ascii.eqb c c' || has_char c s'
  end.

(** ** Example data *)

Definition example_uniprot : list (string * UniprotEntry) :=
  [("P00003",
    {| u_reviewed := Some true; u_pdbs := Some []; u_kegg_id := None;
       u_uniprot_acc := Some "P00003"; u_seq_len := Some 300%Z;
       u_seq_file := Some "P00003.fasta"; u_metadata_file := Some "P00003.txt" |});
   ("P00001",
    {| u_reviewed := Some true; u_pdbs := Some ["1abc"]; u_kegg_id := Some ["eco:b0001"];
       u_uniprot_acc := Some "P00001"; u_seq_len := Some 300%Z;
       u_seq_file := Some "P00001.fasta"; u_metadata_file := Some "P00001.txt" |});
   ("P00002",
    {| u_reviewed := Some false; u_pdbs := Some ["2xyz"; "3def"]; u_kegg_id := Some [];
       u_uniprot_acc := Some "P00002"; u_seq_len := Some 290%Z;
       u_seq_file := Some "P00002.fasta"; u_metadata_file := Some "P00002.txt" |})].

Definition example_kegg : SeqRecord :=
  {| uniprot_acc := Some "P00001"; kegg_id := KStr "eco:b0001"; seq_len := 300;
     pdbs := ["1abc"]; seq_file := Some "eco-b0001.faa";
     metadata_file := Some "eco-b0001.kegg" |}.

Definition example_gene_finalized : Gene :=
  {| gene_id := "b0001";
     sequence := {| SequenceProp.kegg := empty_seq_record;
                    SequenceProp.uniprot := example_uniprot;
                    SequenceProp.representative := example_kegg |};
     structure := default_structure |}.

Definition example_uniprot_only : SequenceProp.t :=
  {| SequenceProp.kegg := empty_seq_record;
     SequenceProp.uniprot := example_uniprot;
     SequenceProp.representative := empty_seq_record |}.

Definition example_kegg_and_uniprot (acc : string) : SequenceProp.t :=
  {| SequenceProp.kegg :=
       {| uniprot_acc := Some acc; kegg_id := KStr "eco:b0001"; seq_len := 300;
          pdbs := ["1abc"]; seq_file := Some "eco-b0001.faa";
          metadata_file := Some "eco-b0001.kegg" |};
     SequenceProp.uniprot := example_uniprot;
     SequenceProp.representative := empty_seq_record |}.

(** A small world for the examples: four structures can be downloaded; the
    quality check accepts a chain whose sequence is the reference sequence. *)

Fixpoint basename_from (acc s : string) : string :=
  match s with
  | EmptyString => acc
  | String c s' =>
      if Ascii.eqb c "/"%char then basename_from EmptyString s'
      else basename_from (acc +:+ String c EmptyString) s'
  end.

Definition example_chains (pdb_file : string) : option (gmap string string) :=
  let name := basename_from "" pdb_file in
  if String.eqb name "1abc.pdb" then Some {[ "A" := "AAA" ]}
  else if String.eqb name "2xyz.pdb" then Some {[ "B" := "MKV" ]}
  else if String.eqb name "3def.pdb" then Some {[ "A" := "MKV" ]}
  else if String.eqb name "4mis.pdb" then Some {[ "B" := "MKV" ]}
  else None.

Definition example_best_structure (pdb_id chain_id : string) (coverage : Q)
  : BestStructure :=
  {| bs_pdb_id := pdb_id; bs_chain_id := chain_id;
     bs_experimental_method := VStr "X-ray diffraction";
     bs_resolution := VNum (21 # 10); bs_coverage := VNum coverage;
     bs_tax_id := VNum 562; bs_start := VNum 1; bs_end := VNum 300;
     bs_unp_start := VNum 1; bs_unp_end := VNum 300 |}.

Definition example_blast_hit : BlastHit :=
  {| hit_pdb := "1ABC"; hit_pdb_chains := ["a"; "c"];
     hit_score := VNum 512; hit_evalue := VNum 0;
     hit_percent_ident := VNum (97 # 100); hit_percent_similar := VNum (99 # 100);
     hit_num_ident := VNum 291; hit_num_similar := VNum 297 |}.

Definition example_external : External :=
  {| op_join := fun a b => a +:+ "/" +:+ b;
     op_basename := basename_from "";
     split_folder_and_path := fun f => ("", split_dot_head f, ".fasta");
     read_fasta_seq := fun _ => Some "MKV";
     write_fasta_file := fun _ ident outdir => Some (outdir +:+ "/" +:+ ident +:+ ".faa");
     best_structures := fun uniprot_id _ _ _ _ =>
       if String.eqb uniprot_id "P00001"
       then Some [example_best_structure "1ABC" "a" 1;
                  example_best_structure "2xyz" "B" (9 # 10)]
       else Some [];
     blast_pdb := fun _ _ _ _ _ _ _ => Some [example_blast_hit];
     get_resolution := fun _ => Some (VNum (21 # 10));
     get_release_date := fun _ => Some (VStr "2001-01-01");
     download_structure := fun pdb_id outdir _ =>
       if bool_decide (pdb_id ∈ ["1abc"; "2xyz"; "3def"; "4mis"])
       then Some (outdir +:+ "/" +:+ pdb_id +:+ ".pdb") else None;
     get_pdb_seqs := example_chains;
     sequence_checker := fun _ reference_sequence _ structure_sequence _ _ _ =>
       Some (String.eqb reference_sequence structure_sequence);
     pdbio_ext := fun pdb_file => Some pdb_file;
     write_pdb := fun pdb_file _ out_suffix out_dir =>
       Some (out_dir +:+ "/" +:+ split_dot_head (basename_from "" pdb_file)
             +:+ "_" +:+ out_suffix +:+ ".pdb");
     copy2 := fun _ _ => Some tt |}.

Definition example_project : Project :=
  {| sequence_dir := "sequences"; structure_single_chain_dir := "structures/by_gene" |}.

Definition example_qc : QCParams :=
  {| allow_missing_on_termini := 1 # 10; allow_mutants := true;
     allow_deletions := false; allow_insertions := false; allow_unresolved := true |}.

Definition example_representative : SeqRecord :=
  {| uniprot_acc := Some "P00001"; kegg_id := KList ["eco:b0001"]; seq_len := 300;
     pdbs := ["1abc"]; seq_file := Some "P00001.fasta";
     metadata_file := Some "P00001.txt" |}.

Definition example_sequence : SequenceProp.t :=
  {| SequenceProp.kegg := empty_seq_record;
     SequenceProp.uniprot := example_uniprot;
     SequenceProp.representative := example_representative |}.

Definition example_gene (pdb : list ((string * string) * gmap string value))
    (homology : list (string * gmap string value)) : Gene :=
  {| gene_id := "b0001";
     sequence := example_sequence;
     structure := {| StructureProp.homology := homology;
                     StructureProp.pdb := pdb;
                     StructureProp.representative :=
                       StructureProp.representative default_structure |} |}.

(** An entry that a BLAST run has stored for chain A of 1abc. *)
Definition example_blast_entry : gmap string value :=
  blast_dict "1abc" "A" (VNum (21 # 10)) (VStr "2001-01-01") example_blast_hit.

(** An entry that the ranked ingestor has stored for chain A of 1abc. *)
Definition example_ranked_entry : gmap string value :=
  best_structure_dict "P00001" (example_best_structure "1ABC" "a" 1)
    (VStr "2001-01-01") 1.

(** Three homology models; the second and the third have the same coverage. *)
Definition example_model (model_file : string) (coverage : Q) : gmap string value :=
  {[ "model_file" := VStr model_file; "seq_coverage" := VNum coverage ]}.

Definition example_homology : list (string * gmap string value) :=
  [("model1", example_model "/models/model1.pdb" (8 # 10));
   ("model2", example_model "/models/model2.pdb" (95 # 100));
   ("model3", example_model "/models/model3.pdb" (95 # 100))].

(** A manual input whose second model has no file. *)
Definition example_manual_input : list (string * list (string * gmap string value)) :=
  [("b0001",
    [("model1", example_model "/models/model1.pdb" (8 # 10));
     ("model2", {[ "seq_coverage" := VNum (95 # 100) ]});
     ("model3", example_model "/models/model3.pdb" (95 # 100))])].

Definition example_pdb_entry (pdb_id chain_id : string) (coverage : Q) (rank : Z)
  : gmap string value :=
  best_structure_dict "P00001" (example_best_structure pdb_id chain_id coverage)
    (VStr "2001-01-01") rank.

(** Three ranked candidates: the first is rejected by the quality check, the
    second and the third would be accepted. *)
Definition example_three_candidates : list ((string * string) * gmap string value) :=
  [(("1abc", "A"), example_pdb_entry "1abc" "A" 1 1);
   (("2xyz", "B"), example_pdb_entry "2xyz" "B" (9 # 10) 2);
   (("3def", "A"), example_pdb_entry "3def" "A" (8 # 10) 3)].

(** Two candidates: the file of the first has no chain A, the second would
    be accepted. *)
Definition example_missing_chain : list ((string * string) * gmap string value) :=
  [(("4mis", "A"), example_pdb_entry "4mis" "A" 1 1);
   (("2xyz", "B"), example_pdb_entry "2xyz" "B" (9 # 10) 2)].

(** Three candidates: the first is rejected, the file of the second has no
    chain A, the third would be accepted. *)
Definition example_rejected_then_missing
  : list ((string * string) * gmap string value) :=
  [(("1abc", "A"), example_pdb_entry "1abc" "A" 1 1);
   (("4mis", "A"), example_pdb_entry "4mis" "A" 1 2);
   (("2xyz", "B"), example_pdb_entry "2xyz" "B" (9 # 10) 3)].

(** One candidate, which is rejected. *)
Definition example_rejected : list ((string * string) * gmap string value) :=
  [(("1abc", "A"), example_pdb_entry "1abc" "A" 1 1)].

(** A gene with one UniProt entry, which has no KEGG cross-reference. *)
Definition example_entry_no_kegg_id : UniprotEntry :=
  {| u_reviewed := Some true; u_pdbs := Some []; u_kegg_id := None;
     u_uniprot_acc := Some "P00003"; u_seq_len := Some 300%Z;
     u_seq_file := Some "P00003.fasta"; u_metadata_file := Some "P00003.txt" |}.

Definition example_gene_no_kegg_id : Gene :=
  {| gene_id := "b0003";
     sequence :=
       {| SequenceProp.kegg := empty_seq_record;
          SequenceProp.uniprot := [("P00003", example_entry_no_kegg_id)];
          SequenceProp.representative := empty_seq_record |};
     structure := default_structure |}.

(** Chains of two structures, in an order that separates the chains of the
    first; the quality check rejects all three. *)
Definition example_two_chains_rejected : list ((string * string) * gmap string value) :=
  [(("1abc", "A"), example_pdb_entry "1abc" "A" 1 1);
   (("4mis", "B"), example_pdb_entry "4mis" "B" 1 2);
   (("1abc", "C"), example_pdb_entry "1abc" "C" 1 3)].

(** A world in which every structure has the chains A, B and C, none of
    which has the reference sequence. *)
Definition example_external_rejecting : External :=
  {| op_join := op_join example_external;
     op_basename := op_basename example_external;
     split_folder_and_path := split_folder_and_path example_external;
     read_fasta_seq := read_fasta_seq example_external;
     write_fasta_file := write_fasta_file example_external;
     best_structures := best_structures example_external;
     blast_pdb := blast_pdb example_external;
     get_resolution := get_resolution example_external;
     get_release_date := get_release_date example_external;
     download_structure := download_structure example_external;
     get_pdb_seqs := fun _ => Some {[ "A" := "AAA"; "B" := "GGG"; "C" := "CCC" ]};
     sequence_checker := sequence_checker example_external;
     pdbio_ext := pdbio_ext example_external;
     write_pdb := write_pdb example_external;
     copy2 := copy2 example_external |}.

(** The metadata that the UniProt service has in the examples: a full
    entry for P00001, an entry without name, files and PDBs for P00002,
    and an entry without content for every other accession. *)
Definition example_metadata (metadata_file : string) : UniprotEntry :=
  let name := basename_from "" metadata_file in
  if String.eqb name "P00001.txt" then
    {| u_reviewed := Some true; u_pdbs := Some ["1abc"]; u_kegg_id := Some ["eco:b0001"];
       u_uniprot_acc := Some "P00001"; u_seq_len := Some 300%Z;
       u_seq_file := None; u_metadata_file := None |}
  else if String.eqb name "P00002.txt" then
    {| u_reviewed := Some false; u_pdbs := None; u_kegg_id := None;
       u_uniprot_acc := None; u_seq_len := Some 290%Z;
       u_seq_file := None; u_metadata_file := None |}
  else
    {| u_reviewed := None; u_pdbs := None; u_kegg_id := None;
       u_uniprot_acc := None; u_seq_len := None;
       u_seq_file := None; u_metadata_file := None |}.

(** The services of the examples. KEGG has metadata with two structures and
    a sequence of 300 residues for the gene b0001, metadata without sequence
    for b0005 and nothing for the other genes; UniProt maps b0001 to two
    accessions; I-TASSER has a model for every gene. *)
Definition example_services : Services :=
  {| map_kegg_all_genes := fun _ => Some {[ "b0001" := "P00001" ]};
     download_kegg_gene_metadata := fun _ gene_id outdir _ =>
       if bool_decide (gene_id ∈ ["b0001"; "b0005"])
       then Some (Some (outdir +:+ "/" +:+ gene_id +:+ ".kegg")) else Some None;
     kegg_parse := fun _ => Some {| kp_structure := Some {[ "PDB" := "1ABC 2XYZ" ]} |};
     download_kegg_aa_seq := fun _ gene_id outdir _ =>
       if String.eqb gene_id "b0001"
       then Some (Some (outdir +:+ "/" +:+ gene_id +:+ ".faa")) else Some None;
     fasta_seq_len := fun _ => Some 300%Z;
     uniprot_mapping := fun _ _ => Some {[ "b0001" := ["P00001"; "P00002"] ]};
     download_uniprot_file := fun uniprot_id filetype outdir _ =>
       Some (outdir +:+ "/" +:+ uniprot_id +:+ "." +:+ filetype);
     parse_uniprot_txt_file := fun metadata_file => Some (example_metadata metadata_file);
     organize_itasser_models := fun _ copy_to_dir rename_model_to =>
       Some {[ "model_file" := VStr (copy_to_dir +:+ "/" +:+ rename_model_to +:+ ".pdb");
               "c_score" := VNum (-(3 # 2)) ]} |}.

(** A gene with a KEGG record and no UniProt mapping. *)
Definition example_gene_kegg_only : Gene :=
  {| gene_id := "b0001";
     sequence := {| SequenceProp.kegg := example_kegg; SequenceProp.uniprot := [];
                    SequenceProp.representative := empty_seq_record |};
     structure := default_structure |}.

(** The state of [manual_uniprot_mapping] on a project on which
    [uniprot_mapping_and_metadata] has run: the data frame has two rows for
    the gene b0001 and one for b0002, and b0001 is listed as not mapped. *)
Definition mapped_manual_locals : ManualLocals :=
  {| m_df := Some [(0%nat, ("b0001", example_metadata "P00009.txt"));
                   (1%nat, ("b0002", example_metadata "P00002.txt"));
                   (2%nat, ("b0001", example_metadata "P00009.txt"))];
     m_missing := Some ["b0001"]; m_pre_df := []; m_effects := [] |}.

(** The gene b0001 with one UniProt entry from an earlier run. *)
Definition example_gene_no_kegg_id_b0001 : Gene :=
  {| gene_id := "b0001"; sequence := sequence example_gene_no_kegg_id;
     structure := default_structure |}.

(** * Properties *)

(** ** The monad *)

Ltac munfold :=
  unfold call, emit, log_event, bind_chain, update_representative, zoom in *;
  unfold bind, ret, raise, lift, get_state, modify, subscript, res_bind in *.

Lemma for_each_app {S A} (body : A -> M S unit) (l1 l2 : list A) (s : S) :
  for_each body (l1 ++ l2) s =
  match for_each body l1 s with
  | (s', Ok _) => for_each body l2 s'
  | (s', Raise e) => (s', Raise e)
  end.
Proof.
  revert s. induction l1 as [|x l1 IH]; intros s; simpl.
  - reflexivity.
  - unfold bind. destruct (body x s) as [s' [[]|e]]; [apply IH | reflexivity].
Qed.

Lemma res_mapM_ok {A B} (f : A -> res B) (g : A -> B) (l : list A) :
  Forall (fun x => f x = Ok (g x)) l -> res_mapM f l = Ok (g <$> l).
Proof.
  induction 1 as [|x l Hx _ IH]; simpl; [reflexivity|].
  rewrite Hx, IH. reflexivity.
Qed.

(** ** Insertion-ordered dictionaries *)

Section odict_facts.
Context {K V : Type} `{EqDecision K}.
Implicit Types (d : list (K * V)) (k : K) (v : V).

Lemma od_get_Some_elem k v d : od_get k d = Some v -> (k, v) ∈ d.
Proof.
  induction d as [|[k' v'] d IH]; simpl; [discriminate|].
  destruct (decide (k = k')) as [->|Hne].
  - intros [= ->]. left.
  - intros Hg. right. auto.
Qed.

Lemma od_get_None k d : od_get k d = None <-> k ∉ od_keys d.
Proof.
  unfold od_keys. induction d as [|[k' v'] d IH]; simpl.
  - split; [intros _; apply not_elem_of_nil | reflexivity].
  - rewrite not_elem_of_cons. destruct (decide (k = k')) as [->|Hne].
    + split; [discriminate | intros [? _]; congruence].
    + rewrite IH. tauto.
Qed.

Lemma od_get_is_Some k d : is_Some (od_get k d) <-> k ∈ od_keys d.
Proof.
  destruct (od_get k d) eqn:Hg.
  - split; [intros _ | eauto].
    destruct (decide (k ∈ od_keys d)) as [|Hn]; [done|].
    apply od_get_None in Hn. congruence.
  - split; [intros [? ?]; discriminate|].
    intros Hin. apply od_get_None in Hg. done.
Qed.

Lemma od_mem_true k d : od_mem k d = true <-> k ∈ od_keys d.
Proof. unfold od_mem. rewrite bool_decide_eq_true. apply od_get_is_Some. Qed.

Lemma od_mem_false k d : od_mem k d = false <-> k ∉ od_keys d.
Proof. unfold od_mem. rewrite bool_decide_eq_false, od_get_is_Some. done. Qed.

(** In a well-formed dictionary every entry is the one its key finds. *)
Lemma od_get_lookup d i k v : od_wf d -> d !! i = Some (k, v) -> od_get k d = Some v.
Proof.
  unfold od_wf, od_keys. revert i.
  induction d as [|[k' v'] d IH]; intros i Hwf Hi; [done|].
  simpl in Hwf. apply NoDup_cons in Hwf as [Hnotin Hwf].
  destruct i as [|i]; simpl in *.
  - injection Hi as -> ->. rewrite decide_True; done.
  - destruct (decide (k = k')) as [->|Hne]; [|eauto].
    exfalso. apply Hnotin. apply list_elem_of_fmap.
    exists (k', v). split; [done|]. eapply list_elem_of_lookup_2; eauto.
Qed.

Lemma od_get_app k d1 d2 :
  od_get k (d1 ++ d2) =
  match od_get k d1 with Some v => Some v | None => od_get k d2 end.
Proof.
  induction d1 as [|[k' v'] d1 IH]; simpl; [done|].
  destruct (decide (k = k')); done.
Qed.

Lemma od_get_set k k' v d :
  od_get k (od_set k' v d) = if decide (k = k') then Some v else od_get k d.
Proof.
  induction d as [|[k'' v''] d IH]; simpl.
  - destruct (decide (k = k')); done.
  - destruct (decide (k' = k'')) as [->|Hne]; simpl.
    + destruct (decide (k = k'')); done.
    + destruct (decide (k = k'')) as [->|Hne'].
      * rewrite decide_False; [done|congruence].
      * apply IH.
Qed.

Lemma od_keys_set k v d :
  od_keys (od_set k v d) = if decide (k ∈ od_keys d) then od_keys d else od_keys d ++ [k].
Proof.
  unfold od_keys. induction d as [|[k' v'] d IH].
  - done.
  - cbn [od_set]. destruct (decide (k = k')) as [->|Hne]; rewrite !fmap_cons; cbn [fst].
    + destruct (decide (k' ∈ k' :: d.*1)) as [|Hn]; [done|].
      exfalso. apply Hn. left.
    + rewrite IH.
      destruct (decide (k ∈ d.*1)) as [Hin|Hnin];
        destruct (decide (k ∈ k' :: d.*1)) as [Hin'|Hnin']; try done.
      * exfalso. apply Hnin'. by right.
      * exfalso. apply elem_of_cons in Hin' as [?|?]; done.
Qed.

Lemma od_set_wf k v d : od_wf d -> od_wf (od_set k v d).
Proof.
  unfold od_wf. rewrite od_keys_set. intros Hwf.
  destruct (decide (k ∈ od_keys d)); [done|].
  apply NoDup_app. split_and!; [done| |apply NoDup_singleton].
  intros x Hx Hx'. apply list_elem_of_singleton in Hx'. congruence.
Qed.

Lemma od_update_wf d new : od_wf d -> od_wf (od_update d new).
Proof.
  unfold od_update. revert d.
  induction new as [|[k v] new IH]; intros d Hwf; simpl; [done|].
  apply IH, od_set_wf, Hwf.
Qed.


(** A key that the dictionary does not have is appended. *)
Lemma od_set_app_fresh k v d1 d2 :
  k ∉ od_keys d1 -> od_set k v (d1 ++ d2) = d1 ++ od_set k v d2.
Proof.
  unfold od_keys. induction d1 as [|[k' v'] d1 IH]; simpl; [done|].
  rewrite not_elem_of_cons. intros [Hne Hnin].
  rewrite decide_False by done. by rewrite IH.
Qed.

Lemma od_update_app_fresh d1 d2 new :
  Forall (fun kv => kv.1 ∉ od_keys d1) new ->
  od_update (d1 ++ d2) new = d1 ++ od_update d2 new.
Proof.
  unfold od_update. intros Hnew. revert d2.
  induction Hnew as [|[k v] new Hk _ IH]; intros d2; simpl; [done|].
  rewrite od_set_app_fresh by done. apply IH.
Qed.

Lemma od_update_keys_incl d new k :
  k ∈ od_keys (od_update d new) -> k ∈ od_keys d \/ k ∈ od_keys new.
Proof.
  unfold od_update. revert d.
  induction new as [|[k' v'] new IH]; intros d; simpl; [auto|].
  intros Hin. apply IH in Hin as [Hin|Hin].
  - rewrite od_keys_set in Hin. destruct (decide (k' ∈ od_keys d)); [auto|].
    apply elem_of_app in Hin as [Hin|Hin]; [auto|].
    apply list_elem_of_singleton in Hin as ->. right. left.
  - right. by right.
Qed.

(** [d.update(new)] looks a key up in [new], where the last entry for the
    key counts, and then in [d]. *)
Lemma od_get_update k d new :
  od_get k (od_update d new) =
  match od_get k (reverse new) with Some v => Some v | None => od_get k d end.
Proof.
  unfold od_update. revert d.
  induction new as [|[k' v'] new IH]; intros d; simpl; [done|].
  rewrite IH, reverse_cons, od_get_app, od_get_set. simpl.
  destruct (od_get k (reverse new)); [done|].
  destruct (decide (k = k')); done.
Qed.

Lemma od_get_reverse k d : od_wf d -> od_get k (reverse d) = od_get k d.
Proof.
  unfold od_wf, od_keys.
  induction d as [|[k' v'] d IH]; intros Hwf; simpl; [done|].
  simpl in Hwf. apply NoDup_cons in Hwf as [Hnotin Hwf].
  rewrite reverse_cons, od_get_app, IH by done. simpl.
  destruct (decide (k = k')) as [->|Hne].
  - apply od_get_None in Hnotin. by rewrite Hnotin.
  - by destruct (od_get k d).
Qed.

Lemma od_get_filter_key (p : K -> bool) k d :
  od_get k (filter (fun kv => p kv.1) d) = if p k then od_get k d else None.
Proof.
  induction d as [|[k' v'] d IH]; simpl.
  - by destruct (p k).
  - rewrite filter_cons. simpl. destruct (p k') eqn:Hp; simpl.
    + destruct (decide (k = k')) as [->|Hne]; [by rewrite Hp | apply IH].
    + rewrite IH. destruct (decide (k = k')) as [->|Hne]; [by rewrite Hp | done].
Qed.

Lemma filter_key_wf (p : K -> bool) d : od_wf d -> od_wf (filter (fun kv => p kv.1) d).
Proof.
  unfold od_wf, od_keys. intros Hwf.
  eapply sublist_NoDup; [exact Hwf|].
  apply fmap_sublist, sublist_filter.
Qed.

Lemma od_update_fresh acc d : od_wf (acc ++ d) -> od_update acc d = acc ++ d.
Proof.
  unfold od_update. revert acc.
  induction d as [|[k v] d IH]; intros acc Hwf; simpl.
  - by rewrite app_nil_r.
  - assert (Hk : k ∉ od_keys acc).
    { unfold od_wf, od_keys in Hwf. rewrite fmap_app in Hwf.
      apply NoDup_app in Hwf as (_ & Hdisj & _).
      intros Hin. apply (Hdisj k Hin). left. }
    pose proof (od_set_app_fresh k v acc [] Hk) as Hset.
    rewrite app_nil_r in Hset. simpl in Hset. rewrite Hset.
    rewrite IH; [by rewrite <- app_assoc|].
    by rewrite <- app_assoc.
Qed.

(** [OrderedDict(pairs)] of pairs with distinct keys is the list of pairs. *)
Lemma od_of_pairs_id d : od_wf d -> od_of_pairs d = d.
Proof. intros Hwf. unfold od_of_pairs. by rewrite od_update_fresh. Qed.
End odict_facts.

(** ** The stable descending sort *)

Section sorted_reverse_facts.
Context {A K : Type} (key : A -> K) (ltb : K -> K -> bool).

Lemma insert_reverse_perm x l : insert_reverse key ltb x l ≡ₚ x :: l.
Proof.
  induction l as [|y l IH]; simpl; [done|].
  destruct (ltb (key x) (key y)); [|done].
  rewrite IH. apply Permutation_swap.
Qed.

Lemma sorted_reverse_perm l : sorted_reverse key ltb l ≡ₚ l.
Proof.
  induction l as [|x l IH]; simpl; [done|].
  by rewrite insert_reverse_perm, IH.
Qed.

Lemma sorted_reverse_nil l : sorted_reverse key ltb l = [] -> l = [].
Proof.
  intros Hs. apply Permutation_nil_r. rewrite <- Hs.
  symmetry. apply sorted_reverse_perm.
Qed.

(** The winner of the specification is unique. *)
Lemma first_max_unique l i j x y :
  first_max key ltb l i x -> first_max key ltb l j y -> i = j /\ x = y.
Proof.
  intros (Hi & Hmax_x & Hbefore_x) (Hj & Hmax_y & Hbefore_y).
  assert (i = j) as ->.
  { destruct (Nat.lt_trichotomy i j) as [Hlt|[Heq|Hlt]]; [|done|].
    - specialize (Hbefore_y i x Hlt Hi).
      rewrite (Hmax_x y) in Hbefore_y; [done|].
      eapply list_elem_of_lookup_2; eauto.
    - specialize (Hbefore_x j y Hlt Hj).
      rewrite (Hmax_y x) in Hbefore_x; [done|].
      eapply list_elem_of_lookup_2; eauto. }
  split; [done | congruence].
Qed.

Context (ltb_irrefl : forall a, ltb a a = false)
        (ltb_trans : forall a b c, ltb a b = true -> ltb b c = true -> ltb a c = true)
        (ltb_negtrans :
           forall a b c, ltb a b = false -> ltb b c = false -> ltb a c = false).

Lemma ltb_asym a b : ltb a b = true -> ltb b a = false.
Proof.
  intros Hab. destruct (ltb b a) eqn:Hba; [|done].
  by rewrite <- (ltb_irrefl a), (ltb_trans a b a).
Qed.

(** The head of the sorted list is the first of the elements with the
    greatest key. *)
Lemma sorted_reverse_head l x rest :
  sorted_reverse key ltb l = x :: rest -> exists i, first_max key ltb l i x.
Proof.
  revert x rest. induction l as [|a l IH]; intros x rest Hs; [done|].
  simpl in Hs. destruct (sorted_reverse key ltb l) as [|h t] eqn:Hl.
  - apply sorted_reverse_nil in Hl as ->. simpl in Hs. injection Hs as -> _.
    exists 0%nat. split_and!; [done| |intros j y Hj; lia].
    intros y Hy. apply list_elem_of_singleton in Hy as ->. apply ltb_irrefl.
  - destruct (IH h t eq_refl) as (i & Hi & Hmax & Hbefore).
    simpl in Hs. destruct (ltb (key a) (key h)) eqn:Hah.
    + injection Hs as -> _. exists (S i). split_and!; [done| |].
      * intros y Hy. apply elem_of_cons in Hy as [->|Hy]; [|by apply Hmax].
        by apply ltb_asym.
      * intros [|j] y Hj Hy; simpl in Hy; [congruence|].
        apply (Hbefore j); [lia|done].
    + injection Hs as -> _. exists 0%nat. split_and!; [done| |intros j y Hj; lia].
      intros y Hy. apply elem_of_cons in Hy as [->|Hy]; [apply ltb_irrefl|].
      eapply ltb_negtrans; [exact Hah | by apply Hmax].
Qed.

(** The sorted list is in descending order of the keys. *)
Lemma insert_reverse_sorted x l :
  StronglySorted (fun a b => ltb (key a) (key b) = false) l ->
  StronglySorted (fun a b => ltb (key a) (key b) = false) (insert_reverse key ltb x l).
Proof.
  induction 1 as [|y l Hl IH Hy]; simpl.
  - repeat constructor.
  - destruct (ltb (key x) (key y)) eqn:Hxy.
    + constructor; [done|].
      rewrite insert_reverse_perm. constructor; [by apply ltb_asym | done].
    + constructor; [by constructor|].
      constructor; [done|].
      eapply Forall_impl; [exact Hy|]. intros z Hz. simpl in Hz.
      eapply ltb_negtrans; eauto.
Qed.

Lemma sorted_reverse_sorted l :
  StronglySorted (fun a b => ltb (key a) (key b) = false) (sorted_reverse key ltb l).
Proof.
  induction l as [|x l IH]; simpl; [constructor|].
  by apply insert_reverse_sorted.
Qed.
End sorted_reverse_facts.

(** ** The representative sequence *)

Lemma first_max_fmap {A B K} (f : A -> B) (key : B -> K) (ltb : K -> K -> bool)
    (l : list A) (i : nat) (y : B) :
  first_max key ltb (f <$> l) i y ->
  exists x, y = f x /\ first_max (fun a => key (f a)) ltb l i x.
Proof.
  intros (Hi & Hmax & Hbefore).
  rewrite list_lookup_fmap in Hi.
  destruct (l !! i) as [x|] eqn:Hx; [|done]. injection Hi as <-.
  exists x. split; [done|]. split_and!; [done| |].
  - intros a Ha. apply Hmax. apply list_elem_of_fmap. eauto.
  - intros j a Hj Ha. apply (Hbefore j); [done|].
    by rewrite list_lookup_fmap, Ha.
Qed.

Lemma u_rank_ok (uniprot : list (string * UniprotEntry)) k u :
  od_get k uniprot = Some u -> rankable u ->
  u_rank uniprot k = Ok (k, uniprot_score u).
Proof.
  intros Hget [[r Hr] [ps Hps]]. unfold u_rank, uniprot_score.
  rewrite Hget. simpl. rewrite Hr, Hps. reflexivity.
Qed.

Lemma u_ranker_ok_on (uniprot l : list (string * UniprotEntry)) :
  (forall i kv, l !! i = Some kv ->
     od_get kv.1 uniprot = Some kv.2 /\ rankable kv.2) ->
  res_mapM (u_rank uniprot) l.*1 =
  Ok ((fun kv => (kv.1, uniprot_score kv.2)) <$> l).
Proof.
  induction l as [|[k u] l IH]; intros Hall; [done|].
  destruct (Hall 0%nat (k, u) eq_refl) as [Hget Hr].
  rewrite !fmap_cons. cbn [res_mapM fst snd] in *.
  rewrite (u_rank_ok _ _ _ Hget Hr). cbn [res_bind].
  rewrite IH; [done|]. intros i kv Hi. apply (Hall (S i)). done.
Qed.

Lemma u_ranker_ok (uniprot : list (string * UniprotEntry)) :
  od_wf uniprot ->
  Forall (fun kv => rankable kv.2) uniprot ->
  res_mapM (u_rank uniprot) (od_keys uniprot) =
  Ok ((fun kv => (kv.1, uniprot_score kv.2)) <$> uniprot).
Proof.
  intros Hwf Hrank. apply u_ranker_ok_on.
  intros i [k u] Hi. split; [by eapply od_get_lookup|].
  eapply (proj1 (Forall_lookup _ _) Hrank); eauto.
Qed.

Lemma best_uniprot_first_max (uniprot : list (string * UniprotEntry)) :
  od_wf uniprot ->
  Forall (fun kv => rankable kv.2) uniprot ->
  uniprot <> [] ->
  exists i k u,
    first_max (fun kv => uniprot_score kv.2) Z.ltb uniprot i (k, u) /\
    best_uniprot uniprot = Ok k /\
    od_get k uniprot = Some u.
Proof.
  intros Hwf Hrank Hne. unfold best_uniprot.
  rewrite u_ranker_ok by done. simpl.
  destruct (sorted_reverse snd Z.ltb _) as [|tup rest] eqn:Hs.
  { apply sorted_reverse_nil in Hs. apply fmap_nil_inv in Hs. done. }
  apply sorted_reverse_head in Hs as [i Hfm].
  - apply first_max_fmap in Hfm as ([k u] & -> & Hfm). simpl in *.
    exists i, k, u. split_and!; [done|done|].
    destruct Hfm as (Hi & _). by eapply od_get_lookup.
  - apply Z.ltb_irrefl.
  - intros a b c. rewrite !Z.ltb_lt. lia.
  - intros a b c. rewrite !Z.ltb_ge. lia.
Qed.

Lemma set_from_uniprot_first_max (row_needs_kegg_id : bool) (seq_prop : SequenceProp.t) :
  od_wf (SequenceProp.uniprot seq_prop) ->
  Forall (fun kv => rankable kv.2) (SequenceProp.uniprot seq_prop) ->
  SequenceProp.uniprot seq_prop <> [] ->
  exists i k u,
    first_max (fun kv => uniprot_score kv.2) Z.ltb (SequenceProp.uniprot seq_prop) i (k, u) /\
    set_from_uniprot row_needs_kegg_id seq_prop =
    (SequenceProp.set_representative
       (update_for_saving (SequenceProp.representative seq_prop) u) seq_prop,
     if row_needs_kegg_id && negb (bool_decide (is_Some (u_kegg_id u)))
     then Raise KeyError else Ok tt).
Proof.
  intros Hwf Hrank Hne.
  destruct (best_uniprot_first_max _ Hwf Hrank Hne) as (i & k & u & Hfm & Hbest & Hget).
  exists i, k, u. split; [done|].
  unfold set_from_uniprot. munfold. rewrite Hbest, Hget.
  by destruct (row_needs_kegg_id && _).
Qed.

Lemma update_for_saving_idemp rep u :
  update_for_saving (update_for_saving rep u) u = update_for_saving rep u.
Proof.
  unfold update_for_saving. simpl.
  destruct u as [r p k a n f m]; simpl.
  destruct k, a, n, p, f, m; reflexivity.
Qed.

Lemma set_from_uniprot_unfold b seq_prop :
  set_from_uniprot b seq_prop =
  match best_uniprot (SequenceProp.uniprot seq_prop) with
  | Raise e => (seq_prop, Raise e)
  | Ok best_u =>
      match od_get best_u (SequenceProp.uniprot seq_prop) with
      | None => (seq_prop, Raise KeyError)
      | Some u =>
          (SequenceProp.set_representative
             (update_for_saving (SequenceProp.representative seq_prop) u) seq_prop,
           if b && negb (bool_decide (is_Some (u_kegg_id u)))
           then Raise KeyError else Ok tt)
      end
  end.
Proof.
  unfold set_from_uniprot. munfold.
  destruct (best_uniprot _) as [k|e]; [|done].
  destruct (od_get k _) as [u|]; [|done].
  by destruct (b && _).
Qed.

Lemma set_representative_sequence_gene_set seq_prop :
  already_set seq_prop = true ->
  set_representative_sequence_gene seq_prop = (seq_prop, Ok tt).
Proof.
  intros Hset. unfold set_representative_sequence_gene. munfold.
  by rewrite Hset.
Qed.

(** On a gene that is not finalized the resolver leaves the annotation as it
    is, or copies the KEGG record, whose length is positive, or updates the
    representative from a UniProt entry; which of these it does, with which
    entry and with which result, depends on the [kegg] and [uniprot] slots
    only. *)
Lemma set_representative_sequence_gene_shape kg un :
  (exists r, forall rp, (0 <? seq_len rp)%Z = false ->
     set_representative_sequence_gene (SequenceProp.mk kg un rp)
     = (SequenceProp.mk kg un rp, r)) \/
  ((0 <? seq_len kg)%Z = true /\
   forall rp, (0 <? seq_len rp)%Z = false ->
     set_representative_sequence_gene (SequenceProp.mk kg un rp)
     = (SequenceProp.mk kg un kg, Ok tt)) \/
  (exists u r, forall rp, (0 <? seq_len rp)%Z = false ->
     set_representative_sequence_gene (SequenceProp.mk kg un rp)
     = (SequenceProp.mk kg un (update_for_saving rp u), r)).
Proof.
  assert (Huni : forall b,
    (exists r, forall rp, set_from_uniprot b (SequenceProp.mk kg un rp)
                          = (SequenceProp.mk kg un rp, r)) \/
    (exists u r, forall rp, set_from_uniprot b (SequenceProp.mk kg un rp)
                          = (SequenceProp.mk kg un (update_for_saving rp u), r))).
  { intros b. destruct (best_uniprot un) as [k|e] eqn:Hb.
    - destruct (od_get k un) as [u|] eqn:Hg.
      + right. eexists u, _. intros rp. rewrite set_from_uniprot_unfold. cbn.
        rewrite Hb, Hg. reflexivity.
      + left. eexists. intros rp. rewrite set_from_uniprot_unfold. cbn.
        rewrite Hb, Hg. reflexivity.
    - left. eexists. intros rp. rewrite set_from_uniprot_unfold. cbn.
      rewrite Hb. reflexivity. }
  unfold set_representative_sequence_gene, already_set, set_from_kegg. munfold.
  cbn [SequenceProp.kegg SequenceProp.uniprot SequenceProp.representative].
  destruct ((0 <? seq_len kg)%Z && (length un =? 0)%nat) eqn:H2.
  { right. left. apply andb_true_iff in H2 as [Hkg _]. split; [done|].
    intros rp ->. reflexivity. }
  destruct ((seq_len kg =? 0)%Z && (0 <? length un)%nat) eqn:H3.
  { destruct (Huni true) as [[r Hr]|(u & r & Hr)].
    - left. exists r. intros rp ->. apply Hr.
    - right. right. exists u, r. intros rp ->. apply Hr. }
  destruct ((0 <? seq_len kg)%Z && (0 <? length un)%nat) eqn:H4.
  { destruct ((0 <? length (pdbs kg))%nat && acc_not_in_keys (uniprot_acc kg) un).
    - right. left. apply andb_true_iff in H4 as [Hkg _]. split; [done|].
      intros rp ->. reflexivity.
    - destruct (Huni false) as [[r Hr]|(u & r & Hr)].
      + left. exists r. intros rp ->. apply Hr.
      + right. right. exists u, r. intros rp ->. apply Hr. }
  left. exists (Ok tt). intros rp ->. reflexivity.
Qed.

(** Running the resolver on a gene a second time changes nothing. *)
Lemma set_representative_sequence_gene_twice seq_prop seq_prop1 r :
  set_representative_sequence_gene seq_prop = (seq_prop1, r) ->
  (set_representative_sequence_gene seq_prop1).1 = seq_prop1 /\
  (r = Ok tt -> set_representative_sequence_gene seq_prop1 = (seq_prop1, Ok tt)).
Proof.
  destruct seq_prop as [kg un rp]. intros Hstep.
  destruct (0 <? seq_len rp)%Z eqn:Hrp.
  { rewrite set_representative_sequence_gene_set in Hstep by done.
    injection Hstep as <- <-.
    rewrite set_representative_sequence_gene_set by done. done. }
  destruct (set_representative_sequence_gene_shape kg un)
    as [[r' Hsh]|[[Hkg Hsh]|(u & r' & Hsh)]].
  - rewrite Hsh in Hstep by done. injection Hstep as <- <-.
    rewrite Hsh by done. split; [done|]. by intros ->.
  - rewrite Hsh in Hstep by done. injection Hstep as <- <-.
    rewrite set_representative_sequence_gene_set by done. done.
  - rewrite Hsh in Hstep by done. injection Hstep as <- <-.
    destruct (0 <? seq_len (update_for_saving rp u))%Z eqn:Hrp'.
    + rewrite set_representative_sequence_gene_set by done. done.
    + rewrite Hsh by done. rewrite update_for_saving_idemp.
      split; [done|]. by intros ->.
Qed.

(** ** The loop over the genes *)

Lemma for_genes_from_fixed {F} (body : M (Gene * F) unit) genes (f : F) i g :
  genes !! i = Some g ->
  (forall f', (body (g, f')).1.1 = g) ->
  (for_genes_from body genes f).1.1 !! i = Some g.
Proof.
  intros Hi Hfix. revert f i Hi.
  induction genes as [|g0 genes IH]; intros f i Hi; [done|].
  simpl. destruct (body (g0, f)) as [[g0' f'] [[]|e]] eqn:Hb.
  - specialize (IH f'). destruct (for_genes_from body genes f') as [[genes' f''] r].
    destruct i as [|i]; simpl in *.
    + injection Hi as ->. specialize (Hfix f). rewrite Hb in Hfix. simpl in Hfix. by subst.
    + by apply IH.
  - destruct i as [|i]; simpl in *; [|done].
    injection Hi as ->. specialize (Hfix f). rewrite Hb in Hfix. simpl in Hfix. by subst.
Qed.

(** The steps of the genes are run one after the other, each from the state
    that the genes before it have left, as long as none raises. *)
Lemma for_genes_from_app {F} (body : M (Gene * F) unit) (genes1 genes2 : list Gene) (f : F) :
  for_genes_from body (genes1 ++ genes2) f =
  match for_genes_from body genes1 f with
  | ((genes1', f'), Ok _) =>
      let '((genes2', f''), r) := for_genes_from body genes2 f' in
      ((genes1' ++ genes2', f''), r)
  | ((genes1', f'), Raise e) => ((genes1' ++ genes2, f'), Raise e)
  end.
Proof.
  revert f. induction genes1 as [|g genes1 IH]; intros f; cbn [app for_genes_from].
  - by destruct (for_genes_from body genes2 f) as [[? ?] ?].
  - destruct (body (g, f)) as [[g' f'] [[]|e]]; [|done].
    rewrite IH. destruct (for_genes_from body genes1 f') as [[genes1' f''] [[]|e]]; [|done].
    by destruct (for_genes_from body genes2 f'') as [[? ?] ?].
Qed.

Lemma set_sequence_sequence g : set_sequence (sequence g) g = g.
Proof. by destruct g. Qed.

Lemma on_sequence_gene_eq g (f : unit) :
  on_gene (on_sequence set_representative_sequence_gene) (g, f) =
  ((set_sequence (set_representative_sequence_gene (sequence g)).1 g, f),
   (set_representative_sequence_gene (sequence g)).2).
Proof.
  unfold on_gene, on_sequence, zoom. simpl.
  by destruct (set_representative_sequence_gene (sequence g)).
Qed.

Lemma set_representative_sequence_fst genes :
  (set_representative_sequence genes).1 =
  (for_genes_from (on_gene (on_sequence set_representative_sequence_gene)) genes tt).1.1.
Proof.
  unfold set_representative_sequence, for_genes. simpl.
  by destruct (for_genes_from _ genes tt) as [[? ?] ?].
Qed.

(** A second run after a run that went through all the genes does nothing. *)
Lemma set_representative_sequence_twice genes genes1 :
  set_representative_sequence genes = (genes1, Ok tt) ->
  set_representative_sequence genes1 = (genes1, Ok tt).
Proof.
  unfold set_representative_sequence, for_genes. simpl.
  revert genes1. induction genes as [|g genes IH]; intros genes1; simpl.
  - by intros [= <-].
  - rewrite on_sequence_gene_eq.
    destruct (set_representative_sequence_gene (sequence g)) as [sp1 r] eqn:Hstep.
    simpl. destruct r as [[]|e].
    + destruct (for_genes_from _ genes tt) as [[genes' []] r'] eqn:Hrest.
      intros [= <- ->]. simpl. rewrite on_sequence_gene_eq. simpl.
      destruct (set_representative_sequence_gene_twice _ _ _ Hstep) as [_ Hok].
      rewrite (Hok eq_refl). simpl.
      specialize (IH genes' eq_refl).
      destruct (for_genes_from _ genes' tt) as [[genes'' []] r''].
      injection IH as -> ->. by destruct g.
    + by intros [= _ ?].
Qed.

(** ** Claims on the representative sequence *)

(** A manual sequence that is not empty finalizes the gene, whether or not
    its file can be written. *)
Lemma manual_seq_mapping_gene_finalized E P (s : string) (g : Gene) (tr : list event) :
  s <> EmptyString ->
  let g1 := (manual_seq_mapping_gene E P s (g, tr)).1.1 in
  seq_len (SequenceProp.representative (sequence g1)) = Z.of_nat (String.length s) /\
  already_set (sequence g1) = true.
Proof.
  intros Hs.
  assert (Hlen : (0 <? Z.of_nat (String.length s))%Z = true).
  { apply Z.ltb_lt. destruct s; [done|]. cbn [String.length]. lia. }
  unfold manual_seq_mapping_gene, update_seq_representative, already_set.
  munfold. cbn [fst snd].
  destruct (write_fasta_file E _ _ _); cbn; by rewrite ?Hlen.
Qed.

(** C2. A gene whose representative sequence is finalized ([seq_len > 0],
    however it was set) is left exactly as it is by
    [set_representative_sequence], also when the method is called twice in
    succession; on every gene a second run of the resolver leaves the
    annotation that the first run produced; and a gene that has been given a
    manual sequence, not empty, is finalized: the resolver does not touch
    it. *)
Theorem set_representative_sequence_finalized (genes : list Gene) (i : nat) (g : Gene) :
  genes !! i = Some g ->
  (0 < seq_len (SequenceProp.representative (sequence g)))%Z ->
  (set_representative_sequence genes).1 !! i = Some g /\
  (set_representative_sequence (set_representative_sequence genes).1).1 !! i = Some g /\
  (forall seq_prop,
     (set_representative_sequence_gene (set_representative_sequence_gene seq_prop).1).1
     = (set_representative_sequence_gene seq_prop).1) /\
  (forall E P s g0 tr,
     s <> EmptyString ->
     let g1 := (manual_seq_mapping_gene E P s (g0, tr)).1.1 in
     set_representative_sequence_gene (sequence g1) = (sequence g1, Ok tt)).
Proof.
  intros Hi Hlen.
  assert (Hfix : forall f' : unit,
            (on_gene (on_sequence set_representative_sequence_gene) (g, f')).1.1 = g).
  { intros f'. rewrite on_sequence_gene_eq. simpl.
    rewrite set_representative_sequence_gene_set; [apply set_sequence_sequence|].
    unfold already_set. by apply Z.ltb_lt. }
  assert (Hone : forall genes', genes' !! i = Some g ->
                   (set_representative_sequence genes').1 !! i = Some g).
  { intros genes' Hi'. rewrite set_representative_sequence_fst.
    by apply for_genes_from_fixed. }
  split_and!; [by apply Hone | by apply Hone, Hone | |].
  - intros seq_prop.
    destruct (set_representative_sequence_gene seq_prop) as [sp1 r] eqn:Hstep.
    by destruct (set_representative_sequence_gene_twice _ _ _ Hstep).
  - intros E P s g0 tr Hs g1. apply set_representative_sequence_gene_set.
    by apply manual_seq_mapping_gene_finalized.
Qed.

Lemma set_representative_sequence_finalized_witness :
  (set_representative_sequence [new_gene "b0002"; example_gene_finalized]).1 !! 1%nat
  = Some example_gene_finalized.
Proof.
  apply (set_representative_sequence_finalized
           [new_gene "b0002"; example_gene_finalized] 1 example_gene_finalized);
    [reflexivity | reflexivity].
Defined.

(** What [representative.update(for_saving)] writes. *)
Lemma update_for_saving_set_from_entry (rep : SeqRecord) (u : UniprotEntry) :
  set_from_entry rep u (update_for_saving rep u).
Proof.
  unfold set_from_entry, update_for_saving. cbn.
  split_and!; intros; simplify_eq/=; try done;
    match goal with H : _ = _ |- _ => by rewrite H end.
Qed.

(** A representative set from an entry that has the six keys. *)
Lemma set_from_entry_full (rep rep' : SeqRecord) (u : UniprotEntry) a l n ps f m :
  set_from_entry rep u rep' ->
  u_uniprot_acc u = Some a -> u_kegg_id u = Some l -> u_seq_len u = Some n ->
  u_pdbs u = Some ps -> u_seq_file u = Some f -> u_metadata_file u = Some m ->
  rep' = {| uniprot_acc := Some a; kegg_id := KList l; seq_len := n; pdbs := ps;
            seq_file := Some f; metadata_file := Some m |}.
Proof.
  intros (Ha & _ & Hl & _ & Hn & _ & Hps & _ & Hf & _ & Hm & _) Hua Hul Hun Hups Huf Hum.
  destruct rep'. cbn in *.
  by rewrite (Ha _ Hua), (Hl _ Hul), (Hn _ Hun), (Hps _ Hups), (Hf _ Huf), (Hm _ Hum).
Qed.

(** C4. With no KEGG annotation, at least one UniProt entry and no finalized
    representative, the resolver sets the representative from the entry
    with the greatest score [reviewed + len(pdbs)]; among the entries with
    that score the first in the iteration order of the mapping wins, and that
    entry is determined by the mapping alone. The representative afterwards
    holds, under each of the six keys that the entry has, the value of the
    entry, and under the others what it held before; the KEGG record and the
    UniProt mapping are as they were. *)
Theorem set_representative_sequence_uniprot_only (seq_prop : SequenceProp.t) :
  already_set seq_prop = false ->
  seq_len (SequenceProp.kegg seq_prop) = 0%Z ->
  SequenceProp.uniprot seq_prop <> [] ->
  od_wf (SequenceProp.uniprot seq_prop) ->
  Forall (fun kv => rankable kv.2) (SequenceProp.uniprot seq_prop) ->
  exists i k u,
    first_max (fun kv => uniprot_score kv.2) Z.ltb (SequenceProp.uniprot seq_prop) i (k, u) /\
    (forall j kv,
       first_max (fun kv => uniprot_score kv.2) Z.ltb (SequenceProp.uniprot seq_prop) j kv ->
       j = i /\ kv = (k, u)) /\
    (set_representative_sequence_gene seq_prop).1 =
    SequenceProp.set_representative
      (update_for_saving (SequenceProp.representative seq_prop) u) seq_prop /\
    set_from_entry (SequenceProp.representative seq_prop) u
      (SequenceProp.representative (set_representative_sequence_gene seq_prop).1) /\
    SequenceProp.kegg (set_representative_sequence_gene seq_prop).1
    = SequenceProp.kegg seq_prop /\
    SequenceProp.uniprot (set_representative_sequence_gene seq_prop).1
    = SequenceProp.uniprot seq_prop.
Proof.
  intros Hset Hkegg Hne Hwf Hrank.
  destruct (set_from_uniprot_first_max true seq_prop Hwf Hrank Hne)
    as (i & k & u & Hfm & Hstep).
  assert (Heq : (set_representative_sequence_gene seq_prop).1 =
                SequenceProp.set_representative
                  (update_for_saving (SequenceProp.representative seq_prop) u) seq_prop).
  { unfold set_representative_sequence_gene. munfold. rewrite Hset, Hkegg. simpl.
    destruct (SequenceProp.uniprot seq_prop) as [|? ?] eqn:Hu; [done|]. simpl.
    by rewrite Hstep. }
  exists i, k, u. split_and!; [done| |done| | |].
  - intros j kv Hj. eapply first_max_unique; eauto.
  - rewrite Heq. apply update_for_saving_set_from_entry.
  - by rewrite Heq.
  - by rewrite Heq.
Qed.

Lemma example_uniprot_wf : od_wf example_uniprot.
Proof. apply (bool_decide_unpack (od_wf example_uniprot)). vm_compute. exact I. Defined.

Lemma example_uniprot_rankable : Forall (fun kv => rankable kv.2) example_uniprot.
Proof. repeat constructor; simpl; eauto. Defined.

(** The winner of the example mapping: the second entry. The first has a
    smaller score, the third has the same score and comes later. *)
Lemma example_uniprot_first_max :
  first_max (fun kv => uniprot_score kv.2) Z.ltb example_uniprot 1
    ("P00001",
     {| u_reviewed := Some true; u_pdbs := Some ["1abc"]; u_kegg_id := Some ["eco:b0001"];
        u_uniprot_acc := Some "P00001"; u_seq_len := Some 300%Z;
        u_seq_file := Some "P00001.fasta"; u_metadata_file := Some "P00001.txt" |}).
Proof.
  split_and!; [reflexivity| |].
  - intros y Hy. unfold example_uniprot in Hy.
    repeat (apply elem_of_cons in Hy as [->|Hy]; [reflexivity|]).
    by apply elem_of_nil in Hy.
  - intros j y Hj Hy. destruct j as [|j]; [|lia].
    injection Hy as <-. reflexivity.
Qed.

Lemma set_representative_sequence_uniprot_only_witness :
  SequenceProp.representative (set_representative_sequence_gene example_uniprot_only).1
  = {| uniprot_acc := Some "P00001"; kegg_id := KList ["eco:b0001"]; seq_len := 300;
       pdbs := ["1abc"]; seq_file := Some "P00001.fasta";
       metadata_file := Some "P00001.txt" |}.
Proof.
  destruct (set_representative_sequence_uniprot_only example_uniprot_only)
    as (i & k & u & _ & Huniq & _ & Hfrom & _);
    [reflexivity | reflexivity | discriminate
    | exact example_uniprot_wf | exact example_uniprot_rankable |].
  destruct (Huniq _ _ example_uniprot_first_max) as [_ Hku].
  injection Hku as <- <-.
  exact (set_from_entry_full _ _ _ _ _ _ _ _ _ Hfrom
           eq_refl eq_refl eq_refl eq_refl eq_refl eq_refl).
Defined.

(** The winner of the example: the second entry, not the first one with the
    same score that comes later. *)
Example set_representative_sequence_uniprot_only_example :
  set_representative_sequence_gene example_uniprot_only =
  ({| SequenceProp.kegg := empty_seq_record;
      SequenceProp.uniprot := example_uniprot;
      SequenceProp.representative :=
        {| uniprot_acc := Some "P00001"; kegg_id := KList ["eco:b0001"];
           seq_len := 300; pdbs := ["1abc"]; seq_file := Some "P00001.fasta";
           metadata_file := Some "P00001.txt" |} |}, Ok tt).
Proof. reflexivity. Qed.

(** C3. With a KEGG annotation, at least one UniProt entry and no finalized
    representative: if the KEGG record has at least one PDB and its UniProt
    accession is no key of the [uniprot] mapping, the representative becomes
    the KEGG record; otherwise it is set from the top entry of the ranking of
    the UniProt-only case, which the mapping determines: the representative
    afterwards holds, under each of the six keys that the entry has, the
    value of the entry, and under the others what it held before. *)
Theorem set_representative_sequence_kegg_and_uniprot (seq_prop : SequenceProp.t) :
  already_set seq_prop = false ->
  (0 < seq_len (SequenceProp.kegg seq_prop))%Z ->
  SequenceProp.uniprot seq_prop <> [] ->
  od_wf (SequenceProp.uniprot seq_prop) ->
  let kegg_prop := SequenceProp.kegg seq_prop in
  let kegg_wins :=
    pdbs kegg_prop <> [] /\
    (forall a, uniprot_acc kegg_prop = Some a -> a ∉ od_keys (SequenceProp.uniprot seq_prop)) in
  (kegg_wins ->
   set_representative_sequence_gene seq_prop =
   (SequenceProp.set_representative kegg_prop seq_prop, Ok tt)) /\
  (~ kegg_wins ->
   Forall (fun kv => rankable kv.2) (SequenceProp.uniprot seq_prop) ->
   exists i k u,
     first_max (fun kv => uniprot_score kv.2) Z.ltb (SequenceProp.uniprot seq_prop) i (k, u) /\
     (forall j kv,
        first_max (fun kv => uniprot_score kv.2) Z.ltb (SequenceProp.uniprot seq_prop) j kv ->
        j = i /\ kv = (k, u)) /\
     set_representative_sequence_gene seq_prop =
     (SequenceProp.set_representative
        (update_for_saving (SequenceProp.representative seq_prop) u) seq_prop, Ok tt) /\
     set_from_entry (SequenceProp.representative seq_prop) u
       (SequenceProp.representative (set_representative_sequence_gene seq_prop).1) /\
     SequenceProp.kegg (set_representative_sequence_gene seq_prop).1 = kegg_prop /\
     SequenceProp.uniprot (set_representative_sequence_gene seq_prop).1
     = SequenceProp.uniprot seq_prop).
Proof.
  intros Hset Hkegg Hne Hwf kegg_prop kegg_wins. subst kegg_prop.
  set (kg := SequenceProp.kegg seq_prop) in *.
  set (un := SequenceProp.uniprot seq_prop) in *.
  assert (Hcond :
    (0 <? length (pdbs kg))%nat && acc_not_in_keys (uniprot_acc kg) un = true
    <-> kegg_wins).
  { unfold kegg_wins. rewrite andb_true_iff.
    assert (Hp : (0 <? length (pdbs kg))%nat = true <-> pdbs kg <> []).
    { rewrite Nat.ltb_lt. destruct (pdbs kg); simpl; split; (done || lia). }
    assert (Ha : acc_not_in_keys (uniprot_acc kg) un = true
                 <-> (forall a, uniprot_acc kg = Some a -> a ∉ od_keys un)).
    { unfold acc_not_in_keys. destruct (uniprot_acc kg) as [a|].
      - rewrite negb_true_iff, od_mem_false. split; [by intros ? ? [= <-] | eauto].
      - split; [done | done]. }
    tauto. }
  assert (Hstep : set_representative_sequence_gene seq_prop =
    if (0 <? length (pdbs kg))%nat && acc_not_in_keys (uniprot_acc kg) un
    then set_from_kegg seq_prop else set_from_uniprot false seq_prop).
  { unfold set_representative_sequence_gene. munfold. rewrite Hset.
    fold kg un. apply Z.ltb_lt in Hkegg as Hk. rewrite Hk.
    replace (seq_len kg =? 0)%Z with false by (symmetry; apply Z.eqb_neq; lia).
    destruct un as [|? ?] eqn:Hu; [done|]. simpl.
    by destruct (_ && _). }
  rewrite Hstep. split.
  - intros Hwins. apply Hcond in Hwins. rewrite Hwins. reflexivity.
  - intros Hnot Hrank.
    destruct (_ && _) eqn:Hc; [exfalso; apply Hnot, Hcond; done|].
    destruct (set_from_uniprot_first_max false seq_prop Hwf Hrank Hne)
      as (i & k & u & Hfm & Hrun).
    exists i, k, u. rewrite Hrun. cbn [fst andb]. split_and!; try done.
    + intros j kv Hj. eapply first_max_unique; eauto.
    + apply update_for_saving_set_from_entry.
Qed.

Lemma set_representative_sequence_kegg_and_uniprot_witness :
  set_representative_sequence_gene (example_kegg_and_uniprot "Q99999") =
  (SequenceProp.set_representative
     (SequenceProp.kegg (example_kegg_and_uniprot "Q99999"))
     (example_kegg_and_uniprot "Q99999"), Ok tt)
  /\
  SequenceProp.representative
    (set_representative_sequence_gene (example_kegg_and_uniprot "P00001")).1
  = {| uniprot_acc := Some "P00001"; kegg_id := KList ["eco:b0001"]; seq_len := 300;
       pdbs := ["1abc"]; seq_file := Some "P00001.fasta";
       metadata_file := Some "P00001.txt" |}.
Proof.
  split.
  - apply (set_representative_sequence_kegg_and_uniprot (example_kegg_and_uniprot "Q99999"));
      [reflexivity | reflexivity | discriminate | exact example_uniprot_wf |].
    split; [discriminate|]. intros a [= <-].
    apply (bool_decide_unpack _). vm_compute. exact I.
  - destruct (set_representative_sequence_kegg_and_uniprot
                (example_kegg_and_uniprot "P00001")) as [_ Hrank];
      [reflexivity | reflexivity | discriminate | exact example_uniprot_wf |].
    destruct Hrank as (i & k & u & _ & Huniq & _ & Hfrom & _);
      [|exact example_uniprot_rankable|].
    { intros [_ Hnot]. apply (Hnot "P00001" eq_refl).
      apply (bool_decide_unpack _). vm_compute. exact I. }
    destruct (Huniq _ _ example_uniprot_first_max) as [_ Hku].
    injection Hku as <- <-.
    exact (set_from_entry_full _ _ _ _ _ _ _ _ _ Hfrom
             eq_refl eq_refl eq_refl eq_refl eq_refl eq_refl).
Defined.

(** ** The gene constructors *)

Lemma list_set_NoDup genes_list : NoDup (list_set genes_list).
Proof. unfold list_set. apply NoDup_elements. Qed.

Lemma list_set_elem genes_list x : x ∈ list_set genes_list <-> x ∈ genes_list.
Proof. unfold list_set. rewrite elem_of_elements, elem_of_list_to_set. done. Qed.

Lemma dictlist_union_spec genes new_genes :
  NoDup (gene_id <$> genes) ->
  exists added,
    dictlist_union genes new_genes = genes ++ added /\
    NoDup (gene_id <$> genes ++ added) /\
    (forall g, g ∈ added -> g ∈ new_genes) /\
    (forall x, x ∈ gene_id <$> genes ++ added <->
               x ∈ gene_id <$> genes \/ x ∈ gene_id <$> new_genes).
Proof.
  unfold dictlist_union. revert genes.
  induction new_genes as [|g new_genes IH]; intros genes Hnd; cbn [foldl].
  - exists []. rewrite app_nil_r. split_and!; [done|done|done|].
    intros x. rewrite fmap_nil, elem_of_nil. tauto.
  - case_bool_decide as Hin.
    + destruct (IH genes Hnd) as (added & Heq & Hnd' & Hsub & Hids).
      exists added. split_and!; [done|done| |].
      * intros g' Hg'. right. by apply Hsub.
      * intros x. rewrite Hids, fmap_cons, elem_of_cons.
        split; [tauto|]. intros [?|[->|?]]; auto.
    + assert (Hnd1 : NoDup (gene_id <$> genes ++ [g])).
      { rewrite fmap_app. apply NoDup_app. split_and!; [done| |apply NoDup_singleton].
        intros x Hx Hx'. apply list_elem_of_singleton in Hx' as ->. done. }
      destruct (IH (genes ++ [g]) Hnd1) as (added & Heq & Hnd' & Hsub & Hids).
      exists (g :: added). rewrite Heq, <- app_assoc.
      rewrite <- app_assoc in Hnd', Hids.
      split_and!; [done|done| |].
      * intros g' Hg'. apply elem_of_cons in Hg' as [->|Hg']; [left | right; auto].
      * intros x. rewrite Hids, fmap_app, elem_of_app, !fmap_cons, fmap_nil.
        rewrite !elem_of_cons, elem_of_nil. tauto.
Qed.

(** What a gene made by the constructors looks like, and what the two
    resolvers do with it. *)
Lemma new_gene_fresh x :
  let g := new_gene x in
  SequenceProp.uniprot (sequence g) = [] /\
  seq_len (SequenceProp.representative (sequence g)) = 0%Z /\
  pdbs (SequenceProp.representative (sequence g)) = [] /\
  StructureProp.pdb (structure g) = [] /\
  structure_id (StructureProp.representative (structure g)) = SidNone /\
  already_set (sequence g) = false /\
  set_representative_sequence_gene (sequence g) = (sequence g, Ok tt) /\
  (forall E P always_use_homology sort_homology_by qc force_rerun locals,
     set_representative_structure_gene E P always_use_homology sort_homology_by qc
       force_rerun (g, locals) = ((g, locals), Ok tt)).
Proof. simpl. split_and!; reflexivity || (intros; reflexivity). Qed.

(** C10. The [genes] setter and [add_genes_by_id], given identifiers, make
    one gene for each distinct identifier; every gene they make has the
    default annotation (no UniProt entry, a representative sequence of length
    0 without PDBs, no PDB entry, no representative structure), on which the
    sequence resolver does not take the "already set" branch and the
    structure resolver finds nothing to use. *)
Theorem gene_constructors_fresh (genes : list Gene) (genes_list : list string) :
  NoDup (gene_id <$> genes) ->
  let set_genes := genes_setter (IdList genes_list) in
  let all_genes := add_genes_by_id genes genes_list in
  (NoDup (gene_id <$> set_genes) /\
   (forall x, x ∈ gene_id <$> set_genes <-> x ∈ genes_list) /\
   Forall (fun g => g = new_gene (gene_id g)) set_genes) /\
  (exists added,
     all_genes = genes ++ added /\
     NoDup (gene_id <$> all_genes) /\
     (forall x, x ∈ gene_id <$> all_genes <-> x ∈ gene_id <$> genes \/ x ∈ genes_list) /\
     Forall (fun g => g = new_gene (gene_id g)) added) /\
  (forall x,
     let g := new_gene x in
     SequenceProp.uniprot (sequence g) = [] /\
     seq_len (SequenceProp.representative (sequence g)) = 0%Z /\
     pdbs (SequenceProp.representative (sequence g)) = [] /\
     StructureProp.pdb (structure g) = [] /\
     structure_id (StructureProp.representative (structure g)) = SidNone /\
     already_set (sequence g) = false /\
     set_representative_sequence_gene (sequence g) = (sequence g, Ok tt) /\
     (forall E P always_use_homology sort_homology_by qc force_rerun locals,
        set_representative_structure_gene E P always_use_homology sort_homology_by qc
          force_rerun (g, locals) = ((g, locals), Ok tt))).
Proof.
  intros Hnd set_genes all_genes. split_and!.
  - unfold set_genes, genes_setter. rewrite <- list_fmap_compose.
    rewrite (list_fmap_ext _ id (list_set genes_list)) by done.
    rewrite list_fmap_id. apply list_set_NoDup.
  - intros x. unfold set_genes, genes_setter. rewrite <- list_fmap_compose.
    rewrite (list_fmap_ext _ id (list_set genes_list)) by done.
    rewrite list_fmap_id. apply list_set_elem.
  - unfold set_genes, genes_setter. apply Forall_fmap, Forall_true. done.
  - unfold all_genes, add_genes_by_id.
    destruct (dictlist_union_spec genes (new_gene <$> list_set genes_list) Hnd)
      as (added & Heq & Hnd' & Hsub & Hids).
    exists added. rewrite Heq. split_and!; [done|done| |].
    + intros x. rewrite Hids, <- list_fmap_compose.
      rewrite (list_fmap_ext _ id (list_set genes_list)) by done.
      rewrite list_fmap_id, list_set_elem. done.
    + apply Forall_forall. intros g Hg. apply Hsub in Hg.
      apply list_elem_of_fmap in Hg as (x & -> & _). done.
  - intros x. apply new_gene_fresh.
Qed.

Lemma gene_constructors_fresh_witness :
  exists added,
    add_genes_by_id [example_gene_finalized] ["b0001"; "b0002"; "b0002"]
    = [example_gene_finalized] ++ added /\
    Forall (fun g => g = new_gene (gene_id g)) added.
Proof.
  destruct (gene_constructors_fresh [example_gene_finalized] ["b0001"; "b0002"; "b0002"])
    as (_ & (added & Heq & _ & _ & Hnew) & _).
  - apply (bool_decide_unpack _). vm_compute. exact I.
  - exists added. split; [exact Heq | exact Hnew].
Defined.

Example add_genes_by_id_example :
  add_genes_by_id [example_gene_finalized] ["b0001"; "b0002"; "b0002"]
  = [example_gene_finalized; new_gene "b0002"].
Proof. vm_compute. reflexivity. Qed.

(** ** The structure ingestors *)

Abbreviation pdb_annotation := (list ((string * string) * gmap string value)).

Lemma Forall_fresh_keys (cur l : pdb_annotation) :
  (forall k, k ∈ od_keys l -> k ∉ od_keys cur) ->
  Forall (fun kv => kv.1 ∉ od_keys cur) l.
Proof.
  intros Hk. apply Forall_forall. intros [k v] Hin. apply Hk.
  unfold od_keys. apply list_elem_of_fmap. by exists (k, v).
Qed.

Lemma od_of_pairs_keys_incl {K V} `{EqDecision K} (new : list (K * V)) k :
  k ∈ od_keys (od_update [] new) -> k ∈ od_keys new.
Proof.
  intros Hk. apply od_update_keys_incl in Hk as [Hk|Hk]; [|done].
  unfold od_keys in Hk. rewrite fmap_nil in Hk. by apply elem_of_nil in Hk.
Qed.

(** The BLAST merge appends: what was there stays where it was. *)
Lemma merge_blast_app (current_annotation to_add_to_annotation : pdb_annotation) :
  exists added,
    merge_blast current_annotation to_add_to_annotation = current_annotation ++ added /\
    Forall (fun kv => kv.1 ∉ od_keys current_annotation) added.
Proof.
  unfold merge_blast. destruct current_annotation as [|kv0 cur].
  { exists (od_update [] to_add_to_annotation). split; [done|].
    apply Forall_fresh_keys. intros k _. apply not_elem_of_nil. }
  set (current := kv0 :: cur).
  set (to_add := od_of_pairs _).
  assert (Hfresh : forall k, k ∈ od_keys to_add -> k ∉ od_keys current).
  { intros k Hk. unfold to_add, od_of_pairs in Hk.
    apply od_of_pairs_keys_incl in Hk.
    unfold od_keys in Hk. apply list_elem_of_fmap in Hk as ([k' v'] & -> & Hin).
    apply list_elem_of_filter in Hin as [Hp _]. simpl in *.
    apply Is_true_true, negb_true_iff in Hp. by apply od_mem_false in Hp. }
  exists (od_update [] to_add). split.
  - rewrite <- (app_nil_r current) at 1.
    apply od_update_app_fresh. by apply Forall_fresh_keys.
  - apply Forall_fresh_keys. intros k Hk. by apply Hfresh, od_of_pairs_keys_incl.
Qed.

Lemma blast_seqs_to_pdb_gene_pdb E P seq_ident_cutoff evalue all_genes force_rerun
    display_link (s : Gene * list event) :
  let s' := (blast_seqs_to_pdb_gene E P seq_ident_cutoff evalue all_genes force_rerun
               display_link s).1 in
  exists added,
    StructureProp.pdb (structure s'.1) = StructureProp.pdb (structure s.1) ++ added /\
    Forall (fun kv => kv.1 ∉ od_keys (StructureProp.pdb (structure s.1))) added.
Proof.
  assert (Hsame : exists added : pdb_annotation,
    StructureProp.pdb (structure s.1) = StructureProp.pdb (structure s.1) ++ added /\
    Forall (fun kv => kv.1 ∉ od_keys (StructureProp.pdb (structure s.1))) added).
  { exists []. by rewrite app_nil_r. }
  unfold blast_seqs_to_pdb_gene. munfold. destruct s as [g tr]. cbn [fst snd] in *.
  repeat (case_match; simplify_eq/=; try exact Hsame).
  all: apply merge_blast_app.
Qed.

(** The ranked merge looks a key up among the new entries first. *)
Lemma merge_ranked_get (current_annotation to_add_to_annotation : pdb_annotation) k :
  od_wf current_annotation ->
  od_get k (merge_ranked current_annotation to_add_to_annotation) =
  match od_get k to_add_to_annotation with
  | Some v => Some v
  | None => od_get k current_annotation
  end.
Proof.
  intros Hwf. unfold merge_ranked.
  destruct current_annotation as [|kv0 cur] eqn:Hcur.
  { by destruct (od_get k to_add_to_annotation). }
  rewrite <- Hcur in *. clear Hcur kv0 cur.
  set (p := fun k' : string * string => negb (od_mem k' to_add_to_annotation)).
  change (filter _ current_annotation)
    with (filter (fun kv : (string * string) * gmap string value => p kv.1)
                 current_annotation).
  assert (Hfwf := filter_key_wf p _ Hwf).
  rewrite od_of_pairs_id by done.
  rewrite od_get_update, od_get_reverse, od_get_filter_key by done.
  unfold p. destruct (od_mem k to_add_to_annotation) eqn:Hmem; simpl.
  - apply od_mem_true, od_get_is_Some in Hmem as [v ->]. done.
  - apply od_mem_false, od_get_None in Hmem. rewrite Hmem.
    by destruct (od_get k current_annotation).
Qed.

Lemma ranked_to_add_get E uniprot_id best rank (acc to_add : pdb_annotation) k :
  ranked_to_add E uniprot_id best rank acc = Ok to_add ->
  (k ∉ ranked_key <$> best -> od_get k to_add = od_get k acc) /\
  (k ∈ ranked_key <$> best ->
   exists bs pdb_rel r,
     bs ∈ best /\ ranked_key bs = k /\ get_release_date E k.1 = Some pdb_rel /\
     od_get k to_add = Some (best_structure_dict uniprot_id bs pdb_rel r)).
Proof.
  revert rank acc. induction best as [|bs best IH]; intros rank acc; cbn [ranked_to_add].
  - intros [= <-]. split; [done|]. rewrite fmap_nil. by intros ?%elem_of_nil.
  - destruct (get_release_date E (lower (bs_pdb_id bs))) as [pdb_rel|] eqn:Hrel; [|done].
    intros Hrun. destruct (IH _ _ Hrun) as [Hout Hin]. rewrite fmap_cons.
    destruct (decide (k ∈ ranked_key <$> best)) as [Hk|Hk].
    + split; [intros Hn; exfalso; apply Hn; by right|].
      intros _. destruct (Hin Hk) as (bs' & rel' & r' & ? & ? & ? & ?).
      exists bs', rel', r'. split_and!; try done. by right.
    + split.
      * intros Hn. rewrite (Hout Hk), od_get_set.
        rewrite decide_False; [done|]. intros ->. apply Hn. left.
      * intros Hk'. apply elem_of_cons in Hk' as [->|?]; [|done].
        exists bs, pdb_rel, rank. split_and!; [left|done|done|].
        rewrite (Hout Hk), od_get_set. by rewrite decide_True.
Qed.

Lemma map_uniprot_to_pdb_gene_get E P seq_ident_cutoff force_rerun (g : Gene) k :
  od_wf (StructureProp.pdb (structure g)) ->
  let g' := (map_uniprot_to_pdb_gene E P seq_ident_cutoff force_rerun g).1 in
  od_get k (StructureProp.pdb (structure g')) = od_get k (StructureProp.pdb (structure g)) \/
  (k ∈ ranked_keys E P seq_ident_cutoff force_rerun g /\
   exists uniprot_id bs pdb_rel r,
     ranked_key bs = k /\
     od_get k (StructureProp.pdb (structure g'))
     = Some (best_structure_dict uniprot_id bs pdb_rel r)).
Proof.
  intros Hwf. unfold map_uniprot_to_pdb_gene, ranked_keys. munfold.
  destruct (uniprot_acc _) as [uid|]; [|by left].
  destruct (negb (truthy uid)); [by left|].
  destruct (best_structures E _ _ _ _ _) as [[|bs0 best]|]; [by left| |by left].
  destruct (ranked_to_add E uid (bs0 :: best) 1 []) as [to_add|e] eqn:Hrun; [|by left].
  cbn. rewrite merge_ranked_get by done.
  destruct (ranked_to_add_get _ _ _ _ _ _ k Hrun) as [Hout Hin].
  destruct (decide (k ∈ ranked_key <$> bs0 :: best)) as [Hk|Hk].
  - right. split; [done|].
    destruct (Hin Hk) as (bs & rel & r & _ & ? & _ & Hget).
    exists uid, bs, rel, r. by rewrite Hget.
  - left. by rewrite (Hout Hk).
Qed.

(** C5, as stated, fails for the ranked ingestor: the BLAST entry that a
    gene has for chain A of 1abc is replaced by the ranked entry for the same
    key. *)
Lemma map_uniprot_to_pdb_replaces_existing :
  ~ (forall E P seq_ident_cutoff force_rerun g k v,
       od_get k (StructureProp.pdb (structure g)) = Some v ->
       od_get k (StructureProp.pdb (structure
          (map_uniprot_to_pdb_gene E P seq_ident_cutoff force_rerun g).1)) = Some v).
Proof.
  intros Hclaim.
  specialize (Hclaim example_external example_project 0%Q false
                (example_gene [(("1abc", "A"), example_blast_entry)] [])
                ("1abc", "A") example_blast_entry eq_refl).
  apply (f_equal (fun o => o ≫= (.!! "rank"))) in Hclaim.
  vm_compute in Hclaim. discriminate Hclaim.
Qed.

(** The two merges on the example: BLAST keeps the ranked entry of chain A
    and appends chain C; the ranked ingestor puts its two entries first. *)
Example blast_seqs_to_pdb_gene_example :
  od_keys (StructureProp.pdb (structure
    (blast_seqs_to_pdb_gene example_external example_project 0 (1 # 10000)
       true false false
       (example_gene [(("1abc", "A"), example_ranked_entry)] [], [])).1.1))
  = [("1abc", "A"); ("1abc", "C")].
Proof. vm_compute. reflexivity. Qed.

Example map_uniprot_to_pdb_gene_example :
  od_keys (StructureProp.pdb (structure
    (map_uniprot_to_pdb_gene example_external example_project 0 false
       (example_gene [(("3def", "A"), example_blast_entry);
                      (("1abc", "A"), example_blast_entry)] [])).1))
  = [("1abc", "A"); ("2xyz", "B"); ("3def", "A")].
Proof. vm_compute. reflexivity. Qed.

(** ** Manual homology models *)

Lemma manual_homology_entries_ok E P models (g : Gene) (tr : list event) :
  let dest := op_join E (structure_single_chain_dir P) (gene_id g) in
  Forall (model_copied E dest) models ->
  for_each (fun hm => manual_homology_entry E P hm.1 hm.2) models (g, tr) =
  ((set_structure
      (StructureProp.set_homology
         (od_update (StructureProp.homology (structure g)) models) (structure g)) g,
    tr ++ flat_map (model_events dest) models), Ok tt).
Proof.
  intros dest Hok. revert g tr dest Hok.
  induction models as [|[hid hdict] models IH]; intros g tr dest Hok.
  - cbn. rewrite app_nil_r. by destruct g as [? ? []].
  - apply Forall_cons in Hok as [(src & Hfile & Hcopy) Hok].
    cbn [for_each flat_map]. unfold bind at 1. cbn [fst snd] in *.
    unfold manual_homology_entry at 1. rewrite Hfile. munfold. cbn [fst snd].
    fold dest. rewrite Hcopy. cbn [fst snd].
    rewrite IH by exact Hok. cbn.
    unfold model_events at 2. cbn [snd]. rewrite Hfile.
    by rewrite <- !app_assoc.
Qed.

(** C9. [manual_homology_models] raises [KeyError] at the first model
    without a ["model_file"] key: the models before it have been copied and
    stored, this one and the later ones have not. *)
Theorem manual_homology_models_missing_model_file (E : External) (P : Project)
    (input_dict : list (string * list (string * gmap string value)))
    (g : Gene) (tr : list event)
    (models1 models2 : list (string * gmap string value))
    (hid : string) (hdict : gmap string value) :
  let dest := op_join E (structure_single_chain_dir P) (gene_id g) in
  od_get (gene_id g) input_dict = Some (models1 ++ (hid, hdict) :: models2) ->
  hdict !! "model_file" = None ->
  Forall (model_copied E dest) models1 ->
  (forall s, manual_homology_entry E P hid hdict s = (s, Raise KeyError)) /\
  manual_homology_models_gene E P input_dict (g, tr) =
  ((set_structure
      (StructureProp.set_homology
         (od_update (StructureProp.homology (structure g)) models1) (structure g)) g,
    tr ++ flat_map (model_events dest) models1), Raise KeyError) /\
  (forall genes,
     (manual_homology_models E P input_dict (g :: genes, tr)).2 = Raise KeyError).
Proof.
  intros dest Hinput Hmissing Hok.
  assert (Hentry : forall s, manual_homology_entry E P hid hdict s = (s, Raise KeyError)).
  { intros s. unfold manual_homology_entry. by rewrite Hmissing. }
  assert (Hgene : manual_homology_models_gene E P input_dict (g, tr) =
    ((set_structure
        (StructureProp.set_homology
           (od_update (StructureProp.homology (structure g)) models1) (structure g)) g,
      tr ++ flat_map (model_events dest) models1), Raise KeyError)).
  { unfold manual_homology_models_gene. munfold. cbn [fst snd]. rewrite Hinput.
    rewrite for_each_app, manual_homology_entries_ok by exact Hok.
    cbn [for_each]. unfold bind. cbn [fst snd]. by rewrite Hentry. }
  split_and!; [done|done|].
  intros genes. unfold manual_homology_models, for_genes. cbn [fst snd for_genes_from].
  by rewrite Hgene.
Qed.

Lemma manual_homology_models_missing_model_file_witness :
  manual_homology_models_gene example_external example_project example_manual_input
    (example_gene [] [], []) =
  ((example_gene [] [("model1", example_model "/models/model1.pdb" (8 # 10))],
    [EvEnsureDir "structures/by_gene/b0001";
     EvCopy2 "/models/model1.pdb" "structures/by_gene/b0001"]),
   Raise KeyError).
Proof.
  apply (manual_homology_models_missing_model_file example_external example_project
           example_manual_input (example_gene [] []) []
           [("model1", example_model "/models/model1.pdb" (8 # 10))]
           [("model3", example_model "/models/model3.pdb" (95 # 100))]
           "model2" {[ "seq_coverage" := VNum (95 # 100) ]}).
  - reflexivity.
  - reflexivity.
  - constructor; [|constructor]. exists "/models/model1.pdb". split; reflexivity.
Defined.

(** ** The representative structure: the source *)

(** C7. A gene without homology model and without PDB entry is skipped and
    keeps its annotation. Otherwise, with [always_use_homology] the homology
    models are used when there are any, else the PDB entries; without it the
    PDB entries are used when there are any (also when there are homology
    models), else the homology models. A gene for which the PDB entries are
    not used goes to the homology block or is left alone; a gene for which
    they are used goes through the search of the PDB entries. *)
Theorem set_representative_structure_source (E : External) (P : Project)
    (always_use_homology : bool) (sort_homology_by : string) (qc : QCParams)
    (force_rerun : bool) (g : Gene) (locals : Locals) :
  let has_homology := (0 <? length (StructureProp.homology (structure g)))%nat in
  let has_pdb := (0 <? length (StructureProp.pdb (structure g)))%nat in
  let use := select_source always_use_homology has_homology has_pdb in
  let run :=
    set_representative_structure_gene E P always_use_homology sort_homology_by qc
      force_rerun (g, locals) in
  (has_homology = false -> has_pdb = false -> run = ((g, locals), Ok tt)) /\
  (always_use_homology = true -> use = (has_homology, negb has_homology && has_pdb)) /\
  (always_use_homology = false -> use = (has_homology && negb has_pdb, has_pdb)) /\
  (use.2 = false ->
   run = if use.1
         then use_homology_model E sort_homology_by (gene_struct_dir E P g) (g, locals)
         else ((g, locals), Ok tt)) /\
  (use.2 = true ->
   run = match pdb_search E qc force_rerun (gene_seq_dir E P g) (gene_struct_dir E P g)
                 (g, locals) with
         | (s', Raise StopIteration) => (s', Ok tt)
         | (s', Raise e) => (s', Raise e)
         | (s', Ok _) =>
             if has_homology
             then use_homology_model E sort_homology_by (gene_struct_dir E P g) s'
             else (s', Ok tt)
         end).
Proof.
  intros has_homology has_pdb use run.
  unfold run, use, set_representative_structure_gene, try_pdb_search, select_source.
  munfold. cbn [fst snd]. fold has_homology has_pdb.
  change (op_join E (sequence_dir P) (gene_id g)) with (gene_seq_dir E P g).
  change (op_join E (structure_single_chain_dir P) (gene_id g))
    with (gene_struct_dir E P g).
  destruct always_use_homology, has_homology, has_pdb;
    cbn -[pdb_search use_homology_model gene_seq_dir gene_struct_dir];
    split_and!; try done; intros _;
    destruct (pdb_search E qc force_rerun (gene_seq_dir E P g) (gene_struct_dir E P g)
                (g, locals)) as [s' [[]|[]]];
    reflexivity.
Qed.

Lemma set_representative_structure_source_witness :
  set_representative_structure_gene example_external example_project true
    "seq_coverage" example_qc false (example_gene [] [], fresh_locals)
  = ((example_gene [] [], fresh_locals), Ok tt) /\
  select_source true true true = (true, false) /\
  select_source false true true = (false, true) /\
  set_representative_structure_gene example_external example_project true
    "seq_coverage" example_qc false
    (example_gene example_rejected example_homology, fresh_locals)
  = use_homology_model example_external "seq_coverage"
      (gene_struct_dir example_external example_project
         (example_gene example_rejected example_homology))
      (example_gene example_rejected example_homology, fresh_locals).
Proof.
  pose proof (set_representative_structure_source example_external example_project true
                "seq_coverage" example_qc false (example_gene [] []) fresh_locals) as Hnone.
  pose proof (set_representative_structure_source example_external example_project true
                "seq_coverage" example_qc false
                (example_gene example_rejected example_homology) fresh_locals) as Hboth.
  pose proof (set_representative_structure_source example_external example_project false
                "seq_coverage" example_qc false
                (example_gene example_rejected example_homology) fresh_locals) as Hpdb.
  cbv zeta in Hnone, Hboth, Hpdb.
  destruct Hnone as [Hskip _].
  destruct Hboth as (_ & Htrue & _ & Hhom & _).
  destruct Hpdb as (_ & _ & Hfalse & _).
  split_and!.
  - apply Hskip; reflexivity.
  - apply (Htrue eq_refl).
  - apply (Hfalse eq_refl).
  - apply (Hhom eq_refl).
Defined.

(** ** Well-formed [pdb] and [homology] mappings stay well-formed *)

Lemma merge_blast_wf (current to_add : list ((string * string) * gmap string value)) :
  od_wf current -> od_wf (merge_blast current to_add).
Proof. intros Hwf. unfold merge_blast. by apply od_update_wf. Qed.

Lemma ranked_to_add_wf E uniprot_id best rank
    (acc to_add : list ((string * string) * gmap string value)) :
  od_wf acc -> ranked_to_add E uniprot_id best rank acc = Ok to_add -> od_wf to_add.
Proof.
  revert rank acc. induction best as [|bs best IH]; intros rank acc Hwf; cbn [ranked_to_add].
  - by intros [= <-].
  - destruct (get_release_date E _); [|done]. apply IH. by apply od_set_wf.
Qed.

Lemma merge_ranked_wf (current to_add : list ((string * string) * gmap string value)) :
  od_wf to_add -> od_wf (merge_ranked current to_add).
Proof.
  intros Hwf. unfold merge_ranked. destruct current; [done|]. by apply od_update_wf.
Qed.

Lemma map_uniprot_to_pdb_gene_wf E P seq_ident_cutoff force_rerun (g : Gene) :
  od_wf (StructureProp.pdb (structure g)) ->
  od_wf (StructureProp.pdb (structure
           (map_uniprot_to_pdb_gene E P seq_ident_cutoff force_rerun g).1)).
Proof.
  intros Hwf. unfold map_uniprot_to_pdb_gene. munfold.
  destruct (uniprot_acc _) as [uid|]; [|done].
  destruct (negb (truthy uid)); [done|].
  destruct (best_structures E _ _ _ _ _) as [[|bs0 best]|]; [done| |done].
  destruct (ranked_to_add E uid (bs0 :: best) 1 []) as [to_add|e] eqn:Hrun; [|done].
  cbn [fst snd structure set_structure StructureProp.pdb StructureProp.set_pdb].
  apply merge_ranked_wf. eapply ranked_to_add_wf; [|exact Hrun].
  apply NoDup_nil_2.
Qed.

Lemma blast_seqs_to_pdb_gene_wf E P seq_ident_cutoff evalue all_genes force_rerun
    display_link (s : Gene * list event) :
  od_wf (StructureProp.pdb (structure s.1)) ->
  od_wf (StructureProp.pdb (structure
           (blast_seqs_to_pdb_gene E P seq_ident_cutoff evalue all_genes force_rerun
              display_link s).1.1)).
Proof.
  intros Hwf. unfold blast_seqs_to_pdb_gene. munfold. destruct s as [g tr].
  cbn [fst snd] in *.
  repeat (case_match; simplify_eq/=; try done).
  all: by apply merge_blast_wf.
Qed.

Lemma manual_homology_models_gene_wf E P input_dict (s : Gene * list event) :
  od_wf (StructureProp.homology (structure s.1)) ->
  od_wf (StructureProp.homology (structure
           (manual_homology_models_gene E P input_dict s).1.1)).
Proof.
  unfold manual_homology_models_gene. munfold. cbn [fst snd].
  destruct (od_get _ input_dict) as [models|]; [|done].
  revert s. induction models as [|[hid hdict] models IH]; intros s Hwf; [done|].
  cbn [for_each]. unfold bind. cbn [fst snd].
  destruct (manual_homology_entry E P hid hdict s) as [s1 r] eqn:Hentry.
  assert (Hwf1 : od_wf (StructureProp.homology (structure s1.1))).
  { revert Hentry. unfold manual_homology_entry. munfold. cbn [fst snd].
    repeat (case_match; simplify_eq/=; try done); intros; simplify_eq/=; try done.
    all: by apply od_set_wf. }
  destruct r as [[]|e]; [by apply IH | done].
Qed.

(** ** The order of the search *)

Section nub_facts.
Context {A : Type} `{EqDecision A}.
Implicit Types (l : list A) (x y : A).

Lemma elem_of_nub l x : x ∈ nub l <-> x ∈ l.
Proof.
  induction l as [|a l IH]; [done|]. cbn [nub].
  rewrite !elem_of_cons, list_elem_of_filter, IH.
  destruct (decide (x = a)); tauto.
Qed.

Lemma NoDup_nub l : NoDup (nub l).
Proof.
  induction l as [|a l IH]; cbn [nub]; [constructor|].
  constructor.
  - rewrite list_elem_of_filter. tauto.
  - by apply NoDup_filter.
Qed.

Lemma nub_snoc l y :
  nub (l ++ [y]) = if decide (y ∈ l) then nub l else nub l ++ [y].
Proof.
  induction l as [|a l IH]; [done|].
  cbn [app nub]. rewrite IH.
  destruct (decide (y ∈ l)) as [Hin|Hnin].
  - rewrite decide_True by (by right). done.
  - rewrite filter_app. destruct (decide (y = a)) as [->|Hne].
    + rewrite decide_True by left.
      rewrite filter_cons_False by tauto. by rewrite app_nil_r.
    + rewrite decide_False by (rewrite elem_of_cons; tauto).
      by rewrite filter_cons_True.
Qed.
End nub_facts.

Lemma od_set_fmap_key {V} (f : string -> V) (ps : list string) (k : string) (v : V) :
  NoDup ps -> k ∈ ps ->
  od_set k v ((fun p => (p, f p)) <$> ps)
  = (fun p => (p, if decide (p = k) then v else f p)) <$> ps.
Proof.
  induction ps as [|p ps IH]; intros Hnd Hin; [by apply elem_of_nil in Hin|].
  apply NoDup_cons in Hnd as [Hp Hnd]. rewrite !fmap_cons. cbn [od_set].
  destruct (decide (k = p)) as [->|Hne].
  - rewrite decide_True by done. f_equal.
    apply list_fmap_ext. intros i x Hx.
    rewrite decide_False; [done|]. intros ->. apply Hp.
    eapply list_elem_of_lookup_2; eauto.
  - rewrite decide_False by done. f_equal. apply IH; [done|].
    apply elem_of_cons in Hin as [?|?]; done.
Qed.

Lemma od_get_fmap_key {V} (f : string -> V) (ps : list string) (k : string) :
  od_get k ((fun p => (p, f p)) <$> ps) = if decide (k ∈ ps) then Some (f k) else None.
Proof.
  induction ps as [|p ps IH]; [done|]. rewrite fmap_cons. cbn [od_get].
  destruct (decide (k = p)) as [->|Hne].
  - by rewrite decide_True by left.
  - rewrite IH. destruct (decide (k ∈ ps)).
    + by rewrite decide_True by (by right).
    + by rewrite decide_False by (rewrite elem_of_cons; tauto).
Qed.

Lemma filter_none {A} (P : A -> Prop) `{!forall x, Decision (P x)} (l : list A) :
  (forall y, y ∈ l -> ~ P y) -> filter P l = [].
Proof.
  induction l as [|a l IH]; intros Hall; [done|].
  rewrite filter_cons_False by (apply Hall; left).
  apply IH. intros y Hy. apply Hall. by right.
Qed.

Lemma filter_fst_pairs (p : string) (keys : list (string * string)) :
  (fun c => (p, c)) <$> (filter (fun x => x.1 = p) keys).*2
  = filter (fun x => x.1 = p) keys.
Proof.
  induction keys as [|[q c] keys IH]; [done|].
  rewrite filter_cons. cbn [fst]. destruct (decide (q = p)) as [->|Hne]; [|done].
  rewrite !fmap_cons. cbn [snd]. by rewrite IH.
Qed.

(** The default dictionary of lists builds the groups of the specification. *)
Lemma convert_to_dict_grouped (keys : list (string * string)) :
  convert_to_dict keys = grouped keys.
Proof.
  unfold convert_to_dict. induction keys as [|x keys IH] using rev_ind; [done|].
  rewrite foldl_app. cbn [foldl]. rewrite IH. clear IH.
  unfold grouped. rewrite fmap_app, fmap_cons, fmap_nil, nub_snoc.
  rewrite od_get_fmap_key.
  destruct (decide (x.1 ∈ keys.*1)) as [Hin|Hnin].
  - rewrite decide_True by (by apply elem_of_nub). cbn [default].
    rewrite od_set_fmap_key; [|apply NoDup_nub|by apply elem_of_nub].
    apply list_fmap_ext. intros i p Hp. f_equal.
    rewrite filter_app, fmap_app.
    destruct (decide (p = x.1)) as [->|Hne].
    + by rewrite filter_cons_True.
    + rewrite filter_cons_False by (simpl; congruence). by rewrite app_nil_r.
  - rewrite decide_False by (by rewrite elem_of_nub). cbn [default app].
    pose proof (od_set_app_fresh x.1 [x.2]
      ((fun p => (p, (filter (fun y : string * string => y.1 = p) keys).*2))
         <$> nub keys.*1) []) as Hset.
    rewrite app_nil_r in Hset. rewrite Hset; clear Hset.
    2:{ unfold od_keys. rewrite <- list_fmap_compose.
        rewrite (list_fmap_ext _ id (nub keys.*1)) by done.
        rewrite list_fmap_id. by rewrite elem_of_nub. }
    cbn [od_set]. rewrite fmap_app, fmap_cons, fmap_nil. f_equal.
    + apply list_fmap_ext. intros i p Hp. f_equal.
      rewrite filter_app, filter_cons_False, app_nil_r; [done|].
      simpl. intros <-. apply Hnin. apply elem_of_nub.
      eapply list_elem_of_lookup_2; eauto.
    + f_equal. f_equal. rewrite filter_app, filter_cons_True by done.
      rewrite filter_none; [done|].
      intros y Hy Hy1. apply Hnin.
      apply list_elem_of_fmap. by exists y.
Qed.

Lemma flatten_grouped (keys : list (string * string)) :
  flatten_groups (grouped keys) = search_order keys.
Proof.
  unfold flatten_groups, grouped, search_order.
  induction (nub keys.*1) as [|p ps IH]; [done|].
  rewrite fmap_cons. cbn [flat_map fst snd]. rewrite IH. f_equal.
  apply filter_fst_pairs.
Qed.

(** No group is empty. *)
Lemma grouped_nonempty (keys : list (string * string)) :
  Forall (fun kv => kv.2 <> []) (grouped keys).
Proof.
  unfold grouped. apply Forall_fmap, Forall_forall. intros p Hp. cbn.
  apply elem_of_nub, list_elem_of_fmap in Hp as ([q c] & -> & Hin).
  intros Hnil. apply fmap_nil_inv in Hnil.
  by apply (filter_nil_not_elem_of _ _ (q, c) Hnil).
Qed.

(** ** The ranked merge in full *)

(** The merge of the ranked ingestor: the new entries first, then the
    existing entries whose keys are not among the new ones. *)
Lemma merge_ranked_app (current to_add : pdb_annotation) :
  od_wf current -> od_wf to_add ->
  merge_ranked current to_add
  = to_add ++ filter (fun kv => negb (od_mem kv.1 to_add)) current.
Proof.
  intros Hcur Hadd. unfold merge_ranked.
  destruct current as [|kv0 cur] eqn:Hc; [by rewrite app_nil_r|].
  rewrite <- Hc in *. clear Hc kv0 cur.
  set (p := fun k' : string * string => negb (od_mem k' to_add)).
  change (filter _ current)
    with (filter (fun kv : (string * string) * gmap string value => p kv.1) current).
  assert (Hfwf := filter_key_wf p _ Hcur).
  rewrite od_of_pairs_id by done. apply od_update_fresh.
  unfold od_wf, od_keys in *. rewrite fmap_app. apply NoDup_app. split_and!; [done| |done].
  intros k Hk Hk'. apply list_elem_of_fmap in Hk' as ([k' v] & -> & Hin).
  apply list_elem_of_filter in Hin as [Hp _]. unfold p in Hp. cbn in Hp.
  by apply Is_true_true, negb_true_iff, od_mem_false in Hp.
Qed.

Lemma ranked_to_add_ok E uniprot_id best rank (acc : pdb_annotation) :
  Forall (fun bs => is_Some (get_release_date E (lower (bs_pdb_id bs)))) best ->
  exists to_add, ranked_to_add E uniprot_id best rank acc = Ok to_add.
Proof.
  revert rank acc. induction best as [|bs best IH]; intros rank acc Hrel;
    cbn [ranked_to_add]; [by eexists|].
  apply Forall_cons in Hrel as [[pdb_rel Hbs] Hrel]. rewrite Hbs. by apply IH.
Qed.

(** The keys of the new entries: the pairs of the ranked list, each once, in
    the order in which they first occur. *)
Lemma ranked_to_add_keys E uniprot_id best rank (acc to_add : pdb_annotation)
    (seen : list (string * string)) :
  ranked_to_add E uniprot_id best rank acc = Ok to_add ->
  od_keys acc = nub seen ->
  od_keys to_add = nub (seen ++ (ranked_key <$> best)).
Proof.
  revert rank acc seen. induction best as [|bs best IH]; intros rank acc seen;
    cbn [ranked_to_add].
  - intros [= <-] Hacc. by rewrite fmap_nil, app_nil_r.
  - destruct (get_release_date E _); [|done]. intros Hrun Hacc.
    rewrite fmap_cons, cons_middle, app_assoc.
    apply (IH _ _ _ Hrun). rewrite od_keys_set, nub_snoc, Hacc.
    destruct (decide (ranked_key bs ∈ seen)) as [Hin|Hnin].
    + rewrite decide_True; [done|]. by apply elem_of_nub.
    + rewrite decide_False; [done|]. by rewrite elem_of_nub.
Qed.

(** The entry under a pair of the ranked list is made from the last record
    of the list that has the pair, with the place of that record as rank. *)
Lemma ranked_to_add_last E uniprot_id best rank (acc to_add : pdb_annotation) i bs :
  ranked_to_add E uniprot_id best rank acc = Ok to_add ->
  best !! i = Some bs ->
  (forall j bs', (i < j)%nat -> best !! j = Some bs' -> ranked_key bs' <> ranked_key bs) ->
  exists pdb_rel,
    get_release_date E (lower (bs_pdb_id bs)) = Some pdb_rel /\
    od_get (ranked_key bs) to_add
    = Some (best_structure_dict uniprot_id bs pdb_rel (rank + Z.of_nat i)).
Proof.
  revert rank acc i. induction best as [|b0 best IH]; intros rank acc i; [done|].
  cbn [ranked_to_add].
  destruct (get_release_date E (lower (bs_pdb_id b0))) as [pdb_rel|] eqn:Hrel; [|done].
  intros Hrun Hi Hlast. destruct i as [|i].
  - injection Hi as ->. exists pdb_rel. split; [done|].
    destruct (ranked_to_add_get _ _ _ _ _ _ (ranked_key bs) Hrun) as [Hout _].
    rewrite Hout.
    + rewrite od_get_set, decide_True by done. by rewrite Z.add_0_r.
    + intros Hin. apply list_elem_of_fmap in Hin as (bs' & Hkey & Hin).
      apply list_elem_of_lookup in Hin as [j Hj].
      apply (Hlast (S j) bs'); [lia | done | done].
  - destruct (IH _ _ i Hrun Hi) as (rel & Hbs & Hget).
    + intros j bs' Hj Hbs'. apply (Hlast (S j) bs'); [lia | done].
    + exists rel. split; [done|]. rewrite Hget. do 2 f_equal. lia.
Qed.

(** C5, amended. The BLAST ingestor appends entries for new keys and leaves
    every existing entry as it is, where it is. The ranked ingestor leaves an
    existing entry as it is when its key is not among the pairs of the new
    ranked list. When it stores a ranked list (the representative has an
    accession, the list is not empty and the release dates are found), the
    mapping afterwards is the new entries, one for every pair of the list in
    the order in which the pairs first occur, followed by the existing
    entries whose keys are not among these pairs, in their order: an existing
    entry whose key is among them is removed, and the entry under that key is
    the new one, made from the last record of the list that has the pair,
    with the place of that record as rank. *)
Theorem pdb_ingestors_existing_entries (E : External) (P : Project) :
  (forall seq_ident_cutoff evalue all_genes force_rerun display_link
          (s : Gene * list event) k v,
     od_get k (StructureProp.pdb (structure s.1)) = Some v ->
     let s' := (blast_seqs_to_pdb_gene E P seq_ident_cutoff evalue all_genes force_rerun
                  display_link s).1 in
     od_get k (StructureProp.pdb (structure s'.1)) = Some v /\
     exists added,
       StructureProp.pdb (structure s'.1) = StructureProp.pdb (structure s.1) ++ added /\
       Forall (fun kv => kv.1 ∉ od_keys (StructureProp.pdb (structure s.1))) added) /\
  (forall seq_ident_cutoff force_rerun (g : Gene) k v,
     od_wf (StructureProp.pdb (structure g)) ->
     od_get k (StructureProp.pdb (structure g)) = Some v ->
     let g' := (map_uniprot_to_pdb_gene E P seq_ident_cutoff force_rerun g).1 in
     (k ∉ ranked_keys E P seq_ident_cutoff force_rerun g ->
      od_get k (StructureProp.pdb (structure g')) = Some v) /\
     (od_get k (StructureProp.pdb (structure g')) = Some v \/
      exists uniprot_id bs pdb_rel r,
        ranked_key bs = k /\
        od_get k (StructureProp.pdb (structure g'))
        = Some (best_structure_dict uniprot_id bs pdb_rel r))) /\
  (forall seq_ident_cutoff force_rerun (g : Gene) uniprot_id best,
     od_wf (StructureProp.pdb (structure g)) ->
     uniprot_acc (SequenceProp.representative (sequence g)) = Some uniprot_id ->
     uniprot_id <> EmptyString ->
     best_structures E uniprot_id (uniprot_id +:+ "_best_structures.json")
       (op_join E (sequence_dir P) (gene_id g)) seq_ident_cutoff force_rerun = Some best ->
     best <> [] ->
     Forall (fun bs => is_Some (get_release_date E (lower (bs_pdb_id bs)))) best ->
     let run := map_uniprot_to_pdb_gene E P seq_ident_cutoff force_rerun g in
     run.2 = Ok tt /\
     exists new,
       StructureProp.pdb (structure run.1)
       = new ++ filter (fun kv => kv.1 ∉ ranked_key <$> best)
                       (StructureProp.pdb (structure g)) /\
       od_keys new = nub (ranked_key <$> best) /\
       (forall i bs,
          best !! i = Some bs ->
          (forall j bs', (i < j)%nat -> best !! j = Some bs' ->
                         ranked_key bs' <> ranked_key bs) ->
          exists pdb_rel,
            get_release_date E (lower (bs_pdb_id bs)) = Some pdb_rel /\
            od_get (ranked_key bs) (StructureProp.pdb (structure run.1))
            = Some (best_structure_dict uniprot_id bs pdb_rel (Z.of_nat i + 1)))).
Proof.
  split_and!.
  - intros c ev ag fr dl s k v Hget s'.
    destruct (blast_seqs_to_pdb_gene_pdb E P c ev ag fr dl s) as (added & Heq & Hfresh).
    fold s' in Heq. split; [|by exists added].
    by rewrite Heq, od_get_app, Hget.
  - intros c fr g k v Hwf Hget g'.
    destruct (map_uniprot_to_pdb_gene_get E P c fr g k Hwf)
      as [Hsame|(Hk & uid & bs & rel & r & Hkey & Hnew)]; fold g' in Hsame || fold g' in Hnew.
    + rewrite Hsame. split; [done | by left].
    + split; [done|]. right. by exists uid, bs, rel, r.
  - intros c fr g uid best Hwf Hacc Huid Hbest Hne Hrel run.
    destruct (ranked_to_add_ok E uid best 1 [] Hrel) as [to_add Hadd].
    assert (Hkeys : od_keys to_add = nub (ranked_key <$> best)).
    { by apply (ranked_to_add_keys _ _ _ _ _ _ [] Hadd). }
    assert (Hwf_add : od_wf to_add).
    { eapply ranked_to_add_wf; [|exact Hadd]. apply NoDup_nil_2. }
    assert (Hrun : run =
      (set_structure
         (StructureProp.set_pdb
            (merge_ranked (StructureProp.pdb (structure g)) to_add) (structure g)) g,
       Ok tt)).
    { unfold run, map_uniprot_to_pdb_gene. munfold. rewrite Hacc.
      destruct uid as [|c0 uid]; [done|]. cbn [truthy negb]. rewrite Hbest.
      destruct best as [|b0 best]; [done|]. cbn [fst snd]. by rewrite Hadd. }
    rewrite Hrun. cbn [fst snd]. split; [done|]. exists to_add.
    cbn [structure set_structure StructureProp.pdb StructureProp.set_pdb].
    rewrite merge_ranked_app by done.
    assert (Hfilter :
      filter (fun kv : (string * string) * gmap string value => negb (od_mem kv.1 to_add))
             (StructureProp.pdb (structure g))
      = filter (fun kv => kv.1 ∉ ranked_key <$> best) (StructureProp.pdb (structure g))).
    { apply list_filter_iff. intros kv.
      rewrite Is_true_true, negb_true_iff, od_mem_false, Hkeys, elem_of_nub. done. }
    rewrite Hfilter. split_and!; [done | done |].
    intros i bs Hi Hlast.
    destruct (ranked_to_add_last _ _ _ _ _ _ _ _ Hadd Hi Hlast) as (rel & Hbs & Hget).
    exists rel. split; [done|]. rewrite od_get_app, Hget. do 2 f_equal. lia.
Qed.

Lemma pdb_ingestors_existing_entries_witness :
  (let s' := (blast_seqs_to_pdb_gene example_external example_project 0 (1 # 10000)
                true false false
                (example_gene [(("1abc", "A"), example_ranked_entry)] [], [])).1 in
   od_get ("1abc", "A") (StructureProp.pdb (structure s'.1)) = Some example_ranked_entry) /\
  (let g' := (map_uniprot_to_pdb_gene example_external example_project 0 false
                (example_gene [(("3def", "A"), example_blast_entry);
                               (("1abc", "A"), example_blast_entry)] [])).1 in
   od_get ("3def", "A") (StructureProp.pdb (structure g')) = Some example_blast_entry /\
   od_get ("1abc", "A") (StructureProp.pdb (structure g'))
   = Some (best_structure_dict "P00001" (example_best_structure "1ABC" "a" 1)
             (VStr "2001-01-01") 1) /\
   od_keys (StructureProp.pdb (structure g'))
   = [("1abc", "A"); ("2xyz", "B"); ("3def", "A")]).
Proof.
  destruct (pdb_ingestors_existing_entries example_external example_project)
    as (Hblast & Hranked & Hmerge).
  split.
  - apply (Hblast 0%Q (1 # 10000)%Q true false false
             (example_gene [(("1abc", "A"), example_ranked_entry)] [], [])
             ("1abc", "A") example_ranked_entry eq_refl).
  - intros g'. split_and!.
    + apply (Hranked 0%Q false
               (example_gene [(("3def", "A"), example_blast_entry);
                              (("1abc", "A"), example_blast_entry)] [])
               ("3def", "A") example_blast_entry).
      * apply (bool_decide_unpack _). vm_compute. exact I.
      * reflexivity.
      * apply (bool_decide_unpack _). vm_compute. exact I.
    + destruct (Hmerge 0%Q false
                  (example_gene [(("3def", "A"), example_blast_entry);
                                 (("1abc", "A"), example_blast_entry)] [])
                  "P00001"
                  [example_best_structure "1ABC" "a" 1;
                   example_best_structure "2xyz" "B" (9 # 10)])
        as (_ & new & _ & _ & Hlast).
      * apply (bool_decide_unpack _). vm_compute. exact I.
      * reflexivity.
      * discriminate.
      * reflexivity.
      * discriminate.
      * repeat constructor; by eexists.
      * destruct (Hlast 0%nat (example_best_structure "1ABC" "a" 1) eq_refl)
          as (pdb_rel & Hrel & Hget).
        { intros [|[|j]] bs' Hj Hbs'; [lia| |done].
          injection Hbs' as <-. vm_compute. discriminate. }
        injection Hrel as <-. exact Hget.
    + destruct (Hmerge 0%Q false
                  (example_gene [(("3def", "A"), example_blast_entry);
                                 (("1abc", "A"), example_blast_entry)] [])
                  "P00001"
                  [example_best_structure "1ABC" "a" 1;
                   example_best_structure "2xyz" "B" (9 # 10)])
        as (_ & new & Hpdb & Hkeys & _).
      * apply (bool_decide_unpack _). vm_compute. exact I.
      * reflexivity.
      * discriminate.
      * reflexivity.
      * discriminate.
      * repeat constructor; by eexists.
      * unfold g'. rewrite Hpdb. unfold od_keys in *. rewrite fmap_app, Hkeys.
        vm_compute. reflexivity.
Defined.

(** ** The search of the PDB entries *)

(** The order of the search on an example: the chains of a structure are
    brought together at the place of its first chain. *)
Example search_order_example :
  search_order [("1abc", "A"); ("2xyz", "B"); ("1abc", "C"); ("3def", "A"); ("2xyz", "A")]
  = [("1abc", "A"); ("1abc", "C"); ("2xyz", "B"); ("2xyz", "A"); ("3def", "A")] /\
  convert_to_dict
    [("1abc", "A"); ("2xyz", "B"); ("1abc", "C"); ("3def", "A"); ("2xyz", "A")]
  = [("1abc", ["A"; "C"]); ("2xyz", ["B"; "A"]); ("3def", ["A"])].
Proof. split; vm_compute; reflexivity. Qed.

Lemma mark_first_snd groups : (mark_first groups).*2 = flatten_groups groups.
Proof.
  unfold mark_first, flatten_groups.
  induction groups as [|[p cs] groups IH]; [done|].
  cbn [flat_map fst snd]. rewrite fmap_app, IH. f_equal.
  destruct cs as [|c cs]; [done|].
  rewrite !fmap_cons. cbn [snd]. f_equal.
  rewrite <- list_fmap_compose. by apply list_fmap_ext.
Qed.

Section search.
Context (E : External) (P : Project) (qc : QCParams) (force_rerun : bool).
Context (ref_seq_id ref_seq dir : string).

Let body := check_candidate E qc force_rerun ref_seq_id ref_seq dir.

Lemma check_candidate_next pdb pdb_file chain_to_seq c s :
  download_structure E pdb dir force_rerun = Some pdb_file ->
  get_pdb_seqs E pdb_file = Some chain_to_seq ->
  body (false, (pdb, c)) s
  = check_chain E qc force_rerun ref_seq_id ref_seq dir pdb pdb_file chain_to_seq c s.
Proof.
  intros Hdl Hseqs. unfold body, check_candidate. cbn [fst snd].
  unfold call, bind, ret. by rewrite Hdl, Hseqs.
Qed.

(** The loop over the chains of a structure whose file has been read is
    the loop over its candidates. *)
Lemma check_chains_candidates pdb pdb_file chain_to_seq chains s :
  download_structure E pdb dir force_rerun = Some pdb_file ->
  get_pdb_seqs E pdb_file = Some chain_to_seq ->
  for_each (check_chain E qc force_rerun ref_seq_id ref_seq dir pdb pdb_file chain_to_seq)
           chains s
  = for_each body ((fun c => (false, (pdb, c))) <$> chains) s.
Proof.
  intros Hdl Hseqs. revert s.
  induction chains as [|c chains IH]; intros s; [done|].
  rewrite fmap_cons. cbn [for_each]. unfold bind.
  rewrite (check_candidate_next _ _ _ _ _ Hdl Hseqs).
  destruct (check_chain E qc force_rerun ref_seq_id ref_seq dir pdb pdb_file
              chain_to_seq c s) as [s' [[]|e]]; [apply IH | done].
Qed.

Lemma check_pdb_first pdb c chains s :
  check_pdb E qc force_rerun ref_seq_id ref_seq dir pdb (c :: chains) s
  = match body (true, (pdb, c)) s with
    | (s1, Ok _) => for_each body ((fun c' => (false, (pdb, c'))) <$> chains) s1
    | (s1, Raise e) => (s1, Raise e)
    end.
Proof.
  unfold check_pdb, body, check_candidate. cbn [fst snd for_each].
  unfold call, bind, ret, raise, log_event, modify. cbn [fst snd].
  destruct (download_structure E pdb dir force_rerun) as [pdb_file|] eqn:Hdl; [|done].
  destruct (get_pdb_seqs E pdb_file) as [chain_to_seq|] eqn:Hseqs; [|done].
  destruct (check_chain E qc force_rerun ref_seq_id ref_seq dir pdb pdb_file
              chain_to_seq c _) as [s1 [[]|e]]; [|done].
  apply (check_chains_candidates _ _ _ _ _ Hdl Hseqs).
Qed.

(** The nested loops are the loop over the marked candidates. *)
Lemma check_pdbs_candidates groups s :
  Forall (fun kv => kv.2 <> []) groups ->
  for_each (fun kv => check_pdb E qc force_rerun ref_seq_id ref_seq dir kv.1 kv.2)
           groups s
  = for_each body (mark_first groups) s.
Proof.
  intros Hne. revert s.
  induction Hne as [|[pdb chains] groups Hchains _ IH]; intros s; [done|].
  cbn [fst snd] in Hchains. destruct chains as [|c chains]; [done|].
  unfold mark_first. cbn [flat_map fst snd]. fold (mark_first groups).
  rewrite <- app_comm_cons. cbn [for_each]. unfold bind. cbn [fst snd].
  rewrite check_pdb_first.
  destruct (body (true, (pdb, c)) s) as [s1 [[]|e]]; [|done].
  rewrite for_each_app.
  destruct (for_each body _ s1) as [s2 [[]|e]]; [apply IH | done].
Qed.
End search.

Lemma qc_checks_app tr1 tr2 : qc_checks (tr1 ++ tr2) = qc_checks tr1 ++ qc_checks tr2.
Proof. unfold qc_checks. apply flat_map_app. Qed.

Lemma qc_checks_rejected dir L : qc_checks (flat_map (rejected_events dir) L) = L.*2.
Proof.
  induction L as [|[b [p c]] L IH]; [done|].
  cbn [flat_map]. rewrite qc_checks_app, IH, fmap_cons.
  by destruct b.
Qed.

Section candidates.
Context (E : External) (P : Project) (qc : QCParams) (force_rerun : bool).
Context (g : Gene) (ref : string * string).

Let dir := gene_struct_dir E P g.
Let body := check_candidate E qc force_rerun ref.1 ref.2 dir.

(** A candidate that the quality check rejects is passed over. *)
Lemma candidate_rejected x locals :
  qc_verdict E P qc force_rerun g ref x.2.1 x.2.2 = Ok false ->
  body x (g, locals) =
  ((g, {| chain := Some x.2.2; trace := trace locals ++ rejected_events dir x |}),
   Ok tt).
Proof.
  destruct x as [b [p c]]. cbn [fst snd].
  unfold qc_verdict, structure_sequence, body, check_candidate, check_chain.
  fold dir. cbn [fst snd]. munfold. cbn [fst snd].
  destruct (download_structure E p dir force_rerun) as [pdb_file|]; [|by destruct b].
  destruct (get_pdb_seqs E pdb_file) as [chain_to_seq|]; [|by destruct b].
  destruct (chain_to_seq !! c) as [chain_seq|]; [|by destruct b].
  destruct (sequence_checker E _ _ _ _ _ _ _) as [[]|]; try by destruct b.
  intros _. unfold rejected_events. destruct b; cbn; by rewrite <- ?app_assoc.
Qed.

Lemma candidates_rejected L locals :
  Forall (fun x => qc_verdict E P qc force_rerun g ref x.1 x.2 = Ok false) L.*2 ->
  for_each body L (g, locals) =
  ((g, {| chain := match last L with Some x => Some x.2.2 | None => chain locals end;
          trace := trace locals ++ flat_map (rejected_events dir) L |}), Ok tt).
Proof.
  revert locals. induction L as [|x L IH]; intros locals Hall.
  - cbn. rewrite app_nil_r. by destruct locals.
  - rewrite fmap_cons in Hall. apply Forall_cons in Hall as [Hx Hall].
    cbn [for_each]. unfold bind. rewrite candidate_rejected by done.
    rewrite IH by done. cbn [chain trace flat_map].
    rewrite last_cons, <- app_assoc. by destruct (last L).
Qed.

(** A candidate whose sequence cannot be had ends the search with the
    error; the gene is as it was. *)
Lemma candidate_missing x locals e :
  structure_sequence E P force_rerun g x.2.1 x.2.2 = Raise e ->
  exists locals',
    body x (g, locals) = ((g, locals'), Raise e) /\
    qc_checks (trace locals') = qc_checks (trace locals).
Proof.
  destruct x as [b [p c]]. cbn [fst snd].
  unfold structure_sequence, body, check_candidate, check_chain.
  fold dir. cbn [fst snd]. munfold. cbn [fst snd].
  destruct (download_structure E p dir force_rerun) as [pdb_file|].
  2:{ intros [= <-]. destruct b; (eexists; split; [reflexivity|]); cbn [trace snd];
        rewrite ?qc_checks_app, ?app_nil_r; done. }
  destruct (get_pdb_seqs E pdb_file) as [chain_to_seq|].
  2:{ intros [= <-]. destruct b; (eexists; split; [reflexivity|]); cbn [trace snd];
        rewrite ?qc_checks_app, ?app_nil_r; done. }
  destruct (chain_to_seq !! c) as [chain_seq|]; [done|].
  intros [= <-]. destruct b; (eexists; split; [reflexivity|]); cbn [trace snd];
    rewrite ?qc_checks_app, ?app_nil_r; done.
Qed.

(** A candidate that the quality check accepts becomes the representative
    structure and ends the search. *)
Lemma candidate_accepted x locals entry :
  qc_verdict E P qc force_rerun g ref x.2.1 x.2.2 = Ok true ->
  od_get x.2 (StructureProp.pdb (structure g)) = Some entry ->
  exists s' e,
    body x (g, locals) = (s', Raise e) /\
    structure_id (StructureProp.representative (structure s'.1)) = SidPdb x.2.1 x.2.2 /\
    qc_checks (trace s'.2) = qc_checks (trace locals) ++ [x.2] /\
    (forall cov orig clean,
       entry !! "seq_coverage" = Some cov ->
       cleaned_pdb E P force_rerun g x.2.1 x.2.2 = Some (orig, clean) ->
       e = StopIteration /\
       s'.1 = set_structure
                (StructureProp.set_representative
                   {| structure_id := SidPdb x.2.1 x.2.2; seq_coverage := cov;
                      original_pdb_file := VStr orig; clean_pdb_file := VStr clean |}
                   (structure g)) g).
Proof.
  destruct x as [b [p c]]. cbn [fst snd].
  unfold qc_verdict, structure_sequence, cleaned_pdb, body, check_candidate, check_chain.
  fold dir. cbn [fst snd]. munfold. cbn [fst snd].
  destruct (download_structure E p dir force_rerun) as [pdb_file|]; [|done].
  destruct (get_pdb_seqs E pdb_file) as [chain_to_seq|]; [|done].
  destruct (chain_to_seq !! c) as [chain_seq|]; [|done].
  destruct (sequence_checker E _ _ _ _ _ _ _) as [[]|]; try done.
  intros _ Hentry.
  destruct b; cbn [fst snd structure StructureProp.pdb set_structure
                   StructureProp.set_representative]; rewrite Hentry; cbn [mbind option_bind].
  all: destruct (entry !! "seq_coverage") as [cov|] eqn:Hcov.
  all: try (eexists _, _; split; [reflexivity|]; cbn;
            split_and!; [done|by rewrite ?qc_checks_app, ?app_nil_r; cbn; rewrite ?app_nil_r|done]).
  all: destruct (pdbio_ext E pdb_file) as [my_pdb|] eqn:Hio.
  all: try (eexists _, _; split; [reflexivity|]; cbn;
            split_and!; [done|by rewrite ?qc_checks_app, ?app_nil_r; cbn; rewrite ?app_nil_r|];
            intros ? ? ? [= <-]; done).
  all: destruct (write_pdb E my_pdb (Some c) _ dir) as [cleaned|] eqn:Hw.
  all: eexists _, _; (split; [reflexivity|]); cbn;
         (split_and!; [done|by rewrite ?qc_checks_app, ?app_nil_r; cbn; rewrite ?app_nil_r|]).
  all: intros ? ? ? [= <-]; cbn; rewrite ?Hio; cbn; rewrite ?Hw; cbn; try done.
  all: intros [= <- <-]; split; [done|]; by destruct g as [? ? [? ? []]].
Qed.
End candidates.

Section pdb_search.
Context (E : External) (P : Project) (qc : QCParams) (force_rerun : bool).
Context (g : Gene).

(** The [try] block reads the reference sequence and visits the
    candidates in the order of the specification. *)
Lemma pdb_search_candidates locals :
  pdb_search E qc force_rerun (gene_seq_dir E P g) (gene_struct_dir E P g) (g, locals)
  = match reference_sequence E P g with
    | Raise e => ((g, locals), Raise e)
    | Ok ref =>
        for_each (check_candidate E qc force_rerun ref.1 ref.2 (gene_struct_dir E P g))
                 (mark_first (grouped (od_keys (StructureProp.pdb (structure g)))))
                 (g, locals)
    end.
Proof.
  unfold pdb_search, reference_sequence. munfold. cbn [fst snd].
  destruct (seq_file _) as [f|]; [|done].
  destruct (read_fasta_seq E _) as [ref_seq|]; [|done].
  cbn [fst snd]. rewrite convert_to_dict_grouped.
  apply check_pdbs_candidates, grouped_nonempty.
Qed.

Lemma marked_candidates :
  (mark_first (grouped (od_keys (StructureProp.pdb (structure g))))).*2 = candidates g.
Proof. unfold candidates. by rewrite mark_first_snd, flatten_grouped. Qed.

Lemma candidates_keys x : x ∈ candidates g -> x ∈ od_keys (StructureProp.pdb (structure g)).
Proof.
  unfold candidates, search_order. intros Hx.
  apply list_elem_of_In, in_flat_map in Hx as (p & _ & Hx).
  apply list_elem_of_In, list_elem_of_filter in Hx as [_ Hx]. done.
Qed.

Lemma candidates_nil : candidates g = [] -> StructureProp.pdb (structure g) = [].
Proof.
  unfold candidates, search_order, od_keys.
  destruct (StructureProp.pdb (structure g)) as [|[[p c] v] l]; [done|].
  rewrite !fmap_cons. cbn [nub flat_map fst]. rewrite filter_cons_True by done. done.
Qed.

Context (ref : string * string) (Href : reference_sequence E P g = Ok ref).

(** All candidates rejected: the search ends without exception, the gene
    is as it was, every candidate has been checked, and [chain] is bound if
    there was a candidate. *)
Lemma pdb_search_all_rejected locals :
  Forall (fun x => qc_verdict E P qc force_rerun g ref x.1 x.2 = Ok false) (candidates g) ->
  exists locals',
    pdb_search E qc force_rerun (gene_seq_dir E P g) (gene_struct_dir E P g) (g, locals)
    = ((g, locals'), Ok tt) /\
    qc_checks (trace locals') = qc_checks (trace locals) ++ candidates g /\
    (StructureProp.pdb (structure g) <> [] -> is_Some (chain locals')).
Proof.
  intros Hall. rewrite pdb_search_candidates, Href.
  rewrite <- marked_candidates in Hall.
  rewrite candidates_rejected by done.
  eexists. split; [reflexivity|]. cbn [chain trace]. split.
  - by rewrite qc_checks_app, qc_checks_rejected, marked_candidates.
  - intros Hne. destruct (last _) as [x|] eqn:Hlast; [done|].
    apply last_None in Hlast. exfalso. apply Hne, candidates_nil.
    by rewrite <- marked_candidates, Hlast.
Qed.

(** The split of the candidates at the first one that is not rejected. *)
Lemma marked_candidates_split l1 x l2 :
  candidates g = l1 ++ x :: l2 ->
  exists L1 b L2,
    mark_first (grouped (od_keys (StructureProp.pdb (structure g))))
    = L1 ++ (b, x) :: L2 /\ L1.*2 = l1.
Proof.
  rewrite <- marked_candidates. intros Hsplit.
  apply fmap_app_inv in Hsplit as (L1 & L2' & H1 & Hrest & H3).
  symmetry in Hrest. apply fmap_cons_inv in Hrest as ([b y] & L2 & Hx & _ & H2).
  cbn [snd] in Hx. subst. by exists L1, b, L2.
Qed.

Lemma pdb_search_first_accepted locals l1 p c l2 :
  candidates g = l1 ++ (p, c) :: l2 ->
  Forall (fun x => qc_verdict E P qc force_rerun g ref x.1 x.2 = Ok false) l1 ->
  qc_verdict E P qc force_rerun g ref p c = Ok true ->
  exists s' e entry,
    pdb_search E qc force_rerun (gene_seq_dir E P g) (gene_struct_dir E P g) (g, locals)
    = (s', Raise e) /\
    od_get (p, c) (StructureProp.pdb (structure g)) = Some entry /\
    structure_id (StructureProp.representative (structure s'.1)) = SidPdb p c /\
    qc_checks (trace s'.2) = qc_checks (trace locals) ++ l1 ++ [(p, c)] /\
    (forall cov orig clean,
       entry !! "seq_coverage" = Some cov ->
       cleaned_pdb E P force_rerun g p c = Some (orig, clean) ->
       e = StopIteration /\
       s'.1 = set_structure
                (StructureProp.set_representative
                   {| structure_id := SidPdb p c; seq_coverage := cov;
                      original_pdb_file := VStr orig; clean_pdb_file := VStr clean |}
                   (structure g)) g).
Proof.
  intros Hsplit Hrej Hacc.
  assert (Hkey : is_Some (od_get (p, c) (StructureProp.pdb (structure g)))).
  { apply od_get_is_Some, candidates_keys. rewrite Hsplit.
    apply elem_of_app. right. left. }
  destruct Hkey as [entry Hentry].
  destruct (marked_candidates_split _ _ _ Hsplit) as (L1 & b & L2 & HL & <-).
  rewrite pdb_search_candidates, Href, HL, for_each_app.
  rewrite candidates_rejected by done.
  cbn [for_each]. unfold bind.
  edestruct (candidate_accepted E P qc force_rerun g ref (b, (p, c))) as
    (s' & e & Hrun & Hid & Hqc & Hfull); [exact Hacc | exact Hentry |].
  rewrite Hrun. exists s', e, entry. split_and!; [done|done|done| |done].
  rewrite Hqc. cbn [trace fst snd].
  by rewrite qc_checks_app, qc_checks_rejected, <- app_assoc.
Qed.

Lemma pdb_search_first_missing locals l1 p c l2 e :
  candidates g = l1 ++ (p, c) :: l2 ->
  Forall (fun x => qc_verdict E P qc force_rerun g ref x.1 x.2 = Ok false) l1 ->
  structure_sequence E P force_rerun g p c = Raise e ->
  exists locals',
    pdb_search E qc force_rerun (gene_seq_dir E P g) (gene_struct_dir E P g) (g, locals)
    = ((g, locals'), Raise e) /\
    qc_checks (trace locals') = qc_checks (trace locals) ++ l1.
Proof.
  intros Hsplit Hrej Hmiss.
  destruct (marked_candidates_split _ _ _ Hsplit) as (L1 & b & L2 & HL & <-).
  rewrite pdb_search_candidates, Href, HL, for_each_app.
  rewrite candidates_rejected by done.
  cbn [for_each]. unfold bind.
  edestruct (candidate_missing E P qc force_rerun g ref (b, (p, c))) as
    (locals' & Hrun & Hqc); [exact Hmiss|].
  rewrite Hrun. exists locals'. split; [done|].
  rewrite Hqc. cbn [trace]. by rewrite qc_checks_app, qc_checks_rejected.
Qed.
End pdb_search.

(** ** The homology models *)

Lemma string_ltb_lt (s1 s2 : string) :
  String.ltb s1 s2 = true <-> String_as_OT.lt s1 s2.
Proof.
  unfold String.ltb. rewrite <- String_as_OT.cmp_lt. unfold String_as_OT.cmp.
  destruct (String.compare s1 s2); split; congruence.
Qed.

Lemma string_ltb_ge (s1 s2 : string) :
  String.ltb s1 s2 = false <-> s2 = s1 \/ String_as_OT.lt s2 s1.
Proof.
  unfold String.ltb. rewrite <- String_as_OT.cmp_lt. unfold String_as_OT.cmp.
  rewrite (String.compare_antisym s2 s1).
  destruct (String.compare s1 s2) eqn:Hc; cbn.
  - apply String.compare_eq_iff in Hc as ->. split; [by left | done].
  - split; [done | intros [->|?]; [|done]].
    assert (String_as_OT.cmp s1 s1 = Eq) as He by (by apply String_as_OT.cmp_eq).
    unfold String_as_OT.cmp in He. congruence.
  - split; [by right | done].
Qed.

Lemma value_ltb_irrefl v : value_ltb v v = false.
Proof.
  destruct v as [|q|s]; cbn; [done| |].
  - apply negb_false_iff, Qle_bool_iff, Qle_refl.
  - apply string_ltb_ge. by left.
Qed.

Lemma value_ltb_trans a b c :
  value_ltb a b = true -> value_ltb b c = true -> value_ltb a c = true.
Proof.
  destruct a as [|p|s1], b as [|q|s2], c as [|r|s3]; cbn; try done.
  - rewrite !negb_true_iff, <- !not_true_iff_false, !Qle_bool_iff.
    intros H1 H2 H3. apply Qnot_le_lt in H1, H2.
    apply (Qlt_not_le _ _ (Qlt_trans _ _ _ H1 H2)). done.
  - rewrite !string_ltb_lt. apply String_as_OT.lt_trans.
Qed.

Lemma value_ltb_negtrans a b c :
  value_ltb a b = false -> value_ltb b c = false -> value_ltb a c = false.
Proof.
  destruct a as [|p|s1], b as [|q|s2], c as [|r|s3]; cbn; try done.
  - rewrite !negb_false_iff, !Qle_bool_iff. intros H1 H2. by apply (Qle_trans _ q).
  - rewrite !string_ltb_ge. intros [->|H1] [->|H2]; auto.
    right. by apply (String_as_OT.lt_trans _ s2).
Qed.

Lemma homology_keyed_on (sort_homology_by : string)
    (hm l : list (string * gmap string value)) :
  (forall i m, l !! i = Some m ->
     od_get m.1 hm = Some m.2 /\ is_Some (m.2 !! sort_homology_by)) ->
  res_mapM (fun x =>
    res_bind (subscript (od_get x hm)) (fun d =>
    res_bind (subscript (d !! sort_homology_by)) (fun k => Ok (x, k)))) l.*1
  = Ok ((fun m => (m.1, homology_key sort_homology_by m)) <$> l).
Proof.
  induction l as [|[k d] l IH]; intros Hall; [done|].
  destruct (Hall 0%nat (k, d) eq_refl) as [Hget [v Hv]].
  rewrite !fmap_cons. cbn [res_mapM fst snd] in *.
  rewrite Hget. cbn [subscript res_bind]. rewrite Hv. cbn [res_bind].
  rewrite IH; [|intros i m Hi; by apply (Hall (S i))].
  cbn [res_bind]. unfold homology_key. cbn [snd]. by rewrite Hv.
Qed.

Lemma sorted_homology_ids_first_max (sort_homology_by : string)
    (hm : list (string * gmap string value)) :
  od_wf hm ->
  Forall (fun m => is_Some (m.2 !! sort_homology_by)) hm ->
  sortable (homology_key sort_homology_by <$> hm) = true ->
  hm <> [] ->
  exists i hid model rest,
    first_max (homology_key sort_homology_by) value_ltb hm i (hid, model) /\
    sorted_homology_ids sort_homology_by hm = Ok (hid :: rest) /\
    od_get hid hm = Some model.
Proof.
  intros Hwf Hkeys Hsortable Hne. unfold sorted_homology_ids, od_keys.
  rewrite homology_keyed_on.
  2:{ intros i [k d] Hi. split; [by eapply od_get_lookup|].
      eapply (proj1 (Forall_lookup _ _) Hkeys); eauto. }
  cbn [res_bind].
  rewrite <- list_fmap_compose.
  rewrite (list_fmap_ext _ (homology_key sort_homology_by) hm) by done.
  rewrite Hsortable.
  destruct (sorted_reverse snd value_ltb _) as [|top rest] eqn:Hs.
  { apply sorted_reverse_nil in Hs. by apply fmap_nil_inv in Hs. }
  apply sorted_reverse_head in Hs as [i Hfm];
    [|apply value_ltb_irrefl|apply value_ltb_trans|apply value_ltb_negtrans].
  apply first_max_fmap in Hfm as ([hid model] & -> & Hfm). cbn [fst snd] in *.
  exists i, hid, model, rest.*1. split_and!; [done|done|].
  destruct Hfm as (Hi & _). by eapply od_get_lookup.
Qed.

Section homology_block.
Context (E : External) (sort_homology_by dir : string).

(** The homology block runs no quality check. *)
Lemma use_homology_model_qc_checks s :
  qc_checks (trace (use_homology_model E sort_homology_by dir s).1.2)
  = qc_checks (trace s.2).
Proof.
  unfold use_homology_model. munfold. destruct s as [g locals]. cbn [fst snd].
  repeat (case_match; simplify_eq/=; try done).
  all: by rewrite ?qc_checks_app, ?app_nil_r.
Qed.

Context (g : Gene) (locals : Locals) (hid : string) (rest : list string)
        (model : gmap string value).
Context (Hsorted :
           sorted_homology_ids sort_homology_by (StructureProp.homology (structure g))
           = Ok (hid :: rest))
        (Hmodel : od_get hid (StructureProp.homology (structure g)) = Some model).

(** The top model is written into the representative before it is
    cleaned. *)
Lemma use_homology_model_top file cov :
  model !! "model_file" = Some file ->
  model !! "seq_coverage" = Some cov ->
  let r := StructureProp.representative
             (structure (use_homology_model E sort_homology_by dir (g, locals)).1.1) in
  structure_id r = SidHomology hid /\ seq_coverage r = cov /\ original_pdb_file r = file.
Proof.
  intros Hfile Hcov. unfold use_homology_model. munfold. cbn [fst snd].
  rewrite Hsorted, Hmodel, Hfile, Hcov. cbn [fst snd].
  repeat (case_match; simplify_eq/=; try done).
Qed.

Lemma use_homology_model_cleaned file cov my_pdb cleaned c :
  model !! "model_file" = Some (VStr file) ->
  model !! "seq_coverage" = Some cov ->
  pdbio_ext E file = Some my_pdb ->
  chain locals = Some c ->
  write_pdb E my_pdb None "clean" dir = Some cleaned ->
  use_homology_model E sort_homology_by dir (g, locals) =
  ((set_structure
      (StructureProp.set_representative
         {| structure_id := SidHomology hid; seq_coverage := cov;
            original_pdb_file := VStr file;
            clean_pdb_file := VStr (op_basename E cleaned) |} (structure g)) g,
    {| chain := chain locals;
       trace := trace locals ++ [EvWritePdb my_pdb None "clean"] |}), Ok tt).
Proof.
  intros Hfile Hcov Hio Hchain Hwrite. unfold use_homology_model. munfold. cbn [fst snd].
  rewrite Hsorted, Hmodel, Hfile, Hcov. cbn [fst snd].
  rewrite Hio. cbn [fst snd chain]. rewrite Hchain, Hwrite. cbn.
  by destruct g as [? ? [? ? []]].
Qed.
End homology_block.

Lemma reference_sequence_not_stop E P g e :
  reference_sequence E P g = Raise e -> e <> StopIteration.
Proof. unfold reference_sequence. repeat case_match; congruence. Qed.

Lemma structure_sequence_not_stop E P force_rerun g pdb chain e :
  structure_sequence E P force_rerun g pdb chain = Raise e -> e <> StopIteration.
Proof.
  unfold structure_sequence, subscript. repeat case_match; congruence.
Qed.

(** A gene whose PDB entries are used goes through the search; what follows
    depends on how the search ends. *)
Lemma set_representative_structure_gene_use_pdb (E : External) (P : Project)
    (always_use_homology : bool) (sort_homology_by : string) (qc : QCParams)
    (force_rerun : bool) (g : Gene) (locals : Locals) :
  let has_homology := (0 <? length (StructureProp.homology (structure g)))%nat in
  let has_pdb := (0 <? length (StructureProp.pdb (structure g)))%nat in
  (select_source always_use_homology has_homology has_pdb).2 = true ->
  set_representative_structure_gene E P always_use_homology sort_homology_by qc
    force_rerun (g, locals)
  = match pdb_search E qc force_rerun (gene_seq_dir E P g) (gene_struct_dir E P g)
            (g, locals) with
    | (s', Raise StopIteration) => (s', Ok tt)
    | (s', Raise e) => (s', Raise e)
    | (s', Ok _) =>
        if has_homology
        then use_homology_model E sort_homology_by (gene_struct_dir E P g) s'
        else (s', Ok tt)
    end.
Proof.
  intros has_homology has_pdb.
  unfold set_representative_structure_gene, try_pdb_search, select_source.
  munfold. cbn [fst snd]. fold has_homology has_pdb.
  change (op_join E (sequence_dir P) (gene_id g)) with (gene_seq_dir E P g).
  change (op_join E (structure_single_chain_dir P) (gene_id g))
    with (gene_struct_dir E P g).
  destruct always_use_homology, has_homology, has_pdb;
    cbn -[pdb_search use_homology_model gene_seq_dir gene_struct_dir];
    try done; intros _;
    destruct (pdb_search E qc force_rerun (gene_seq_dir E P g) (gene_struct_dir E P g)
                (g, locals)) as [s' [[]|[]]];
    reflexivity.
Qed.

(** ** Claims on the representative structure *)

(** C1. On the PDB path the candidates are checked structure by structure
    in the order in which the structures first appear among the keys of the
    [pdb] mapping, and chain by chain in the order of the keys; the first
    candidate that the quality check accepts becomes the representative
    structure, and no candidate after it is checked. *)
Theorem set_representative_structure_first_accepted (E : External) (P : Project)
    (always_use_homology : bool) (sort_homology_by : string) (qc : QCParams)
    (force_rerun : bool) (g : Gene) (locals : Locals) (ref : string * string)
    (l1 l2 : list (string * string)) (p c : string) :
  (select_source always_use_homology
     (0 <? length (StructureProp.homology (structure g)))%nat
     (0 <? length (StructureProp.pdb (structure g)))%nat).2 = true ->
  reference_sequence E P g = Ok ref ->
  candidates g = l1 ++ (p, c) :: l2 ->
  Forall (fun x => qc_verdict E P qc force_rerun g ref x.1 x.2 = Ok false) l1 ->
  qc_verdict E P qc force_rerun g ref p c = Ok true ->
  let run :=
    set_representative_structure_gene E P always_use_homology sort_homology_by qc
      force_rerun (g, locals) in
  structure_id (StructureProp.representative (structure run.1.1)) = SidPdb p c /\
  qc_checks (trace run.1.2) = qc_checks (trace locals) ++ l1 ++ [(p, c)] /\
  exists entry,
    od_get (p, c) (StructureProp.pdb (structure g)) = Some entry /\
    forall cov orig clean,
      entry !! "seq_coverage" = Some cov ->
      cleaned_pdb E P force_rerun g p c = Some (orig, clean) ->
      run.2 = Ok tt /\
      run.1.1 = set_structure
                  (StructureProp.set_representative
                     {| structure_id := SidPdb p c; seq_coverage := cov;
                        original_pdb_file := VStr orig; clean_pdb_file := VStr clean |}
                     (structure g)) g.
Proof.
  intros Huse Href Hsplit Hrej Hacc run. unfold run.
  rewrite set_representative_structure_gene_use_pdb by exact Huse.
  destruct (pdb_search_first_accepted E P qc force_rerun g ref Href locals l1 p c l2
              Hsplit Hrej Hacc) as (s' & e & entry & Hrun & Hentry & Hid & Hqc & Hfull).
  rewrite Hrun.
  split_and!.
  - by destruct e.
  - by destruct e.
  - exists entry. split; [done|]. intros cov orig clean Hcov Hclean.
    destruct (Hfull cov orig clean Hcov Hclean) as [-> Hs']. done.
Qed.

Lemma set_representative_structure_first_accepted_witness :
  let run :=
    set_representative_structure_gene example_external example_project false
      "seq_coverage" example_qc false
      (example_gene example_three_candidates example_homology, fresh_locals) in
  structure_id (StructureProp.representative (structure run.1.1)) = SidPdb "2xyz" "B" /\
  qc_checks (trace run.1.2) = [("1abc", "A"); ("2xyz", "B")].
Proof.
  destruct (set_representative_structure_first_accepted example_external example_project
              false "seq_coverage" example_qc false
              (example_gene example_three_candidates example_homology) fresh_locals
              ("P00001", "MKV") [("1abc", "A")] [("3def", "A")] "2xyz" "B")
    as (Hid & Hqc & _).
  - reflexivity.
  - reflexivity.
  - vm_compute. reflexivity.
  - constructor; [vm_compute; reflexivity | constructor].
  - vm_compute. reflexivity.
  - split; [exact Hid | exact Hqc].
Defined.

(** The run on the example: the second candidate is selected and cleaned,
    the third is never downloaded. *)
Example set_representative_structure_gene_example :
  set_representative_structure_gene example_external example_project false
    "seq_coverage" example_qc false
    (example_gene example_three_candidates example_homology, fresh_locals)
  = ((set_structure
        (StructureProp.set_representative
           {| structure_id := SidPdb "2xyz" "B"; seq_coverage := VNum (9 # 10);
              original_pdb_file := VStr "2xyz.pdb";
              clean_pdb_file := VStr "2xyz_B_clean.pdb" |}
           (structure (example_gene example_three_candidates example_homology)))
        (example_gene example_three_candidates example_homology),
      {| chain := Some "B";
         trace := [EvDownload "1abc" "structures/by_gene/b0001";
                   EvSequenceChecker "1abc" "A";
                   EvDownload "2xyz" "structures/by_gene/b0001";
                   EvSequenceChecker "2xyz" "B";
                   EvWritePdb "structures/by_gene/b0001/2xyz.pdb" (Some "B") "B_clean"] |}),
     Ok tt).
Proof. vm_compute. reflexivity. Qed.

(** C8, as stated, fails: the file of the first candidate has no chain A,
    the second candidate would pass the quality check, and the method leaves
    with [KeyError]. *)
Lemma set_representative_structure_missing_chain_raises :
  ~ (forall E P always_use_homology sort_homology_by qc force_rerun g locals ref
            l1 l2 p c,
       (select_source always_use_homology
          (0 <? length (StructureProp.homology (structure g)))%nat
          (0 <? length (StructureProp.pdb (structure g)))%nat).2 = true ->
       reference_sequence E P g = Ok ref ->
       candidates g = l1 ++ (p, c) :: l2 ->
       Forall (fun x => qc_verdict E P qc force_rerun g ref x.1 x.2 = Ok false \/
                        exists e, structure_sequence E P force_rerun g x.1 x.2 = Raise e) l1 ->
       qc_verdict E P qc force_rerun g ref p c = Ok true ->
       let run :=
         set_representative_structure_gene E P always_use_homology sort_homology_by qc
           force_rerun (g, locals) in
       run.2 = Ok tt /\
       structure_id (StructureProp.representative (structure run.1.1)) = SidPdb p c).
Proof.
  intros Hclaim.
  destruct (Hclaim example_external example_project false "seq_coverage" example_qc false
              (example_gene example_missing_chain []) fresh_locals
              ("P00001", "MKV") [("4mis", "A")] [] "2xyz" "B") as [Hok _].
  - reflexivity.
  - reflexivity.
  - vm_compute. reflexivity.
  - constructor; [|constructor]. right. exists KeyError. vm_compute. reflexivity.
  - vm_compute. reflexivity.
  - vm_compute in Hok. discriminate Hok.
Qed.

(** When the representative sequence of the gene cannot be read, the
    error leaves the search and the method before any candidate is visited. *)
Lemma set_representative_structure_no_reference (E : External) (P : Project)
    (always_use_homology : bool) (sort_homology_by : string) (qc : QCParams)
    (force_rerun : bool) (g : Gene) (locals : Locals) (e : exn) :
  (select_source always_use_homology
     (0 <? length (StructureProp.homology (structure g)))%nat
     (0 <? length (StructureProp.pdb (structure g)))%nat).2 = true ->
  reference_sequence E P g = Raise e ->
  set_representative_structure_gene E P always_use_homology sort_homology_by qc
    force_rerun (g, locals) = ((g, locals), Raise e).
Proof.
  intros Huse He.
  rewrite set_representative_structure_gene_use_pdb by exact Huse.
  rewrite pdb_search_candidates, He.
  apply reference_sequence_not_stop in He. by destruct e.
Qed.

(** C8, amended. A candidate whose structure file cannot be downloaded or
    read, or whose chain has no sequence in the file, is not passed over:
    the error leaves the search and the method, the candidates after it are
    not checked, and the gene is as it was. Only the candidates that the
    quality check rejects are passed over. *)
Theorem set_representative_structure_missing (E : External) (P : Project)
    (always_use_homology : bool) (sort_homology_by : string) (qc : QCParams)
    (force_rerun : bool) (g : Gene) (locals : Locals) (ref : string * string)
    (l1 l2 : list (string * string)) (p c : string) (e : exn) :
  (select_source always_use_homology
     (0 <? length (StructureProp.homology (structure g)))%nat
     (0 <? length (StructureProp.pdb (structure g)))%nat).2 = true ->
  reference_sequence E P g = Ok ref ->
  candidates g = l1 ++ (p, c) :: l2 ->
  Forall (fun x => qc_verdict E P qc force_rerun g ref x.1 x.2 = Ok false) l1 ->
  structure_sequence E P force_rerun g p c = Raise e ->
  let run :=
    set_representative_structure_gene E P always_use_homology sort_homology_by qc
      force_rerun (g, locals) in
  run.2 = Raise e /\ run.1.1 = g /\
  qc_checks (trace run.1.2) = qc_checks (trace locals) ++ l1.
Proof.
  intros Huse Href Hsplit Hrej Hmiss run. unfold run.
  rewrite set_representative_structure_gene_use_pdb by exact Huse.
  destruct (pdb_search_first_missing E P qc force_rerun g ref Href locals l1 p c l2 e
              Hsplit Hrej Hmiss) as (locals' & Hrun & Hqc).
  rewrite Hrun. apply structure_sequence_not_stop in Hmiss. by destruct e.
Qed.

Lemma set_representative_structure_missing_witness :
  let run :=
    set_representative_structure_gene example_external example_project false
      "seq_coverage" example_qc false
      (example_gene example_rejected_then_missing [], fresh_locals) in
  run.2 = Raise KeyError /\ run.1.1 = example_gene example_rejected_then_missing [] /\
  qc_checks (trace run.1.2) = [("1abc", "A")].
Proof.
  apply (set_representative_structure_missing example_external example_project false
           "seq_coverage" example_qc false (example_gene example_rejected_then_missing [])
           fresh_locals ("P00001", "MKV") [("1abc", "A")] [("2xyz", "B")] "4mis" "A"
           KeyError).
  - reflexivity.
  - reflexivity.
  - vm_compute. reflexivity.
  - constructor; [vm_compute; reflexivity | constructor].
  - vm_compute. reflexivity.
Defined.

(** C6. A gene with PDB entries and homology models, for which homology is
    not preferred and every PDB candidate is rejected by the quality check,
    gets a homology model as representative: the model with the greatest
    value of the sort key, the first of them in the order of the [homology]
    mapping. All PDB candidates have been checked; no check is run on a
    homology model. *)
Theorem set_representative_structure_homology_fallback (E : External) (P : Project)
    (sort_homology_by : string) (qc : QCParams) (force_rerun : bool)
    (g : Gene) (locals : Locals) (ref : string * string) :
  StructureProp.pdb (structure g) <> [] ->
  StructureProp.homology (structure g) <> [] ->
  reference_sequence E P g = Ok ref ->
  Forall (fun x => qc_verdict E P qc force_rerun g ref x.1 x.2 = Ok false) (candidates g) ->
  od_wf (StructureProp.homology (structure g)) ->
  Forall (fun m => is_Some (m.2 !! sort_homology_by)) (StructureProp.homology (structure g)) ->
  sortable (homology_key sort_homology_by <$> StructureProp.homology (structure g)) = true ->
  let run :=
    set_representative_structure_gene E P false sort_homology_by qc force_rerun
      (g, locals) in
  exists i hid model,
    first_max (homology_key sort_homology_by) value_ltb
      (StructureProp.homology (structure g)) i (hid, model) /\
    qc_checks (trace run.1.2) = qc_checks (trace locals) ++ candidates g /\
    (forall file cov,
       model !! "model_file" = Some file ->
       model !! "seq_coverage" = Some cov ->
       let r := StructureProp.representative (structure run.1.1) in
       structure_id r = SidHomology hid /\ seq_coverage r = cov /\
       original_pdb_file r = file) /\
    (forall file cov my_pdb cleaned,
       model !! "model_file" = Some (VStr file) ->
       model !! "seq_coverage" = Some cov ->
       pdbio_ext E file = Some my_pdb ->
       write_pdb E my_pdb None "clean" (gene_struct_dir E P g) = Some cleaned ->
       run.2 = Ok tt /\
       run.1.1 = set_structure
                   (StructureProp.set_representative
                      {| structure_id := SidHomology hid; seq_coverage := cov;
                         original_pdb_file := VStr file;
                         clean_pdb_file := VStr (op_basename E cleaned) |}
                      (structure g)) g).
Proof.
  intros Hpdb Hhom Href Hrej Hwf Hkeys Hsortable run.
  destruct (sorted_homology_ids_first_max sort_homology_by _ Hwf Hkeys Hsortable Hhom)
    as (i & hid & model & rest & Hfm & Hsorted & Hmodel).
  exists i, hid, model. split; [done|].
  destruct (pdb_search_all_rejected E P qc force_rerun g ref Href locals Hrej)
    as (locals' & Hsearch & Hqc & Hchain).
  destruct (Hchain Hpdb) as [c Hc].
  assert (Hrun : run = use_homology_model E sort_homology_by (gene_struct_dir E P g)
                         (g, locals')).
  { unfold run. rewrite set_representative_structure_gene_use_pdb.
    - rewrite Hsearch.
      destruct (StructureProp.homology (structure g)); [done|reflexivity].
    - destruct (StructureProp.homology (structure g)); [done|].
      destruct (StructureProp.pdb (structure g)); [done|reflexivity]. }
  rewrite Hrun. split_and!.
  - by rewrite use_homology_model_qc_checks.
  - intros file cov Hfile Hcov.
    by apply (use_homology_model_top E sort_homology_by _ g locals' hid rest model).
  - intros file cov my_pdb cleaned Hfile Hcov Hio Hwrite.
    by rewrite (use_homology_model_cleaned E sort_homology_by _ g locals' hid rest model
                  Hsorted Hmodel file cov my_pdb cleaned c).
Qed.

Lemma example_homology_wf : od_wf example_homology.
Proof. apply (bool_decide_unpack (od_wf example_homology)). vm_compute. exact I. Defined.

Lemma set_representative_structure_homology_fallback_witness :
  let run :=
    set_representative_structure_gene example_external example_project false
      "seq_coverage" example_qc false
      (example_gene example_rejected example_homology, fresh_locals) in
  exists i hid model,
    first_max (homology_key "seq_coverage") value_ltb example_homology i (hid, model) /\
    qc_checks (trace run.1.2) = [("1abc", "A")].
Proof.
  destruct (set_representative_structure_homology_fallback example_external
              example_project "seq_coverage" example_qc false
              (example_gene example_rejected example_homology) fresh_locals
              ("P00001", "MKV"))
    as (i & hid & model & Hfm & Hqc & _).
  - discriminate.
  - discriminate.
  - reflexivity.
  - constructor; [vm_compute; reflexivity | constructor].
  - exact example_homology_wf.
  - repeat constructor; eexists; reflexivity.
  - reflexivity.
  - exists i, hid, model. split; [exact Hfm | exact Hqc].
Defined.

(** The run on the example: the second model wins over the third, which has
    the same coverage. *)
Example set_representative_structure_homology_example :
  let run :=
    set_representative_structure_gene example_external example_project false
      "seq_coverage" example_qc false
      (example_gene example_rejected example_homology, fresh_locals) in
  run.2 = Ok tt /\
  StructureProp.representative (structure run.1.1)
  = {| structure_id := SidHomology "model2"; seq_coverage := VNum (95 # 100);
       original_pdb_file := VStr "/models/model2.pdb";
       clean_pdb_file := VStr "model2_clean.pdb" |} /\
  trace run.1.2 = [EvDownload "1abc" "structures/by_gene/b0001";
                   EvSequenceChecker "1abc" "A";
                   EvWritePdb "/models/model2.pdb" None "clean"].
Proof. vm_compute. split_and!; reflexivity. Qed.

(** With [always_use_homology] and no gene that went through the PDB search
    before, the local variable [chain] is unbound when the homology model is
    cleaned. *)
Example set_representative_structure_homology_unbound :
  let run :=
    set_representative_structure_gene example_external example_project true
      "seq_coverage" example_qc false
      (example_gene example_rejected example_homology, fresh_locals) in
  run.2 = Raise UnboundLocalError /\
  structure_id (StructureProp.representative (structure run.1.1)) = SidHomology "model2".
Proof. vm_compute. split; reflexivity. Qed.

(** * Frames, error paths and compositions of the methods *)

(** ** Computations that keep a relation *)

Section preserves.
Context {S : Type} (R : S -> S -> Prop) `{!Reflexive R, !Transitive R}.

Lemma preserves_ret {A} (a : A) : preserves R (ret a).
Proof. intros s. reflexivity. Qed.

Lemma preserves_raise {A} e : preserves R (@raise S A e).
Proof. intros s. reflexivity. Qed.

Lemma preserves_lift {A} (r : res A) : preserves R (lift r).
Proof. intros s. reflexivity. Qed.

Lemma preserves_get_state : preserves R get_state.
Proof. intros s. reflexivity. Qed.

Lemma preserves_call {A} who (o : option A) : preserves R (call who o).
Proof. intros s. destruct o; reflexivity. Qed.

Lemma preserves_modify f : (forall s, R s (f s)) -> preserves R (modify f).
Proof. intros Hf s. apply Hf. Qed.

Lemma preserves_bind {A B} (c : M S A) (k : A -> M S B) :
  preserves R c -> (forall a, preserves R (k a)) -> preserves R (bind c k).
Proof.
  intros Hc Hk s. unfold bind. specialize (Hc s).
  destruct (c s) as [s' [a|e]]; [|done].
  etrans; [exact Hc | apply Hk].
Qed.

Lemma preserves_for_each {A} (body : A -> M S unit) (l : list A) :
  (forall x, preserves R (body x)) -> preserves R (for_each body l).
Proof.
  intros Hbody. induction l as [|x l IH]; cbn [for_each].
  - apply preserves_ret.
  - apply preserves_bind; [apply Hbody | intros _; apply IH].
Qed.

Lemma preserves_if {A} (b : bool) (c1 c2 : M S A) :
  preserves R c1 -> preserves R c2 -> preserves R (if b then c1 else c2).
Proof. by destruct b. Qed.
End preserves.

#[local] Instance only_sequence_representative_refl : Reflexive only_sequence_representative.
Proof. by intros g. Qed.
#[local] Instance only_sequence_representative_trans : Transitive only_sequence_representative.
Proof. intros g1 g2 g3 (? & ? & ? & ?) (? & ? & ? & ?). split_and!; congruence. Qed.
#[local] Instance only_structure_pdb_refl : Reflexive only_structure_pdb.
Proof. by intros g. Qed.
#[local] Instance only_structure_pdb_trans : Transitive only_structure_pdb.
Proof. intros g1 g2 g3 (? & ? & ? & ?) (? & ? & ? & ?). split_and!; congruence. Qed.
#[local] Instance only_structure_homology_refl : Reflexive only_structure_homology.
Proof. by intros g. Qed.
#[local] Instance only_structure_homology_trans : Transitive only_structure_homology.
Proof. intros g1 g2 g3 (? & ? & ? & ?) (? & ? & ? & ?). split_and!; congruence. Qed.
#[local] Instance only_structure_representative_refl : Reflexive only_structure_representative.
Proof. by intros g. Qed.
#[local] Instance only_structure_representative_trans :
  Transitive only_structure_representative.
Proof. intros g1 g2 g3 (? & ? & ? & ?) (? & ? & ? & ?). split_and!; congruence. Qed.

#[local] Instance on_fst_refl {F} R `{!Reflexive R} : Reflexive (@on_fst F R).
Proof. intros s. unfold on_fst. reflexivity. Qed.
#[local] Instance on_fst_trans {F} R `{!Transitive R} : Transitive (@on_fst F R).
Proof. intros s1 s2 s3. unfold on_fst. apply transitivity. Qed.

(** The loop over the genes relates every gene to the gene at its place
    afterwards; no gene is added, removed or moved. *)
Lemma for_genes_from_Forall2 {F} (R : Gene -> Gene -> Prop) `{!Reflexive R}
    (body : M (Gene * F) unit) (genes : list Gene) (f : F) :
  preserves (on_fst R) body ->
  Forall2 R genes (for_genes_from body genes f).1.1.
Proof.
  intros Hbody. revert f. induction genes as [|g genes IH]; intros f; cbn [for_genes_from].
  - constructor.
  - specialize (Hbody (g, f)). unfold on_fst in Hbody. cbn [fst] in Hbody.
    destruct (body (g, f)) as [[g' f'] [[]|e]]; cbn [fst] in *.
    + specialize (IH f'). destruct (for_genes_from body genes f') as [[genes' f''] r].
      by constructor.
    + constructor; [done|]. apply Forall_Forall2_diag, Forall_true. intros x. reflexivity.
Qed.

(** ** The representative sequence: where it comes from *)

Lemma set_from_uniprot_sources b seq_prop :
  let sp' := (set_from_uniprot b seq_prop).1 in
  SequenceProp.kegg sp' = SequenceProp.kegg seq_prop /\
  SequenceProp.uniprot sp' = SequenceProp.uniprot seq_prop /\
  (SequenceProp.representative sp' = SequenceProp.representative seq_prop \/
   exists k u,
     od_get k (SequenceProp.uniprot seq_prop) = Some u /\
     SequenceProp.representative sp'
     = update_for_saving (SequenceProp.representative seq_prop) u).
Proof.
  rewrite set_from_uniprot_unfold.
  destruct (best_uniprot _) as [k|e]; [|by split_and!; [..|left]].
  destruct (od_get k _) as [u|] eqn:Hu; [|by split_and!; [..|left]].
  cbn. split_and!; [done|done|]. right. by exists k, u.
Qed.

(** The resolver [set_representative_sequence] never changes the KEGG record
    or the UniProt mapping of a gene, whether its step returns or raises.
    The representative afterwards is the one before, or the KEGG record of a
    gene that has a KEGG sequence, or the representative before updated from
    an entry of the UniProt mapping of the gene; it is only changed when its
    length was not positive. *)
Theorem set_representative_sequence_gene_sources (seq_prop : SequenceProp.t) :
  let sp' := (set_representative_sequence_gene seq_prop).1 in
  SequenceProp.kegg sp' = SequenceProp.kegg seq_prop /\
  SequenceProp.uniprot sp' = SequenceProp.uniprot seq_prop /\
  (SequenceProp.representative sp' = SequenceProp.representative seq_prop \/
   (SequenceProp.representative sp' = SequenceProp.kegg seq_prop /\
    (0 < seq_len (SequenceProp.kegg seq_prop))%Z /\
    (seq_len (SequenceProp.representative seq_prop) <= 0)%Z) \/
   exists k u,
     od_get k (SequenceProp.uniprot seq_prop) = Some u /\
     (seq_len (SequenceProp.representative seq_prop) <= 0)%Z /\
     SequenceProp.representative sp'
     = update_for_saving (SequenceProp.representative seq_prop) u).
Proof.
  unfold set_representative_sequence_gene, already_set, set_from_kegg. munfold.
  destruct (0 <? seq_len (SequenceProp.representative seq_prop))%Z eqn:Hrep.
  { cbn. split_and!; [done|done|by left]. }
  apply Z.ltb_ge in Hrep.
  assert (Huni : forall b,
    let sp' := (set_from_uniprot b seq_prop).1 in
    SequenceProp.kegg sp' = SequenceProp.kegg seq_prop /\
    SequenceProp.uniprot sp' = SequenceProp.uniprot seq_prop /\
    (SequenceProp.representative sp' = SequenceProp.representative seq_prop \/
     (SequenceProp.representative sp' = SequenceProp.kegg seq_prop /\
      (0 < seq_len (SequenceProp.kegg seq_prop))%Z /\
      (seq_len (SequenceProp.representative seq_prop) <= 0)%Z) \/
     exists k u,
       od_get k (SequenceProp.uniprot seq_prop) = Some u /\
       (seq_len (SequenceProp.representative seq_prop) <= 0)%Z /\
       SequenceProp.representative sp'
       = update_for_saving (SequenceProp.representative seq_prop) u)).
  { intros b. destruct (set_from_uniprot_sources b seq_prop) as (? & ? & [?|(k & u & ? & ?)]).
    - split_and!; [done|done|by left].
    - split_and!; [done|done|]. right. right. by exists k, u. }
  destruct (0 <? seq_len (SequenceProp.kegg seq_prop))%Z eqn:Hkegg;
    destruct (length (SequenceProp.uniprot seq_prop) =? 0)%nat eqn:Hn0;
    destruct (seq_len (SequenceProp.kegg seq_prop) =? 0)%Z eqn:Hk0;
    destruct (0 <? length (SequenceProp.uniprot seq_prop))%nat eqn:Hn;
    cbn [andb]; try apply Huni;
    try (cbn; split_and!; [done|done|by left]);
    try (cbn; split_and!; [done|done|right; left; split_and!; [done|by apply Z.ltb_lt|done]]).
  all: destruct (_ && _); try apply Huni.
  all: cbn; split_and!; [done|done|right; left; split_and!; [done|by apply Z.ltb_lt|done]].
Qed.

(** One step of the resolver leaves the KEGG record and the UniProt mapping
    as they are. *)
Lemma set_representative_sequence_gene_slots (seq_prop : SequenceProp.t) :
  let sp' := (set_representative_sequence_gene seq_prop).1 in
  SequenceProp.kegg sp' = SequenceProp.kegg seq_prop /\
  SequenceProp.uniprot sp' = SequenceProp.uniprot seq_prop.
Proof.
  assert (Huni : forall b,
    SequenceProp.kegg (set_from_uniprot b seq_prop).1 = SequenceProp.kegg seq_prop /\
    SequenceProp.uniprot (set_from_uniprot b seq_prop).1 = SequenceProp.uniprot seq_prop).
  { intros b. by destruct (set_from_uniprot_sources b seq_prop) as (? & ? & _). }
  unfold set_representative_sequence_gene, already_set, set_from_kegg. munfold.
  repeat match goal with
         | |- context [if ?b then _ else _] => destruct b
         end; first [apply Huni | done].
Qed.

(** ** What the methods leave alone *)

Ltac preserves_step :=
  first
    [ apply preserves_ret; apply _ | apply preserves_raise; apply _
    | apply preserves_lift; apply _ | apply preserves_get_state; apply _
    | apply preserves_call; apply _
    | apply preserves_for_each; [apply _ | apply _ | intros ?]
    | apply preserves_bind; [apply _ | | intros ?]
    | match goal with
      | |- preserves _ (match ?x with _ => _ end) => destruct x
      end ].

Lemma preserves_emit (R : Gene -> Gene -> Prop) `{!Reflexive R} (ev : event) :
  preserves (on_fst R) (@emit Gene ev).
Proof. intros s. unfold on_fst. cbn. reflexivity. Qed.

Lemma preserves_log_event (R : Gene -> Gene -> Prop) `{!Reflexive R} (ev : event) :
  preserves (on_fst R) (log_event ev).
Proof. intros s. unfold on_fst. cbn. reflexivity. Qed.

Lemma preserves_bind_chain (R : Gene -> Gene -> Prop) `{!Reflexive R} (c : string) :
  preserves (on_fst R) (bind_chain c).
Proof. intros s. unfold on_fst. cbn. reflexivity. Qed.

Lemma preserves_update_representative f :
  preserves (on_fst only_structure_representative) (update_representative f).
Proof. intros s. unfold on_fst, only_structure_representative. by cbn. Qed.

Lemma preserves_on_gene {F A} (R : Gene -> Gene -> Prop) (c : M Gene A) :
  preserves R c -> preserves (on_fst R) (@on_gene F A c).
Proof.
  intros Hc s. unfold on_gene, zoom, on_fst. specialize (Hc s.1).
  by destruct (c s.1).
Qed.

Section frames.
Context (E : External) (P : Project).

Lemma set_representative_sequence_gene_frame :
  preserves only_sequence_representative (on_sequence set_representative_sequence_gene).
Proof.
  intros g. unfold on_sequence, zoom.
  destruct (set_representative_sequence_gene_slots (sequence g)) as (Hk & Hu).
  destruct (set_representative_sequence_gene (sequence g)) as [sp' r].
  by split_and!.
Qed.

Lemma map_uniprot_to_pdb_gene_frame seq_ident_cutoff force_rerun :
  preserves only_structure_pdb (map_uniprot_to_pdb_gene E P seq_ident_cutoff force_rerun).
Proof.
  unfold map_uniprot_to_pdb_gene. repeat preserves_step.
  apply preserves_modify. intros ?. by split_and!.
Qed.

Lemma blast_seqs_to_pdb_gene_frame seq_ident_cutoff evalue all_genes force_rerun
    display_link :
  preserves (on_fst only_structure_pdb)
    (blast_seqs_to_pdb_gene E P seq_ident_cutoff evalue all_genes force_rerun display_link).
Proof.
  unfold blast_seqs_to_pdb_gene. repeat preserves_step; try apply preserves_emit; try apply _.
  apply preserves_modify. intros ?. by split_and!.
Qed.

Lemma manual_homology_models_gene_frame input_dict :
  preserves (on_fst only_structure_homology) (manual_homology_models_gene E P input_dict).
Proof.
  unfold manual_homology_models_gene, manual_homology_entry.
  repeat preserves_step; try (apply preserves_emit; apply _).
  all: apply preserves_modify; intros ?; by split_and!.
Qed.

Lemma set_representative_structure_gene_frame always_use_homology sort_homology_by qc
    force_rerun :
  preserves (on_fst only_structure_representative)
    (set_representative_structure_gene E P always_use_homology sort_homology_by qc
       force_rerun).
Proof.
  assert (Hsearch : forall d1 d2,
    preserves (on_fst only_structure_representative) (pdb_search E qc force_rerun d1 d2)).
  { intros d1 d2. unfold pdb_search, check_pdb, check_chain.
    repeat preserves_step;
      first [ apply preserves_log_event; apply _ | apply preserves_bind_chain; apply _
            | apply preserves_update_representative ]. }
  assert (Hhom : forall d,
    preserves (on_fst only_structure_representative)
      (use_homology_model E sort_homology_by d)).
  { intros d. unfold use_homology_model.
    repeat preserves_step;
      first [ apply preserves_log_event; apply _
            | apply preserves_update_representative ]. }
  unfold set_representative_structure_gene.
  apply preserves_bind; [apply _ | apply preserves_get_state; apply _ |]. intros s.
  destruct (_ && _); [apply preserves_ret; apply _|].
  destruct (select_source _ _ _) as [use_homology use_pdb].
  apply preserves_bind; [apply _ | |].
  - destruct use_pdb; [|apply preserves_ret; apply _].
    intros s0. unfold try_pdb_search.
    match goal with |- context [pdb_search E qc force_rerun ?d1 ?d2 s0] =>
      specialize (Hsearch d1 d2 s0);
      by destruct (pdb_search E qc force_rerun d1 d2 s0) as [s' [[]|[]]]
    end.
  - intros [b|]; [|apply preserves_ret; apply _].
    destruct (_ && _); [apply Hhom | apply preserves_ret; apply _].
Qed.
End frames.

Lemma manual_seq_mapping_gene_frame E P s :
  preserves (on_fst only_sequence_representative) (manual_seq_mapping_gene E P s).
Proof.
  assert (Hupd : forall f,
    preserves (on_fst only_sequence_representative) (update_seq_representative f)).
  { intros f st. unfold on_fst, only_sequence_representative. by cbn. }
  unfold manual_seq_mapping_gene.
  repeat preserves_step; first [apply Hupd | apply preserves_emit; apply _].
Qed.

Lemma on_gene_by_id_Forall2 {F A} (R : Gene -> Gene -> Prop) `{!Reflexive R}
    (g : string) (c : M (Gene * F) A) (s : list Gene * F) :
  preserves (on_fst R) c ->
  Forall2 R s.1 (on_gene_by_id g c s).1.1.
Proof.
  intros Hc. unfold on_gene_by_id.
  destruct (list_find _ s.1) as [[i gene]|] eqn:Hfind.
  - apply list_find_Some in Hfind as (Hi & _ & _).
    specialize (Hc (gene, s.2)). unfold on_fst in Hc. cbn [fst] in Hc.
    destruct (c (gene, s.2)) as [[gene' f'] r]. cbn [fst] in *.
    apply Forall2_same_length_lookup. split; [by rewrite length_insert|].
    intros j x y Hx Hy. destruct (decide (j = i)) as [->|Hne].
    + rewrite list_lookup_insert_eq in Hy by (by eapply lookup_lt_Some).
      by simplify_eq.
    + rewrite list_lookup_insert_ne in Hy by done. simplify_eq. reflexivity.
  - cbn. apply Forall_Forall2_diag, Forall_true. intros x. reflexivity.
Qed.

Lemma manual_seq_mapping_frame E P gene_to_seq_dict (s : list Gene * list event) :
  Forall2 only_sequence_representative s.1 (manual_seq_mapping E P gene_to_seq_dict s).1.1.
Proof.
  unfold manual_seq_mapping. revert s.
  induction gene_to_seq_dict as [|[g sq] l IH]; intros s; cbn [for_each].
  - cbn. apply Forall_Forall2_diag, Forall_true. intros x. reflexivity.
  - unfold bind. cbn [fst snd].
    pose proof (on_gene_by_id_Forall2 only_sequence_representative g
                  (manual_seq_mapping_gene E P sq) s
                  (manual_seq_mapping_gene_frame E P sq)) as H1.
    destruct (on_gene_by_id g (manual_seq_mapping_gene E P sq) s) as [s1 [[]|e]];
      cbn [fst] in *; [|done].
    etrans; [exact H1 | apply IH].
Qed.

(** Neither resolver changes anything but the representative it sets: the
    list of the genes, their identifiers, what the ingestors have stored and
    the other half of the annotation are as they were, also when the method
    leaves with an exception. *)
Theorem resolvers_frame (E : External) (P : Project) (always_use_homology : bool)
    (sort_homology_by : string) (qc : QCParams) (force_rerun : bool)
    (genes : list Gene) (locals : Locals) :
  Forall2 only_sequence_representative genes (set_representative_sequence genes).1 /\
  Forall2 only_structure_representative genes
    (set_representative_structure E P always_use_homology sort_homology_by qc force_rerun
       (genes, locals)).1.1.
Proof.
  split.
  - rewrite set_representative_sequence_fst.
    apply for_genes_from_Forall2; [apply _|].
    apply preserves_on_gene, set_representative_sequence_gene_frame.
  - unfold set_representative_structure, for_genes. cbn [fst snd].
    apply for_genes_from_Forall2; [apply _|].
    apply set_representative_structure_gene_frame.
Qed.

(** The ingestors change the mapping that they fill and nothing else: the
    ranked and the BLAST ingestor the [pdb] mapping, the manual homology
    models the [homology] mapping, the manual sequences the representative
    sequence; also when they leave with an exception. *)
Theorem ingestors_frame (E : External) (P : Project) (seq_ident_cutoff evalue : Q)
    (all_genes force_rerun display_link : bool)
    (input_dict : list (string * list (string * gmap string value)))
    (gene_to_seq_dict : list (string * string))
    (genes : list Gene) (tr : list event) :
  Forall2 only_structure_pdb genes
    (map_uniprot_to_pdb E P seq_ident_cutoff force_rerun genes).1 /\
  Forall2 only_structure_pdb genes
    (blast_seqs_to_pdb E P seq_ident_cutoff evalue all_genes force_rerun display_link
       (genes, tr)).1.1 /\
  Forall2 only_structure_homology genes
    (manual_homology_models E P input_dict (genes, tr)).1.1 /\
  Forall2 only_sequence_representative genes
    (manual_seq_mapping E P gene_to_seq_dict (genes, tr)).1.1.
Proof.
  split_and!.
  - unfold map_uniprot_to_pdb, for_genes. cbn [fst snd].
    pose proof (for_genes_from_Forall2 only_structure_pdb
                  (on_gene (map_uniprot_to_pdb_gene E P seq_ident_cutoff force_rerun))
                  genes tt) as H.
    destruct (for_genes_from _ genes tt) as [[genes' []] r]. apply H.
    apply preserves_on_gene, map_uniprot_to_pdb_gene_frame.
  - unfold blast_seqs_to_pdb, for_genes. cbn [fst snd].
    apply for_genes_from_Forall2; [apply _|]. apply blast_seqs_to_pdb_gene_frame.
  - unfold manual_homology_models, for_genes. cbn [fst snd].
    apply for_genes_from_Forall2; [apply _|]. apply manual_homology_models_gene_frame.
  - apply (manual_seq_mapping_frame E P gene_to_seq_dict (genes, tr)).
Qed.

(** ** The homology block and the variable [chain] *)

Lemma use_homology_model_unbound E sort_homology_by dir (g : Gene) (locals : Locals) :
  chain locals = None ->
  (exists e g',
     use_homology_model E sort_homology_by dir (g, locals) = ((g', locals), Raise e) /\
     clean_pdb_file (StructureProp.representative (structure g'))
     = clean_pdb_file (StructureProp.representative (structure g))) /\
  (forall hid rest model file cov my_pdb,
     sorted_homology_ids sort_homology_by (StructureProp.homology (structure g))
     = Ok (hid :: rest) ->
     od_get hid (StructureProp.homology (structure g)) = Some model ->
     model !! "model_file" = Some (VStr file) ->
     model !! "seq_coverage" = Some cov ->
     pdbio_ext E file = Some my_pdb ->
     use_homology_model E sort_homology_by dir (g, locals) =
     ((set_structure
         (StructureProp.set_representative
            {| structure_id := SidHomology hid; seq_coverage := cov;
               original_pdb_file := VStr file;
               clean_pdb_file :=
                 clean_pdb_file (StructureProp.representative (structure g)) |}
            (structure g)) g, locals), Raise UnboundLocalError)).
Proof.
  intros Hchain. split.
  - unfold use_homology_model. munfold. cbn [fst snd].
    destruct (sorted_homology_ids _ _) as [[|hid rest]|e]; try by eexists _, _.
    cbn [fst snd]. destruct (od_get hid _) as [model|]; [|by eexists _, _].
    destruct (model !! "model_file") as [file|]; [|by eexists _, _].
    destruct (model !! "seq_coverage") as [cov|]; [|by eexists _, _].
    cbn [fst snd]. destruct file as [|q|file]; try by eexists _, _.
    destruct (pdbio_ext E file) as [my_pdb|]; [|by eexists _, _].
    cbn [fst snd chain]. rewrite Hchain. by eexists _, _.
  - intros hid rest model file cov my_pdb Hsorted Hmodel Hfile Hcov Hio.
    unfold use_homology_model. munfold. cbn [fst snd].
    rewrite Hsorted, Hmodel, Hfile, Hcov. cbn [fst snd]. rewrite Hio.
    cbn [fst snd chain]. rewrite Hchain. done.
Qed.

Lemma set_representative_structure_gene_skip E P always_use_homology sort_homology_by qc
    force_rerun (g : Gene) (locals : Locals) :
  StructureProp.homology (structure g) = [] ->
  StructureProp.pdb (structure g) = [] ->
  set_representative_structure_gene E P always_use_homology sort_homology_by qc force_rerun
    (g, locals) = ((g, locals), Ok tt).
Proof.
  intros Hh Hp. unfold set_representative_structure_gene. munfold. cbn [fst snd].
  by rewrite Hh, Hp.
Qed.

Lemma set_representative_structure_skip E P always_use_homology sort_homology_by qc
    force_rerun (genes : list Gene) (locals : Locals) :
  Forall (fun g => StructureProp.homology (structure g) = [] /\
                   StructureProp.pdb (structure g) = []) genes ->
  for_genes_from
    (set_representative_structure_gene E P always_use_homology sort_homology_by qc
       force_rerun) genes locals = ((genes, locals), Ok tt).
Proof.
  induction 1 as [|g genes [Hh Hp] _ IH]; cbn [for_genes_from]; [done|].
  rewrite set_representative_structure_gene_skip by done. by rewrite IH.
Qed.

Lemma set_representative_structure_gene_homology_first E P sort_homology_by qc
    force_rerun (g : Gene) (locals : Locals) :
  StructureProp.homology (structure g) <> [] ->
  set_representative_structure_gene E P true sort_homology_by qc force_rerun (g, locals)
  = use_homology_model E sort_homology_by (gene_struct_dir E P g) (g, locals).
Proof.
  intros Hh. unfold set_representative_structure_gene, select_source. munfold.
  cbn [fst snd].
  destruct (StructureProp.homology (structure g)) as [|m hm] eqn:Hhm; [done|].
  cbn [length Nat.ltb Nat.leb negb andb orb].
  rewrite andb_false_r. cbn [fst snd].
  by destruct (use_homology_model _ _ _ _) as [? [[]|?]].
Qed.

(** With [always_use_homology], the default, and no gene before it that
    went through the search of the PDB entries, the first gene with a
    homology model ends the method with an exception: the variable [chain]
    that the cleaning step reads has not been bound. If the step comes that
    far, the exception is [UnboundLocalError]; the representative has then
    been given the identifier, the coverage and the file of the model, but
    no cleaned file. The genes after it are not visited. *)
Theorem set_representative_structure_homology_unbound_chain (E : External) (P : Project)
    (sort_homology_by : string) (qc : QCParams) (force_rerun : bool)
    (genes1 genes2 : list Gene) (g : Gene) :
  Forall (fun g0 => StructureProp.homology (structure g0) = [] /\
                    StructureProp.pdb (structure g0) = []) genes1 ->
  StructureProp.homology (structure g) <> [] ->
  let run :=
    set_representative_structure E P true sort_homology_by qc force_rerun
      (genes1 ++ g :: genes2, fresh_locals) in
  (exists e g',
     run = ((genes1 ++ g' :: genes2, fresh_locals), Raise e) /\
     clean_pdb_file (StructureProp.representative (structure g'))
     = clean_pdb_file (StructureProp.representative (structure g))) /\
  (forall hid rest model file cov my_pdb,
     sorted_homology_ids sort_homology_by (StructureProp.homology (structure g))
     = Ok (hid :: rest) ->
     od_get hid (StructureProp.homology (structure g)) = Some model ->
     model !! "model_file" = Some (VStr file) ->
     model !! "seq_coverage" = Some cov ->
     pdbio_ext E file = Some my_pdb ->
     run =
     ((genes1 ++
       set_structure
         (StructureProp.set_representative
            {| structure_id := SidHomology hid; seq_coverage := cov;
               original_pdb_file := VStr file;
               clean_pdb_file :=
                 clean_pdb_file (StructureProp.representative (structure g)) |}
            (structure g)) g :: genes2, fresh_locals), Raise UnboundLocalError)).
Proof.
  intros Hnone Hhom run.
  assert (Hrun : run =
    let '((g', locals'), r) :=
      use_homology_model E sort_homology_by (gene_struct_dir E P g) (g, fresh_locals) in
    match r with
    | Ok _ =>
        let '((genes2', f''), r') :=
          for_genes_from
            (set_representative_structure_gene E P true sort_homology_by qc force_rerun)
            genes2 locals' in
        ((genes1 ++ g' :: genes2', f''), r')
    | Raise e => ((genes1 ++ g' :: genes2, locals'), Raise e)
    end).
  { unfold run, set_representative_structure, for_genes. cbn [fst snd].
    rewrite for_genes_from_app, set_representative_structure_skip by done.
    cbn [for_genes_from].
    rewrite set_representative_structure_gene_homology_first by done.
    destruct (use_homology_model _ _ _ _) as [[g' locals'] [[]|e]]; [|done].
    by destruct (for_genes_from _ genes2 locals') as [[? ?] ?]. }
  destruct (use_homology_model_unbound E sort_homology_by (gene_struct_dir E P g) g
              fresh_locals eq_refl) as [(e & g' & Hstep & Hclean) Hfull].
  split.
  - exists e, g'. rewrite Hrun, Hstep. done.
  - intros hid rest model file cov my_pdb Hsorted Hmodel Hfile Hcov Hio.
    rewrite Hrun, (Hfull hid rest model file cov my_pdb) by done. done.
Qed.

Lemma set_representative_structure_homology_unbound_chain_witness :
  exists e g',
    set_representative_structure example_external example_project true "seq_coverage"
      example_qc false
      ([new_gene "b0000"] ++ example_gene example_rejected example_homology
         :: [new_gene "b0002"], fresh_locals)
    = (([new_gene "b0000"] ++ g' :: [new_gene "b0002"], fresh_locals), Raise e) /\
    clean_pdb_file (StructureProp.representative (structure g')) = VNone.
Proof.
  apply (set_representative_structure_homology_unbound_chain example_external
           example_project "seq_coverage" example_qc false
           [new_gene "b0000"] [new_gene "b0002"]
           (example_gene example_rejected example_homology)).
  - repeat constructor.
  - discriminate.
Defined.

(** ** The UniProt-only branch and the row of the data frame *)

(** In the UniProt-only branch the row of the data frame joins
    [genedict['kegg_id']] without the test that the other branch has: when
    the entry that wins the ranking has no ["kegg_id"] key, the gene step
    raises [KeyError] after the representative has been written, and the
    genes after this one are not visited. When the entry has given the
    representative a positive length the gene is finalized, and a second run
    passes over it. *)
Theorem set_representative_sequence_uniprot_only_no_kegg_id (g : Gene)
    (genes2 : list Gene) (i : nat) (k : string) (u : UniprotEntry) :
  let seq_prop := sequence g in
  let seq_prop' :=
    SequenceProp.set_representative
      (update_for_saving (SequenceProp.representative seq_prop) u) seq_prop in
  already_set seq_prop = false ->
  seq_len (SequenceProp.kegg seq_prop) = 0%Z ->
  od_wf (SequenceProp.uniprot seq_prop) ->
  Forall (fun kv => rankable kv.2) (SequenceProp.uniprot seq_prop) ->
  first_max (fun kv => uniprot_score kv.2) Z.ltb (SequenceProp.uniprot seq_prop) i (k, u) ->
  u_kegg_id u = None ->
  set_representative_sequence_gene seq_prop = (seq_prop', Raise KeyError) /\
  set_representative_sequence (g :: genes2)
  = (set_sequence seq_prop' g :: genes2, Raise KeyError) /\
  (forall n, u_seq_len u = Some n -> (0 < n)%Z ->
     set_representative_sequence_gene seq_prop' = (seq_prop', Ok tt)).
Proof.
  intros seq_prop seq_prop' Hset Hkegg Hwf Hrank Hfm Hnokegg.
  assert (Hne : SequenceProp.uniprot seq_prop <> []).
  { destruct Hfm as (Hi & _). intros Hnil. by rewrite Hnil in Hi. }
  assert (Hstep : set_representative_sequence_gene seq_prop = (seq_prop', Raise KeyError)).
  { destruct (set_from_uniprot_first_max true seq_prop Hwf Hrank Hne)
      as (i' & k' & u' & Hfm' & Hrun).
    destruct (first_max_unique _ _ _ _ _ _ _ Hfm Hfm') as [_ [= <- <-]].
    unfold set_representative_sequence_gene. munfold. rewrite Hset, Hkegg.
    destruct (SequenceProp.uniprot seq_prop) as [|? ?] eqn:Hu; [done|].
    cbn [length Z.ltb Z.compare andb Z.eqb Nat.ltb Nat.leb].
    rewrite Hrun, Hnokegg. done. }
  split_and!.
  - exact Hstep.
  - unfold set_representative_sequence, for_genes. cbn [fst snd for_genes_from].
    rewrite on_sequence_gene_eq. fold seq_prop. rewrite Hstep. done.
  - intros n Hn Hpos. apply set_representative_sequence_gene_set.
    unfold already_set, seq_prop'. cbn. rewrite Hn. cbn. by apply Z.ltb_lt.
Qed.

Lemma set_representative_sequence_uniprot_only_no_kegg_id_witness :
  set_representative_sequence [example_gene_no_kegg_id; new_gene "b0004"]
  = ([set_sequence
        {| SequenceProp.kegg := empty_seq_record;
           SequenceProp.uniprot := [("P00003", example_entry_no_kegg_id)];
           SequenceProp.representative :=
             {| uniprot_acc := Some "P00003"; kegg_id := KNone; seq_len := 300;
                pdbs := []; seq_file := Some "P00003.fasta";
                metadata_file := Some "P00003.txt" |} |}
        example_gene_no_kegg_id;
      new_gene "b0004"], Raise KeyError).
Proof.
  destruct (set_representative_sequence_uniprot_only_no_kegg_id example_gene_no_kegg_id
              [new_gene "b0004"] 0 "P00003" example_entry_no_kegg_id)
    as (_ & Hrun & _).
  - reflexivity.
  - reflexivity.
  - apply (bool_decide_unpack _). vm_compute. exact I.
  - repeat constructor; cbn; eauto.
  - split_and!; [reflexivity | |intros j y Hj; lia].
    intros y Hy. apply list_elem_of_singleton in Hy as ->. reflexivity.
  - reflexivity.
  - exact Hrun.
Defined.

(** ** A search in which every candidate is rejected *)

Lemma downloads_app tr1 tr2 : downloads (tr1 ++ tr2) = downloads tr1 ++ downloads tr2.
Proof. unfold downloads. apply flat_map_app. Qed.

Lemma downloads_rejected dir groups :
  Forall (fun kv : string * list string => kv.2 <> []) groups ->
  downloads (flat_map (rejected_events dir) (mark_first groups)) = groups.*1.
Proof.
  induction 1 as [|[p cs] groups Hcs _ IH]; [done|].
  cbn [fst snd] in Hcs. destruct cs as [|c cs]; [done|].
  unfold mark_first. cbn [flat_map fst snd]. fold (mark_first groups).
  rewrite <- app_comm_cons. cbn [flat_map]. rewrite flat_map_app, !downloads_app, IH.
  rewrite fmap_cons.
  assert (Hrest : downloads
            (flat_map (rejected_events dir) ((fun c' => (false, (p, c'))) <$> cs)) = []).
  { clear. induction cs as [|c' cs IH]; [done|].
    rewrite fmap_cons. cbn [flat_map]. by rewrite downloads_app, IH. }
  by rewrite Hrest.
Qed.

Lemma grouped_keys (keys : list (string * string)) : (grouped keys).*1 = nub keys.*1.
Proof.
  unfold grouped. rewrite <- list_fmap_compose.
  rewrite (list_fmap_ext _ id (nub keys.*1)) by done. apply list_fmap_id.
Qed.

Lemma flat_map_filter_perm (ps : list string) (keys : list (string * string)) :
  NoDup ps -> (forall x, x ∈ keys -> x.1 ∈ ps) ->
  flat_map (fun p => filter (fun x => x.1 = p) keys) ps ≡ₚ keys.
Proof.
  revert keys. induction ps as [|p ps IH]; intros keys Hnd Hin.
  - destruct keys as [|x keys]; [done|].
    specialize (Hin x (list_elem_of_here _ _)). by apply elem_of_nil in Hin.
  - apply NoDup_cons in Hnd as [Hp Hnd]. cbn [flat_map].
    etrans; [|apply (filter_app_complement (fun x : string * string => x.1 = p) keys)].
    apply Permutation_app; [done|]. cbv beta.
    rewrite <- (IH (filter (fun x : string * string => ~ x.1 = p) keys) Hnd).
    2:{ intros x [Hne Hx]%list_elem_of_filter. specialize (Hin x Hx).
        apply elem_of_cons in Hin as [?|?]; done. }
    assert (Heq : forall q, q ∈ ps ->
      filter (fun x : string * string => x.1 = q) keys
      = filter (fun x : string * string => x.1 = q)
               (filter (fun x : string * string => ~ x.1 = p) keys)).
    { intros q Hq. rewrite list_filter_filter. apply list_filter_iff.
      intros x. split; [|tauto]. intros ->. split; [done|]. by intros ->. }
    clear IH Hnd Hin. induction ps as [|q ps IH]; [done|].
    cbn [flat_map]. rewrite Heq by left. apply Permutation_app; [done|].
    apply IH; [|intros q' Hq'; apply Heq; by right].
    intros Hp'. apply Hp. by right.
Qed.

(** Every key is a candidate once. *)
Lemma search_order_perm (keys : list (string * string)) : search_order keys ≡ₚ keys.
Proof.
  unfold search_order. apply flat_map_filter_perm; [apply NoDup_nub|].
  intros x Hx. apply elem_of_nub, list_elem_of_fmap. by exists x.
Qed.

(** A gene that has PDB entries only, all of which the quality check
    rejects, keeps its annotation and the method goes on: every entry has
    been checked, once, in the order of the search, and every structure has
    been downloaded once, however the chains of the structures are spread
    over the keys. *)
Theorem set_representative_structure_all_rejected (E : External) (P : Project)
    (always_use_homology : bool) (sort_homology_by : string) (qc : QCParams)
    (force_rerun : bool) (g : Gene) (locals : Locals) (ref : string * string) :
  StructureProp.homology (structure g) = [] ->
  StructureProp.pdb (structure g) <> [] ->
  reference_sequence E P g = Ok ref ->
  Forall (fun x => qc_verdict E P qc force_rerun g ref x.1 x.2 = Ok false) (candidates g) ->
  let run :=
    set_representative_structure_gene E P always_use_homology sort_homology_by qc
      force_rerun (g, locals) in
  run.2 = Ok tt /\ run.1.1 = g /\
  qc_checks (trace run.1.2) = qc_checks (trace locals) ++ candidates g /\
  candidates g ≡ₚ od_keys (StructureProp.pdb (structure g)) /\
  downloads (trace run.1.2)
  = downloads (trace locals) ++ nub (od_keys (StructureProp.pdb (structure g))).*1.
Proof.
  intros Hhom Hpdb Href Hrej run.
  assert (Hrun : run =
    ((g, {| chain :=
              match last (mark_first (grouped (od_keys (StructureProp.pdb (structure g)))))
              with Some x => Some x.2.2 | None => chain locals end;
            trace := trace locals ++
                     flat_map (rejected_events (gene_struct_dir E P g))
                       (mark_first (grouped (od_keys (StructureProp.pdb (structure g))))) |}),
     Ok tt)).
  { unfold run. rewrite set_representative_structure_gene_use_pdb.
    2:{ rewrite Hhom. destruct (StructureProp.pdb (structure g)); [done|].
        by destruct always_use_homology. }
    rewrite pdb_search_candidates, Href.
    rewrite <- (marked_candidates g) in Hrej.
    rewrite (candidates_rejected E P qc force_rerun g ref _ locals Hrej).
    by rewrite Hhom. }
  rewrite Hrun. cbn [fst snd trace]. split_and!; [done|done| | |].
  - by rewrite qc_checks_app, qc_checks_rejected, marked_candidates.
  - apply search_order_perm.
  - rewrite downloads_app, downloads_rejected by apply grouped_nonempty.
    by rewrite grouped_keys.
Qed.

Lemma set_representative_structure_all_rejected_witness :
  let run :=
    set_representative_structure_gene example_external_rejecting example_project true
      "seq_coverage" example_qc false
      (example_gene example_two_chains_rejected [], fresh_locals) in
  run.2 = Ok tt /\ run.1.1 = example_gene example_two_chains_rejected [] /\
  qc_checks (trace run.1.2) = [("1abc", "A"); ("1abc", "C"); ("4mis", "B")] /\
  downloads (trace run.1.2) = ["1abc"; "4mis"].
Proof.
  destruct (set_representative_structure_all_rejected example_external_rejecting
              example_project true "seq_coverage" example_qc false
              (example_gene example_two_chains_rejected []) fresh_locals
              ("P00001", "MKV")) as (Hok & Hg & Hqc & _ & Hdl).
  - reflexivity.
  - discriminate.
  - reflexivity.
  - repeat constructor.
  - split_and!; [exact Hok | exact Hg | exact Hqc | exact Hdl].
Defined.

(** ** Running an ingestor again *)

Lemma od_update_keys_elem {K V} `{EqDecision K} (d new : list (K * V)) k :
  k ∈ od_keys (od_update d new) <-> k ∈ od_keys d \/ k ∈ od_keys new.
Proof.
  split; [apply od_update_keys_incl|].
  rewrite <- !od_get_is_Some, od_get_update. intros [[v Hv]|Hnew].
  - rewrite Hv. by destruct (od_get k (reverse new)).
  - assert (Hrev : is_Some (od_get k (reverse new))).
    { apply od_get_is_Some. apply od_get_is_Some in Hnew.
      unfold od_keys in *. by rewrite fmap_reverse, elem_of_reverse. }
    destruct Hrev as [v ->]. done.
Qed.

Lemma filter_fresh_nil (d l : pdb_annotation) :
  (forall k, k ∈ od_keys l -> k ∈ od_keys d) ->
  filter (fun kv => negb (od_mem kv.1 d)) l = [].
Proof.
  intros Hsub. apply filter_none. intros [k v] Hin Hp. cbn in Hp.
  apply Is_true_true, negb_true_iff, od_mem_false in Hp. apply Hp, Hsub.
  apply list_elem_of_fmap. by exists (k, v).
Qed.

Lemma filter_fresh_all (d l : pdb_annotation) :
  (forall k, k ∈ od_keys l -> k ∉ od_keys d) ->
  filter (fun kv => negb (od_mem kv.1 d)) l = l.
Proof.
  intros Hfresh. induction l as [|[k v] l IH]; [done|].
  rewrite filter_cons_True.
  - f_equal. apply IH. intros k' Hk'. apply Hfresh. by right.
  - cbn. apply Is_true_true, negb_true_iff, od_mem_false, Hfresh. left.
Qed.

Lemma merge_blast_covered (m to_add : pdb_annotation) :
  (forall k, k ∈ od_keys to_add -> k ∈ od_keys m) -> merge_blast m to_add = m.
Proof.
  intros Hkeys. unfold merge_blast. destruct m as [|kv0 m'].
  - destruct to_add as [|[k v] to_add]; [done|].
    specialize (Hkeys k (list_elem_of_here _ _)). by apply elem_of_nil in Hkeys.
  - by rewrite filter_fresh_nil.
Qed.

Lemma merge_blast_idemp (current to_add : pdb_annotation) :
  merge_blast (merge_blast current to_add) to_add = merge_blast current to_add.
Proof.
  apply merge_blast_covered.
  intros k Hk. unfold merge_blast. apply od_update_keys_elem.
  destruct current as [|kv0 cur]; [by right|].
  set (cur' := kv0 :: cur) in *.
  destruct (decide (k ∈ od_keys cur')) as [Hin|Hnin]; [by left|right].
  apply od_update_keys_elem. right.
  apply list_elem_of_fmap in Hk as ([k' v] & -> & Hin).
  apply list_elem_of_fmap. exists (k', v). split; [done|].
  apply list_elem_of_filter. split; [|done]. cbn.
  by apply Is_true_true, negb_true_iff, od_mem_false.
Qed.

Lemma merge_ranked_idemp (current to_add : pdb_annotation) :
  od_wf current -> od_wf to_add ->
  merge_ranked (merge_ranked current to_add) to_add = merge_ranked current to_add.
Proof.
  intros Hcur Hadd.
  assert (Hwf : od_wf (merge_ranked current to_add)) by by apply merge_ranked_wf.
  rewrite (merge_ranked_app (merge_ranked current to_add)) by done.
  rewrite (merge_ranked_app current) by done.
  rewrite filter_app, filter_fresh_nil by done. cbn [app]. f_equal.
  rewrite list_filter_filter. apply list_filter_iff. intros kv. tauto.
Qed.

(** The ranked ingestor, run again on the gene it has left and with the
    same answers of the services, leaves the gene as it is and ends as it
    ended before: the ranked entries are not stored twice and keep their
    places. *)
Theorem map_uniprot_to_pdb_gene_idempotent (E : External) (P : Project)
    (seq_ident_cutoff : Q) (force_rerun : bool) (g : Gene) :
  od_wf (StructureProp.pdb (structure g)) ->
  let run := map_uniprot_to_pdb_gene E P seq_ident_cutoff force_rerun g in
  map_uniprot_to_pdb_gene E P seq_ident_cutoff force_rerun run.1 = run.
Proof.
  intros Hwf. unfold map_uniprot_to_pdb_gene. munfold.
  destruct (uniprot_acc (SequenceProp.representative (sequence g))) as [uid|] eqn:Hacc;
    [|cbn [fst snd]; by rewrite Hacc].
  destruct (negb (truthy uid)) eqn:Htruthy; [cbn [fst snd]; by rewrite Hacc, Htruthy|].
  destruct (best_structures E uid _ (op_join E (sequence_dir P) (gene_id g)) _ _)
    as [[|bs0 best]|] eqn:Hbest;
    [cbn [fst snd]; by rewrite Hacc, Htruthy, Hbest|
    |cbn [fst snd]; by rewrite Hacc, Htruthy, Hbest].
  destruct (ranked_to_add E uid (bs0 :: best) 1 []) as [to_add|e] eqn:Hrun;
    [|cbn [fst snd]; by rewrite Hacc, Htruthy, Hbest, Hrun].
  cbn [fst snd sequence set_structure gene_id]. rewrite Hacc, Htruthy, Hbest, Hrun.
  cbn [fst snd structure set_structure StructureProp.pdb StructureProp.set_pdb].
  rewrite merge_ranked_idemp; [done|done|].
  eapply ranked_to_add_wf; [|exact Hrun]. apply NoDup_nil_2.
Qed.

Lemma map_uniprot_to_pdb_gene_idempotent_witness :
  let run :=
    map_uniprot_to_pdb_gene example_external example_project 0 false
      (example_gene [(("3def", "A"), example_blast_entry);
                     (("1abc", "A"), example_blast_entry)] []) in
  map_uniprot_to_pdb_gene example_external example_project 0 false run.1 = run.
Proof.
  apply (map_uniprot_to_pdb_gene_idempotent example_external example_project 0%Q false
           (example_gene [(("3def", "A"), example_blast_entry);
                          (("1abc", "A"), example_blast_entry)] [])).
  apply (bool_decide_unpack _). vm_compute. exact I.
Defined.

(** The BLAST ingestor, run again on the gene it has left and with the same
    answers of the services, leaves the gene as it is and ends as it ended
    before, with [all_genes] or without: no entry is added twice. *)
Theorem blast_seqs_to_pdb_gene_idempotent (E : External) (P : Project)
    (seq_ident_cutoff evalue : Q) (all_genes force_rerun display_link : bool)
    (s : Gene * list event) (tr : list event) :
  let run :=
    blast_seqs_to_pdb_gene E P seq_ident_cutoff evalue all_genes force_rerun display_link s in
  let again :=
    blast_seqs_to_pdb_gene E P seq_ident_cutoff evalue all_genes force_rerun display_link
      (run.1.1, tr) in
  again.1.1 = run.1.1 /\ again.2 = run.2.
Proof.
  destruct s as [g tr0]. unfold blast_seqs_to_pdb_gene. munfold. cbn [fst snd].
  destruct (seq_file (SequenceProp.representative (sequence g))) as [f|] eqn:Hf;
    [|cbn [fst snd]; by rewrite Hf].
  destruct (negb (truthy f)) eqn:Htruthy; [cbn [fst snd]; by rewrite Hf, Htruthy|].
  destruct (split_folder_and_path E f) as [[seq_dir seq_name] seq_ext] eqn:Hsplit.
  destruct (bool_decide (StructureProp.pdb (structure g) <> []) && negb all_genes) eqn:Hskip.
  { cbn [fst snd]. by rewrite Hf, Htruthy, Hsplit, Hskip. }
  destruct (read_fasta_seq E (op_join E (op_join E (sequence_dir P) (gene_id g)) f))
    as [seq_str|] eqn:Hread.
  2:{ cbn [fst snd]. by rewrite Hf, Htruthy, Hsplit, Hskip, Hread. }
  cbn [fst snd].
  destruct (blast_pdb E seq_str _ (op_join E (sequence_dir P) (gene_id g)) _ _ _ _)
    as [[|hit hits]|] eqn:Hblast.
  1,3: cbn [fst snd]; by rewrite Hf, Htruthy, Hsplit, Hskip, Hread, Hblast.
  destruct (blast_to_add E (hit :: hits) []) as [to_add|e] eqn:Hadd.
  2:{ cbn [fst snd]. by rewrite Hf, Htruthy, Hsplit, Hskip, Hread, Hblast, Hadd. }
  cbn [fst snd sequence structure set_structure gene_id StructureProp.pdb
       StructureProp.set_pdb].
  rewrite Hf, Htruthy, Hsplit.
  set (m := merge_blast (StructureProp.pdb (structure g)) to_add).
  destruct (bool_decide (m <> []) && negb all_genes) eqn:Hskip'; [done|].
  rewrite Hread. cbn [fst snd]. rewrite Hblast, Hadd.
  cbn [fst snd sequence structure set_structure gene_id StructureProp.pdb
       StructureProp.set_pdb].
  unfold m. by rewrite merge_blast_idemp.
Qed.

(** ** Manual homology models: the run without error *)

Lemma set_homology_same (g : Gene) :
  set_structure (StructureProp.set_homology (StructureProp.homology (structure g))
                   (structure g)) g = g.
Proof. by destruct g as [? ? []]. Qed.

(** When every model given for a gene of the project has a file that can be
    copied, [manual_homology_models] ends without exception and every gene
    has its models: a model whose identifier the gene has already replaces
    the old one at its place, the others are appended in the order of the
    input. What the input has for identifiers that are no genes of the
    project is passed over without notice. *)
Theorem manual_homology_models_ok (E : External) (P : Project)
    (input_dict : list (string * list (string * gmap string value)))
    (genes : list Gene) (tr : list event) :
  Forall (fun g =>
            Forall (model_copied E (op_join E (structure_single_chain_dir P) (gene_id g)))
                   (manual_models input_dict g)) genes ->
  manual_homology_models E P input_dict (genes, tr) =
  ((with_manual_models input_dict <$> genes,
    tr ++ flat_map (fun g =>
                      flat_map (model_events
                                  (op_join E (structure_single_chain_dir P) (gene_id g)))
                               (manual_models input_dict g)) genes),
   Ok tt).
Proof.
  unfold manual_homology_models, for_genes. cbn [fst snd]. intros Hok. revert tr.
  induction Hok as [|g genes Hg _ IH]; intros tr; cbn [for_genes_from].
  - by rewrite app_nil_r.
  - assert (Hstep : manual_homology_models_gene E P input_dict (g, tr) =
      ((with_manual_models input_dict g,
        tr ++ flat_map (model_events (op_join E (structure_single_chain_dir P) (gene_id g)))
                       (manual_models input_dict g)), Ok tt)).
    { unfold manual_homology_models_gene, with_manual_models, manual_models in *.
      munfold. cbn [fst snd].
      destruct (od_get (gene_id g) input_dict) as [models|]; cbn [default] in *.
      - by apply manual_homology_entries_ok.
      - cbn. by rewrite app_nil_r, set_homology_same. }
    rewrite Hstep, IH. rewrite fmap_cons. cbn [flat_map]. by rewrite <- app_assoc.
Qed.

Lemma manual_homology_models_ok_witness :
  manual_homology_models example_external example_project
    [("b0001", [("model2", example_model "/models/new2.pdb" 1);
                ("model9", example_model "/models/model9.pdb" (5 # 10))]);
     ("b9999", [("model1", {[ "seq_coverage" := VNum 1 ]})])]
    ([example_gene [] example_homology; new_gene "b0002"], [])
  = (([example_gene []
         [("model1", example_model "/models/model1.pdb" (8 # 10));
          ("model2", example_model "/models/new2.pdb" 1);
          ("model3", example_model "/models/model3.pdb" (95 # 100));
          ("model9", example_model "/models/model9.pdb" (5 # 10))];
       new_gene "b0002"],
      [EvEnsureDir "structures/by_gene/b0001";
       EvCopy2 "/models/new2.pdb" "structures/by_gene/b0001";
       EvEnsureDir "structures/by_gene/b0001";
       EvCopy2 "/models/model9.pdb" "structures/by_gene/b0001"]), Ok tt).
Proof.
  apply (manual_homology_models_ok example_external example_project
           [("b0001", [("model2", example_model "/models/new2.pdb" 1);
                       ("model9", example_model "/models/model9.pdb" (5 # 10))]);
            ("b9999", [("model1", {[ "seq_coverage" := VNum 1 ]})])]
           [example_gene [] example_homology; new_gene "b0002"] []).
  repeat constructor; eexists; split; reflexivity.
Defined.

(** ** Manual sequences for an identifier that is no gene *)

Lemma on_gene_by_id_unknown {F A} (g : string) (c : M (Gene * F) A) (s : list Gene * F) :
  g ∉ gene_id <$> s.1 -> on_gene_by_id g c s = (s, Raise KeyError).
Proof.
  intros Hg. unfold on_gene_by_id.
  destruct (list_find _ s.1) as [[i gene]|] eqn:Hfind; [|done].
  apply list_find_Some in Hfind as (Hi & Hid & _). exfalso. apply Hg.
  apply list_elem_of_fmap. exists gene. split; [done|].
  by eapply list_elem_of_lookup_2.
Qed.

(** [manual_seq_mapping] raises [KeyError] at the first identifier that is
    no gene of the project: the sequences given before it have been stored,
    the ones after it have not. *)
Theorem manual_seq_mapping_unknown_gene (E : External) (P : Project)
    (l1 l2 : list (string * string)) (g s : string) (st : list Gene * list event) :
  (manual_seq_mapping E P l1 st).2 = Ok tt ->
  g ∉ gene_id <$> st.1 ->
  manual_seq_mapping E P (l1 ++ (g, s) :: l2) st
  = ((manual_seq_mapping E P l1 st).1, Raise KeyError).
Proof.
  intros Hok Hg. unfold manual_seq_mapping in *. rewrite for_each_app.
  pose proof (manual_seq_mapping_frame E P l1 st) as Hframe.
  unfold manual_seq_mapping in Hframe.
  destruct (for_each _ l1 st) as [st1 r]. cbn [fst snd] in *. subst r.
  cbn [for_each]. unfold bind. cbn [fst snd].
  rewrite on_gene_by_id_unknown; [done|].
  assert (Hids : gene_id <$> st1.1 = gene_id <$> st.1).
  { clear Hg. induction Hframe as [|x y l l' (Hid & _) _ IH]; [done|].
    rewrite !fmap_cons. by rewrite Hid, IH. }
  by rewrite Hids.
Qed.

Lemma manual_seq_mapping_unknown_gene_witness :
  manual_seq_mapping example_external example_project
    ([("b0002", "MKVL")] ++ ("b9999", "MKV") :: [("b0001", "MK")])
    ([example_gene [] []; new_gene "b0002"], [])
  = ((manual_seq_mapping example_external example_project [("b0002", "MKVL")]
        ([example_gene [] []; new_gene "b0002"], [])).1, Raise KeyError).
Proof.
  apply (manual_seq_mapping_unknown_gene example_external example_project
           [("b0002", "MKVL")] [("b0001", "MK")] "b9999" "MKV"
           ([example_gene [] []; new_gene "b0002"], [])).
  - reflexivity.
  - apply (bool_decide_unpack _). vm_compute. exact I.
Defined.

(** ** A homology model without the sort key *)

Lemma sorted_homology_ids_missing_key (sort_homology_by : string)
    (hm : list (string * gmap string value)) (hid : string) (model : gmap string value) :
  od_wf hm -> (hid, model) ∈ hm -> model !! sort_homology_by = None ->
  sorted_homology_ids sort_homology_by hm = Raise KeyError.
Proof.
  intros Hwf Hin Hmiss. unfold sorted_homology_ids.
  assert (Hfail : forall l : list (string * gmap string value),
    (forall i m, l !! i = Some m -> od_get m.1 hm = Some m.2) ->
    (hid, model) ∈ l ->
    res_mapM (fun x =>
      res_bind (subscript (od_get x hm)) (fun d =>
      res_bind (subscript (d !! sort_homology_by)) (fun k => Ok (x, k)))) l.*1
    = Raise KeyError).
  { induction l as [|[k d] l IH]; intros Hget Hl; [by apply elem_of_nil in Hl|].
    rewrite fmap_cons. cbn [res_mapM fst].
    pose proof (Hget 0%nat (k, d) eq_refl) as H0. cbn [fst snd] in H0.
    rewrite H0. cbn [subscript res_bind snd].
    destruct (d !! sort_homology_by) as [v|] eqn:Hd; [|done]. cbn [res_bind].
    rewrite IH; [done| |].
    - intros i m Hi. by apply (Hget (S i)).
    - apply elem_of_cons in Hl as [[= <- <-]|Hl]; [congruence|done]. }
  unfold od_keys. rewrite Hfail; [done| |done].
  intros i [k d] Hi. by eapply od_get_lookup.
Qed.

Lemma set_representative_structure_gene_homology_only E P always_use_homology
    sort_homology_by qc force_rerun (g : Gene) (locals : Locals) :
  StructureProp.pdb (structure g) = [] ->
  StructureProp.homology (structure g) <> [] ->
  set_representative_structure_gene E P always_use_homology sort_homology_by qc
    force_rerun (g, locals)
  = use_homology_model E sort_homology_by (gene_struct_dir E P g) (g, locals).
Proof.
  intros Hp Hh. unfold set_representative_structure_gene, select_source. munfold.
  cbn [fst snd]. rewrite Hp.
  destruct (StructureProp.homology (structure g)) as [|m hm] eqn:Hhm; [done|].
  cbn [length Nat.ltb Nat.leb negb andb orb].
  destruct always_use_homology; cbn [fst snd andb negb];
    by destruct (use_homology_model _ _ _ _) as [? [[]|?]].
Qed.

(** A gene that has homology models only, one of which lacks the key by
    which the models are sorted, makes [set_representative_structure] raise
    [KeyError], whether or not that model would be the top one; nothing has
    been written. *)
Theorem set_representative_structure_missing_sort_key (E : External) (P : Project)
    (always_use_homology : bool) (sort_homology_by : string) (qc : QCParams)
    (force_rerun : bool) (g : Gene) (locals : Locals)
    (hid : string) (model : gmap string value) :
  StructureProp.pdb (structure g) = [] ->
  od_wf (StructureProp.homology (structure g)) ->
  (hid, model) ∈ StructureProp.homology (structure g) ->
  model !! sort_homology_by = None ->
  set_representative_structure_gene E P always_use_homology sort_homology_by qc
    force_rerun (g, locals) = ((g, locals), Raise KeyError).
Proof.
  intros Hpdb Hwf Hin Hmiss.
  rewrite set_representative_structure_gene_homology_only.
  - unfold use_homology_model. munfold. cbn [fst snd].
    by rewrite (sorted_homology_ids_missing_key _ _ hid model).
  - done.
  - intros Hnil. rewrite Hnil in Hin. by apply elem_of_nil in Hin.
Qed.

Lemma set_representative_structure_missing_sort_key_witness :
  set_representative_structure_gene example_external example_project false "tm_score"
    example_qc false
    (example_gene [] [("model1", {[ "model_file" := VStr "/models/model1.pdb";
                                    "tm_score" := VNum (9 # 10) ]});
                      ("model2", example_model "/models/model2.pdb" 1)],
     fresh_locals)
  = ((example_gene [] [("model1", {[ "model_file" := VStr "/models/model1.pdb";
                                     "tm_score" := VNum (9 # 10) ]});
                       ("model2", example_model "/models/model2.pdb" 1)],
      fresh_locals), Raise KeyError).
Proof.
  apply (set_representative_structure_missing_sort_key example_external example_project
           false "tm_score" example_qc false _ fresh_locals
           "model2" (example_model "/models/model2.pdb" 1)).
  - reflexivity.
  - apply (bool_decide_unpack _). vm_compute. exact I.
  - right. left.
  - reflexivity.
Defined.

(** ** The entries that the ingestors store *)

Lemma ascii_lower_idemp c : ascii_lower (ascii_lower c) = ascii_lower c.
Proof. destruct c as [[] [] [] [] [] [] [] []]; vm_compute; reflexivity. Qed.

Lemma ascii_upper_idemp c : ascii_upper (ascii_upper c) = ascii_upper c.
Proof. destruct c as [[] [] [] [] [] [] [] []]; vm_compute; reflexivity. Qed.

Lemma lower_idemp s : lower (lower s) = lower s.
Proof. induction s as [|c s IH]; cbn; [done|]. by rewrite ascii_lower_idemp, IH. Qed.

Lemma upper_idemp s : upper (upper s) = upper s.
Proof. induction s as [|c s IH]; cbn; [done|]. by rewrite ascii_upper_idemp, IH. Qed.

Lemma Forall_od_set {K V} `{EqDecision K} (Q : K * V -> Prop) k v (d : list (K * V)) :
  Q (k, v) -> Forall Q d -> Forall Q (od_set k v d).
Proof.
  intros Hkv. induction 1 as [|[k' v'] d Hx Hd IH]; cbn [od_set].
  - constructor; [done | constructor].
  - destruct (decide (k = k')); constructor; done.
Qed.

Lemma Forall_od_update {K V} `{EqDecision K} (Q : K * V -> Prop) (d new : list (K * V)) :
  Forall Q d -> Forall Q new -> Forall Q (od_update d new).
Proof.
  unfold od_update. intros Hd Hnew. revert d Hd.
  induction Hnew as [|[k v] new Hkv _ IH]; intros d Hd; cbn [foldl]; [done|].
  apply IH. by apply Forall_od_set.
Qed.

Lemma Forall_filter_sub {A} (Q : A -> Prop) (p : A -> Prop) `{!forall x, Decision (p x)}
    (l : list A) :
  Forall Q l -> Forall Q (filter p l).
Proof.
  rewrite !Forall_forall. intros Hl x Hx. apply Hl.
  by apply list_elem_of_filter in Hx as [_ ?].
Qed.

Lemma Forall_merge_ranked (Q : (string * string) * gmap string value -> Prop)
    (current to_add : pdb_annotation) :
  Forall Q current -> Forall Q to_add -> Forall Q (merge_ranked current to_add).
Proof.
  intros Hc Ha. unfold merge_ranked. destruct current as [|kv0 cur]; [done|].
  apply Forall_od_update; [done|]. apply Forall_od_update; [constructor|].
  by apply Forall_filter_sub.
Qed.

Lemma Forall_merge_blast (Q : (string * string) * gmap string value -> Prop)
    (current to_add : pdb_annotation) :
  Forall Q current -> Forall Q to_add -> Forall Q (merge_blast current to_add).
Proof.
  intros Hc Ha. unfold merge_blast. apply Forall_od_update; [done|].
  destruct current as [|kv0 cur]; [done|].
  apply Forall_od_update; [constructor|]. by apply Forall_filter_sub.
Qed.

Lemma best_structure_dict_consistent uniprot_id bs pdb_rel rank :
  entry_consistent ((lower (bs_pdb_id bs), upper (bs_chain_id bs)),
                    best_structure_dict uniprot_id bs pdb_rel rank).
Proof.
  unfold entry_consistent, best_structure_dict. cbn [fst snd].
  split_and!; [by vm_compute|by vm_compute| |apply lower_idemp|apply upper_idemp].
  exists (bs_coverage bs). by vm_compute.
Qed.

Lemma blast_dict_consistent pdb chain pdb_rez pdb_rel hit :
  lower pdb = pdb -> upper chain = chain ->
  entry_consistent ((pdb, chain), blast_dict pdb chain pdb_rez pdb_rel hit).
Proof.
  intros Hp Hc. unfold entry_consistent, blast_dict. cbn [fst snd].
  split_and!; [by vm_compute|by vm_compute| |done|done].
  exists (hit_percent_ident hit). by vm_compute.
Qed.

Lemma ranked_to_add_consistent E uniprot_id best rank (acc to_add : pdb_annotation) :
  Forall entry_consistent acc ->
  ranked_to_add E uniprot_id best rank acc = Ok to_add ->
  Forall entry_consistent to_add.
Proof.
  revert rank acc. induction best as [|bs best IH]; intros rank acc Hacc;
    cbn [ranked_to_add].
  - by intros [= <-].
  - destruct (get_release_date E _) as [pdb_rel|]; [|done]. apply IH.
    apply Forall_od_set; [apply best_structure_dict_consistent | done].
Qed.

Lemma blast_to_add_consistent E hits (acc to_add : pdb_annotation) :
  Forall entry_consistent acc ->
  blast_to_add E hits acc = Ok to_add ->
  Forall entry_consistent to_add.
Proof.
  revert acc. induction hits as [|hit hits IH]; intros acc Hacc; cbn [blast_to_add].
  - by intros [= <-].
  - destruct (get_resolution E _) as [pdb_rez|]; [|done].
    destruct (get_release_date E _) as [pdb_rel|]; [|done]. apply IH.
    unfold blast_chains_to_add. generalize (hit_pdb_chains hit). intros chains.
    revert acc Hacc. induction chains as [|c chains IHc]; intros acc Hacc; [done|].
    cbn [foldl]. apply IHc. apply Forall_od_set; [|done].
    apply blast_dict_consistent; [apply lower_idemp | apply upper_idemp].
Qed.

(** The ranked and the BLAST ingestor keep the [pdb] mapping consistent:
    when every entry names the structure and the chain of its key and has a
    coverage before, so does every entry afterwards, and the keys that the
    ingestors make have the identifier of the structure in lower case and
    the chain in upper case. The search of the PDB entries therefore finds the
    coverage of every candidate that the ingestors have stored. *)
Theorem pdb_ingestors_consistent (E : External) (P : Project)
    (seq_ident_cutoff evalue : Q) (all_genes force_rerun display_link : bool)
    (g : Gene) (tr : list event) :
  Forall entry_consistent (StructureProp.pdb (structure g)) ->
  Forall entry_consistent
    (StructureProp.pdb (structure
       (map_uniprot_to_pdb_gene E P seq_ident_cutoff force_rerun g).1)) /\
  Forall entry_consistent
    (StructureProp.pdb (structure
       (blast_seqs_to_pdb_gene E P seq_ident_cutoff evalue all_genes force_rerun
          display_link (g, tr)).1.1)).
Proof.
  intros Hg. split.
  - unfold map_uniprot_to_pdb_gene. munfold.
    destruct (uniprot_acc _) as [uid|]; [|done].
    destruct (negb (truthy uid)); [done|].
    destruct (best_structures E _ _ _ _ _) as [[|bs0 best]|]; [done| |done].
    destruct (ranked_to_add E uid (bs0 :: best) 1 []) as [to_add|e] eqn:Hrun; [|done].
    cbn [fst snd structure set_structure StructureProp.pdb StructureProp.set_pdb].
    apply Forall_merge_ranked; [done|].
    eapply ranked_to_add_consistent; [|exact Hrun]. constructor.
  - unfold blast_seqs_to_pdb_gene. munfold. cbn [fst snd].
    destruct (seq_file _) as [f|]; [|done].
    destruct (negb (truthy f)); [done|].
    destruct (split_folder_and_path E f) as [[seq_dir seq_name] seq_ext].
    destruct (_ && _); [done|].
    destruct (read_fasta_seq E _) as [seq_str|]; [|done]. cbn [fst snd].
    destruct (blast_pdb E _ _ _ _ _ _ _) as [[|hit hits]|]; [done| |done].
    destruct (blast_to_add E (hit :: hits) []) as [to_add|e] eqn:Hadd; [|done].
    cbn [fst snd structure set_structure StructureProp.pdb StructureProp.set_pdb].
    apply Forall_merge_blast; [done|].
    eapply blast_to_add_consistent; [|exact Hadd]. constructor.
Qed.

Lemma pdb_ingestors_consistent_witness :
  Forall entry_consistent
    (StructureProp.pdb (structure
       (map_uniprot_to_pdb_gene example_external example_project 0 false
          (example_gene [(("3def", "A"), example_pdb_entry "3DEF" "a" 1 1)] [])).1)) /\
  Forall entry_consistent
    (StructureProp.pdb (structure
       (blast_seqs_to_pdb_gene example_external example_project 0 (1 # 10000) true false
          false (example_gene [(("3def", "A"), example_pdb_entry "3DEF" "a" 1 1)] [],
                 [])).1.1)).
Proof.
  apply (pdb_ingestors_consistent example_external example_project 0%Q (1 # 10000)%Q
           true false false
           (example_gene [(("3def", "A"), example_pdb_entry "3DEF" "a" 1 1)] []) []).
  constructor; [|constructor].
  apply (best_structure_dict_consistent "P00001" (example_best_structure "3DEF" "a" 1)).
Defined.

(** ** The structures mapped to a gene: [get_pdbs_for_gene] *)

Lemma tuple_slice_4_pair (x : string * string) : tuple_slice_4 x = [x.1; x.2].
Proof. reflexivity. Qed.

#[local] Instance tuple_slice_4_inj : Inj (=) (=) tuple_slice_4.
Proof. intros [a b] [c d]. rewrite !tuple_slice_4_pair. cbn. congruence. Qed.

Lemma get_by_id_unknown (genes : list Gene) (g : string) :
  g ∉ gene_id <$> genes -> get_by_id genes g = Raise KeyError.
Proof.
  intros Hg. unfold get_by_id.
  destruct (list_find _ genes) as [[i gene]|] eqn:Hfind; [|done].
  apply list_find_Some in Hfind as (Hi & Hid & _). exfalso. apply Hg.
  apply list_elem_of_fmap. exists gene. split; [done|].
  by eapply list_elem_of_lookup_2.
Qed.

Lemma get_by_id_known (genes : list Gene) (i : nat) (gene : Gene) :
  NoDup (gene_id <$> genes) -> genes !! i = Some gene ->
  get_by_id genes (gene_id gene) = Ok gene.
Proof.
  intros Hnd Hi. unfold get_by_id.
  destruct (list_find _ genes) as [[j gene']|] eqn:Hfind.
  - apply list_find_Some in Hfind as (Hj & Hid & _). cbn.
    assert (i = j) as ->; [|congruence].
    eapply NoDup_lookup; [exact Hnd| |]; rewrite list_lookup_fmap.
    + by rewrite Hi.
    + rewrite Hj. cbn. by rewrite Hid.
  - apply list_find_None in Hfind.
    exfalso. eapply (proj1 (Forall_lookup _ _) Hfind); eauto.
Qed.

(** [get_pdbs_for_gene] slices the keys of the [pdb] mapping, which are
    pairs of a structure and a chain, not the identifiers of the structures:
    a slice of a pair is the pair. The result has one element for every
    entry of the mapping, the pair of its key, and not one for every
    structure; an identifier that is no gene raises [KeyError]. *)
Theorem get_pdbs_for_gene_keys (genes : list Gene) (i : nat) (gene : Gene) :
  NoDup (gene_id <$> genes) ->
  genes !! i = Some gene ->
  od_wf (StructureProp.pdb (structure gene)) ->
  (exists pdbs,
     get_pdbs_for_gene genes (ByGene gene) = Ok pdbs /\
     get_pdbs_for_gene genes (ById (gene_id gene)) = Ok pdbs /\
     pdbs ≡ₚ (fun x => [x.1; x.2]) <$> od_keys (StructureProp.pdb (structure gene)) /\
     length pdbs = length (StructureProp.pdb (structure gene))) /\
  (forall g, g ∉ gene_id <$> genes -> get_pdbs_for_gene genes (ById g) = Raise KeyError).
Proof.
  intros Hnd Hi Hwf. split.
  - unfold get_pdbs_for_gene. rewrite (get_by_id_known genes i gene Hnd Hi).
    cbn [res_bind].
    destruct (decide (StructureProp.pdb (structure gene) = [])) as [Hnil|Hne].
    { rewrite Hnil. exists []. cbn. by split_and!. }
    assert (Hlt : (0 <? length (StructureProp.pdb (structure gene)))%nat = true).
    { by destruct (StructureProp.pdb (structure gene)). }
    rewrite Hlt. eexists. split_and!; [done|done| |].
    + rewrite elements_list_to_set.
      * apply Permutation_refl' . apply list_fmap_ext. by intros ? [].
      * apply (NoDup_fmap_2 _). exact Hwf.
    + rewrite elements_list_to_set by (apply (NoDup_fmap_2 _); exact Hwf).
      unfold od_keys. by rewrite !length_fmap.
  - intros g Hg. unfold get_pdbs_for_gene. by rewrite get_by_id_unknown.
Qed.

Lemma get_pdbs_for_gene_keys_witness :
  exists pdbs,
    get_pdbs_for_gene [example_gene example_two_chains_rejected []] (ById "b0001") = Ok pdbs /\
    pdbs ≡ₚ [["1abc"; "A"]; ["4mis"; "B"]; ["1abc"; "C"]] /\
    length pdbs = 3%nat.
Proof.
  destruct (get_pdbs_for_gene_keys [example_gene example_two_chains_rejected []] 0
              (example_gene example_two_chains_rejected []))
    as [(pdbs & _ & Hid & Hperm & Hlen) _].
  - apply (bool_decide_unpack _). vm_compute. exact I.
  - reflexivity.
  - apply (bool_decide_unpack _). vm_compute. exact I.
  - exists pdbs. split_and!; [exact Hid | exact Hperm | exact Hlen].
Defined.

(** ** I-TASSER models *)

Lemma od_set_elem {K V} `{EqDecision K} (k : K) (v : V) (d : list (K * V)) kv :
  od_wf d -> kv ∈ od_set k v d -> kv = (k, v) \/ (kv ∈ d /\ kv.1 <> k).
Proof.
  unfold od_wf, od_keys. induction d as [|[k' v'] d IH]; intros Hwf; cbn [od_set].
  - intros ->%list_elem_of_singleton. by left.
  - rewrite fmap_cons in Hwf. apply NoDup_cons in Hwf as [Hk' Hwf]. cbn [fst] in Hk'.
    destruct (decide (k = k')) as [->|Hne].
    + intros [->|Hin]%elem_of_cons; [by left|].
      right. split; [by right|]. intros Heq. apply Hk'.
      apply list_elem_of_fmap. by exists kv.
    + intros [->|Hin]%elem_of_cons.
      * right. split; [left | cbn; congruence].
      * destruct (IH Hwf Hin) as [->|[Hin' Hneq]]; [by left|].
        right. split; [by right | done].
Qed.

(** [get_itasser_models] stores the model of a gene under the identifier of
    the gene, with a coverage of 1 whatever the parser has reported: a model
    that the gene has under that identifier is replaced at its place, the
    other models are as they were. When the other models have a coverage
    below 1, the I-TASSER model is the top one for the representative
    structure sorted by ["seq_coverage"]. *)
Theorem get_itasser_models_gene_top (D : Services) (E : External) (P : Project)
    (homology_raw_dir : string) (custom_itasser_name_mapping : list (string * string))
    (g : Gene) (rows : list (string * gmap string value)) (tr : list event)
    (info : gmap string value) :
  od_wf (StructureProp.homology (structure g)) ->
  organize_itasser_models D
    (orig_itasser_dir E homology_raw_dir custom_itasser_name_mapping (gene_id g))
    (gene_struct_dir E P g) (gene_id g) = Some info ->
  info <> ∅ ->
  Forall (fun m => m.1 <> gene_id g ->
                   exists q, m.2 !! "seq_coverage" = Some (VNum q) /\ (q < 1)%Q)
         (StructureProp.homology (structure g)) ->
  let run :=
    get_itasser_models_gene D E P homology_raw_dir custom_itasser_name_mapping
      (g, (rows, tr)) in
  let stored := <["seq_coverage" := VNum 1]> info in
  run = ((set_structure
            (StructureProp.set_homology
               (od_set (gene_id g) stored (StructureProp.homology (structure g)))
               (structure g)) g,
          (rows ++ [(gene_id g, stored)], tr ++ [EvEnsureDir (gene_struct_dir E P g)])),
         Ok tt) /\
  od_get (gene_id g) (StructureProp.homology (structure run.1.1)) = Some stored /\
  (forall hid, hid <> gene_id g ->
     od_get hid (StructureProp.homology (structure run.1.1))
     = od_get hid (StructureProp.homology (structure g))) /\
  exists rest,
    sorted_homology_ids "seq_coverage" (StructureProp.homology (structure run.1.1))
    = Ok (gene_id g :: rest).
Proof.
  intros Hwf Hinfo Hne Hothers run stored.
  assert (Hrun : run =
    ((set_structure
        (StructureProp.set_homology
           (od_set (gene_id g) stored (StructureProp.homology (structure g)))
           (structure g)) g,
      (rows ++ [(gene_id g, stored)], tr ++ [EvEnsureDir (gene_struct_dir E P g)])),
     Ok tt)).
  { unfold run, get_itasser_models_gene. munfold. cbn [fst snd].
    unfold gene_struct_dir in Hinfo. rewrite Hinfo. cbn [fst snd].
    by rewrite bool_decide_true by done. }
  rewrite Hrun. cbn [fst snd structure set_structure StructureProp.homology
                     StructureProp.set_homology].
  set (hm := StructureProp.homology (structure g)) in *.
  split_and!; [done| | |].
  - rewrite od_get_set. by rewrite decide_True.
  - intros hid Hhid. rewrite od_get_set. by rewrite decide_False.
  - assert (Hwf' : od_wf (od_set (gene_id g) stored hm)) by by apply od_set_wf.
    assert (Hcov : forall m, m ∈ od_set (gene_id g) stored hm ->
              (m = (gene_id g, stored) /\ homology_key "seq_coverage" m = VNum 1) \/
              (exists q, homology_key "seq_coverage" m = VNum q /\ (q < 1)%Q /\
                         m.2 !! "seq_coverage" = Some (VNum q))).
    { intros m Hm. destruct (od_set_elem _ _ _ _ Hwf Hm) as [->|[Hin Hneq]].
      - left. split; [done|]. unfold homology_key, stored. cbn [snd].
        by rewrite lookup_insert_eq.
      - right. destruct (proj1 (Forall_forall _ _) Hothers m Hin Hneq) as (q & Hq & Hlt).
        exists q. unfold homology_key. by rewrite Hq. }
    destruct (sorted_homology_ids_first_max "seq_coverage" _ Hwf')
      as (i & hid & model & rest & Hfm & Hsorted & Hget).
    + apply Forall_forall. intros m Hm.
      destruct (Hcov m Hm) as [[-> _]|(q & _ & _ & Hq)]; [|by rewrite Hq].
      unfold stored. cbn [snd]. by rewrite lookup_insert_eq.
    + unfold sortable. apply orb_true_iff. left. apply orb_true_iff. right.
      apply forallb_forall. intros v Hv. apply list_elem_of_In in Hv.
      apply list_elem_of_fmap in Hv as (m & -> & Hm).
      by destruct (Hcov m Hm) as [[_ ->]|(q & -> & _)].
    + intros Hnil. apply (f_equal (od_get (gene_id g))) in Hnil.
      rewrite od_get_set, decide_True in Hnil by done. done.
    + exists rest. rewrite Hsorted. do 2 f_equal.
      destruct Hfm as (Hi & Hmax & _).
      assert (Htop : (gene_id g, stored) ∈ od_set (gene_id g) stored hm).
      { apply od_get_Some_elem. rewrite od_get_set. by rewrite decide_True. }
      specialize (Hmax _ Htop).
      destruct (Hcov (hid, model)) as [[[= -> _] _]|(q & Hq & Hlt & _)];
        [by eapply list_elem_of_lookup_2|done|].
      destruct (Hcov _ Htop) as [[_ Htopkey]|(q' & Hq' & Hlt' & Hq'')].
      * rewrite Hq, Htopkey in Hmax. cbn in Hmax.
        apply negb_false_iff, Qle_bool_iff in Hmax.
        exfalso. by apply (Qlt_not_le _ _ Hlt).
      * unfold stored in Hq''. cbn [snd] in Hq''. rewrite lookup_insert_eq in Hq''.
        injection Hq'' as <-. by apply Qlt_irrefl in Hlt'.
Qed.

(** ** The KEGG mapping *)

Lemma split_on_nonempty (sep : ascii) (s : string) : split_on sep s <> [].
Proof.
  induction s as [|c s IH]; cbn [split_on]; [done|].
  destruct (Ascii.eqb c sep); [done|]. by destruct (split_on sep s).
Qed.

(** Joining the pieces with the separator gives the text back. *)
Lemma split_on_concat (sep : ascii) (s : string) :
  String.concat (String sep EmptyString) (split_on sep s) = s.
Proof.
  induction s as [|c s IH]; cbn [split_on]; [done|].
  destruct (Ascii.eqb c sep) eqn:Hc.
  - apply Ascii.eqb_eq in Hc as ->. cbn [concat].
    pose proof (split_on_nonempty sep s) as Hne.
    destruct (split_on sep s) as [|w ws]; [done|]. by rewrite <- IH.
  - pose proof (split_on_nonempty sep s) as Hne.
    destruct (split_on sep s) as [|w ws]; [done|].
    rewrite <- IH. cbn [concat]. by destruct ws.
Qed.

(** What a step of the loop that has returned has done. *)
Lemma kegg_mapping_gene_ok (D : Services) (E : External) (P : Project)
    (kegg_organism_code : string) (custom_gene_mapping : list (string * string))
    (force_rerun : bool) (kegg_to_uniprot : gmap string string)
    (g g' : Gene) (rows rows' : list (string * KeggDict)) (tr tr' : list event) :
  kegg_mapping_gene D E P kegg_organism_code custom_gene_mapping force_rerun
    kegg_to_uniprot (g, (rows, tr)) = ((g', (rows', tr')), Ok tt) ->
  exists kegg_dict,
    g' = set_sequence (set_kegg (update_kegg (SequenceProp.kegg (sequence g)) kegg_dict)
                         (sequence g)) g /\
    rows' = rows ++ [(gene_id g, kegg_dict)] /\
    tr' = tr ++ [EvEnsureDir (op_join E (sequence_dir P) (gene_id g))] /\
    (match custom_gene_mapping with
     | [] => True
     | _ :: _ => is_Some (od_get (gene_id g) custom_gene_mapping)
     end) /\
    let file :=
      kegg_sequence_file D E P kegg_organism_code custom_gene_mapping force_rerun g in
    kd_kegg_id kegg_dict
    = (fun _ => kegg_organism_code +:+ ":" +:+ kegg_gene custom_gene_mapping g) <$> file /\
    kd_seq_file kegg_dict = op_basename E <$> file /\
    (is_Some (kd_seq_len kegg_dict) <-> is_Some file) /\
    (forall f, file = Some f -> kd_seq_len kegg_dict = fasta_seq_len D f) /\
    kd_uniprot_acc kegg_dict = kegg_to_uniprot !! kegg_gene custom_gene_mapping g /\
    (forall ps, kd_pdbs kegg_dict = Some ps ->
       ps <> [] /\ is_Some (kd_metadata_file kegg_dict) /\
       exists text, ps = split_on " " text /\ String.concat " " ps = text).
Proof.
  unfold kegg_mapping_gene, kegg_sequence_file, kegg_gene. munfold. cbn [fst snd].
  set (kegg_g := match custom_gene_mapping with
                 | [] => Ok (gene_id g)
                 | _ :: _ => match od_get (gene_id g) custom_gene_mapping with
                             | Some a => Ok a
                             | None => Raise KeyError
                             end
                 end).
  assert (Hg : (exists e, kegg_g = Raise e) \/
               (kegg_g = Ok (default (gene_id g) (od_get (gene_id g) custom_gene_mapping)) /\
                match custom_gene_mapping with
                | [] => True
                | _ :: _ => is_Some (od_get (gene_id g) custom_gene_mapping)
                end)).
  { unfold kegg_g. destruct custom_gene_mapping as [|kv l]; [by right|].
    destruct (od_get (gene_id g) (kv :: l)); [right; eauto | left; eauto]. }
  destruct Hg as [[e ->]|[-> Hcustom]]; [done|].
  set (kg := default (gene_id g) (od_get (gene_id g) custom_gene_mapping)).
  cbn [fst snd].
  destruct (download_kegg_gene_metadata D _ kg _ _) as [metadata_file|]; [|done].
  cbn [fst snd].
  set (md := match found metadata_file with Some f => _ | None => _ end).
  assert (Hmd : forall s1, (exists e, md s1 = (s1, Raise e)) \/
    exists m : option string * option (list string),
      md s1 = (s1, Ok m) /\
      forall ps, m.2 = Some ps ->
        ps <> [] /\ is_Some m.1 /\
        exists text, ps = split_on " " text /\ String.concat " " ps = text).
  { intros s1. unfold md. destruct (found metadata_file) as [f|].
    2:{ right. exists (None, None). by split. }
    destruct (kegg_parse D f) as [parsed|]; [|left; eauto]. cbn [fst snd].
    destruct (kp_structure parsed) as [st|].
    2:{ right. eexists (_, None). by split. }
    destruct (st !! "PDB") as [text|]; [|left; eauto]. cbn [fst snd].
    right. eexists (_, Some _). split; [done|]. intros ps [= <-].
    split_and!; [apply split_on_nonempty | done |].
    exists text. split; [done | apply (split_on_concat " ")]. }
  match goal with |- context [md ?s1] => destruct (Hmd s1) as [[e ->]|(m & -> & Hm)] end;
    [done|]. clear md Hmd.
  cbn [fst snd].
  destruct (download_kegg_aa_seq D _ kg _ _) as [sequence_file|]; [|done].
  cbn [fst snd mbind option_bind].
  destruct (found sequence_file) as [f|] eqn:Hfound.
  - destruct (fasta_seq_len D f) as [n|] eqn:Hn; [|done]. cbn [fst snd].
    intros [= <- <- <-]. eexists. split_and!; try done; cbn.
    all: first [ by split; eauto | by intros ? [= <-] ].
  - cbn [fst snd]. intros [= <- <- <-]. eexists. split_and!; try done; cbn.
    all: split; by intros [? ?].
Qed.

(** A gene for which the KEGG mapping has run. When the service has a
    sequence for the gene, the [kegg] record holds the KEGG identifier, the
    name of the file and the length of the sequence, and on a gene without
    UniProt entry the resolver makes this record the representative. When it
    has none, the three slots are as they were before the run, whatever else
    the run has stored: on a gene that had no KEGG sequence and has no
    UniProt entry the resolver sets nothing. A list of PDBs that the run has
    stored is never empty. *)
Theorem kegg_mapping_gene_sequence (D : Services) (E : External) (P : Project)
    (kegg_organism_code : string) (custom_gene_mapping : list (string * string))
    (force_rerun : bool) (kegg_to_uniprot : gmap string string)
    (g g' : Gene) (rows rows' : list (string * KeggDict)) (tr tr' : list event) :
  kegg_mapping_gene D E P kegg_organism_code custom_gene_mapping force_rerun
    kegg_to_uniprot (g, (rows, tr)) = ((g', (rows', tr')), Ok tt) ->
  let file :=
    kegg_sequence_file D E P kegg_organism_code custom_gene_mapping force_rerun g in
  let kegg := SequenceProp.kegg (sequence g) in
  let kegg' := SequenceProp.kegg (sequence g') in
  SequenceProp.uniprot (sequence g') = SequenceProp.uniprot (sequence g) /\
  SequenceProp.representative (sequence g') = SequenceProp.representative (sequence g) /\
  (pdbs kegg' = pdbs kegg \/ pdbs kegg' <> []) /\
  (file = None ->
   seq_len kegg' = seq_len kegg /\ kegg_id kegg' = kegg_id kegg /\
   seq_file kegg' = seq_file kegg /\
   (seq_len kegg = 0%Z -> SequenceProp.uniprot (sequence g) = [] ->
    set_representative_sequence_gene (sequence g') = (sequence g', Ok tt))) /\
  (forall f n, file = Some f -> fasta_seq_len D f = Some n ->
   seq_len kegg' = n /\
   kegg_id kegg'
   = KStr (kegg_organism_code +:+ ":" +:+ kegg_gene custom_gene_mapping g) /\
   seq_file kegg' = Some (op_basename E f) /\
   ((0 < n)%Z -> SequenceProp.uniprot (sequence g) = [] ->
    already_set (sequence g) = false ->
    set_representative_sequence_gene (sequence g')
    = (SequenceProp.set_representative kegg' (sequence g'), Ok tt))).
Proof.
  intros Hrun file kegg kegg'.
  destruct (kegg_mapping_gene_ok _ _ _ _ _ _ _ _ _ _ _ _ _ Hrun)
    as (d & -> & _ & _ & _ & Hid & Hfile & Hlen & Hlenf & _ & Hpdbs).
  cbv zeta in Hid, Hfile, Hlen, Hlenf. fold file in Hid, Hfile, Hlen, Hlenf.
  subst kegg kegg'. cbn [sequence set_sequence SequenceProp.kegg SequenceProp.uniprot
                         SequenceProp.representative set_kegg].
  split_and!; [done|done| | |].
  - unfold update_kegg. cbn [pdbs]. destruct (kd_pdbs d) as [ps|] eqn:Hps; [|by left].
    right. cbn. by destruct (Hpdbs ps eq_refl).
  - intros Hnone. rewrite Hnone in *. cbn in Hid, Hfile.
    assert (Hl : kd_seq_len d = None).
    { destruct (kd_seq_len d); [|done]. destruct Hlen as [Hl _].
      by destruct (Hl (mk_is_Some _ _ eq_refl)). }
    unfold update_kegg. cbn [seq_len kegg_id seq_file]. rewrite Hid, Hfile, Hl.
    split_and!; [done|done|done|]. intros Hzero Hun.
    unfold set_representative_sequence_gene, already_set, set_from_kegg. munfold.
    cbn [SequenceProp.kegg SequenceProp.uniprot SequenceProp.representative set_kegg
         seq_len default].
    rewrite Hzero, Hun. cbn.
    by destruct (0 <? seq_len (SequenceProp.representative (sequence g)))%Z.
  - intros f n Hf Hn. rewrite Hf in *. cbn in Hid, Hfile.
    specialize (Hlenf f eq_refl). rewrite Hn in Hlenf.
    unfold update_kegg. cbn [seq_len kegg_id seq_file]. rewrite Hid, Hfile, Hlenf.
    split_and!; [done|done|done|]. intros Hpos Hun Hset.
    unfold set_representative_sequence_gene, set_from_kegg. munfold.
    unfold already_set in *.
    cbn [SequenceProp.kegg SequenceProp.uniprot SequenceProp.representative set_kegg
         seq_len default].
    rewrite Hset, Hun. apply Z.ltb_lt in Hpos. cbv [id]. rewrite Hpos. done.
Qed.

Lemma kegg_mapping_rows (D : Services) (E : External) (P : Project)
    (kegg_organism_code : string) (custom_gene_mapping : list (string * string))
    (force_rerun : bool) (kegg_to_uniprot : gmap string string)
    (genes genes' : list Gene) (rows rows' : list (string * KeggDict))
    (tr tr' : list event) :
  for_genes_from
    (kegg_mapping_gene D E P kegg_organism_code custom_gene_mapping force_rerun
       kegg_to_uniprot) genes (rows, tr) = ((genes', (rows', tr')), Ok tt) ->
  exists new_rows,
    rows' = rows ++ new_rows /\
    Forall2 (fun g row =>
               row.1 = gene_id g /\
               (kd_kegg_id row.2 = None <->
                kegg_sequence_file D E P kegg_organism_code custom_gene_mapping
                  force_rerun g = None)) genes new_rows.
Proof.
  revert genes' rows tr. induction genes as [|g genes IH]; intros genes' rows tr;
    cbn [for_genes_from].
  - intros [= <- <- <-]. exists []. by rewrite app_nil_r.
  - destruct (kegg_mapping_gene _ _ _ _ _ _ _ (g, (rows, tr)))
      as [[g1 [rows1 tr1]] [[]|e]] eqn:Hstep; [|done].
    destruct (kegg_mapping_gene_ok _ _ _ _ _ _ _ _ _ _ _ _ _ Hstep)
      as (d & _ & -> & _ & _ & Hid & _).
    cbv zeta in Hid.
    destruct (for_genes_from _ genes (rows ++ [(gene_id g, d)], tr1))
      as [[genes1 [rows2 tr2]] r] eqn:Hrest.
    intros [= <- <- <- ->].
    destruct (IH _ _ _ Hrest) as (new_rows & -> & Hall).
    exists ((gene_id g, d) :: new_rows). rewrite <- app_assoc. split; [done|].
    constructor; [|done]. split; [done|]. cbn [snd]. rewrite Hid.
    by destruct (kegg_sequence_file _ _ _ _ _ _ g).
Qed.

(** After a run of [kegg_mapping_and_metadata] that has returned, the data
    frame has one row for every gene, in the order of the genes, and
    [missing_kegg_mapping] lists the genes for which the service had no
    sequence file, each once: a gene whose metadata and PDBs were found, but
    no sequence, is reported as not mapped. *)
Theorem kegg_mapping_and_metadata_missing (D : Services) (E : External) (P : Project)
    (kegg_organism_code : string) (custom_gene_mapping : list (string * string))
    (force_rerun : bool) (genes : list Gene) (tr : list event)
    (st' : list Gene * list event) (df : list (string * KeggDict))
    (missing : list string) :
  kegg_mapping_and_metadata D E P kegg_organism_code custom_gene_mapping force_rerun
    (genes, tr) = (st', Ok (df, missing)) ->
  df.*1 = gene_id <$> genes /\
  missing
  = nub (gene_id <$>
         filter (fun g => kegg_sequence_file D E P kegg_organism_code custom_gene_mapping
                            force_rerun g = None) genes).
Proof.
  unfold kegg_mapping_and_metadata. cbn [fst snd].
  destruct (map_kegg_all_genes D kegg_organism_code) as [kegg_to_uniprot|]; [|done].
  destruct (for_genes_from _ genes ([], tr)) as [[genes' [rows' tr']] [[]|e]] eqn:Hloop;
    [|done].
  cbn [res_bind]. intros [= <- <- <-].
  destruct (kegg_mapping_rows _ _ _ _ _ _ _ _ _ _ _ _ _ Hloop) as (new_rows & -> & Hall).
  cbn [app]. unfold missing_kegg. clear Hloop. split.
  - induction Hall as [|g row genes new_rows [Hid Hnone] _ IH]; [done|].
    by rewrite !fmap_cons, Hid, IH.
  - f_equal.
    induction Hall as [|g row genes new_rows [Hid Hnone] _ IH]; [done|].
    rewrite !filter_cons.
    destruct (decide (kd_kegg_id row.2 = None)) as [Hk|Hk];
      destruct (decide (kegg_sequence_file D E P kegg_organism_code custom_gene_mapping
                          force_rerun g = None)) as [Hf|Hf]; try tauto.
    by rewrite !fmap_cons, Hid, IH.
Qed.

(** ** The UniProt mapping *)

Lemma uniprot_mapping_accession_run (D : Services) (E : External) (gene_folder : string)
    (force_rerun : bool) (a : string) (l : UniprotLocals) :
  match accession_dict D E gene_folder (Some force_rerun) a (uniprot_dict l) with
  | Some d =>
      uniprot_mapping_accession D E gene_folder force_rerun a l
      = ({| uniprot_dict := d; uniprot_refs := od_set a Shared (uniprot_refs l);
            appended := S (appended l) |}, Ok tt)
  | None =>
      exists e, (uniprot_mapping_accession D E gene_folder force_rerun a l).2 = Raise e
  end.
Proof.
  unfold accession_dict, uniprot_mapping_accession, update_dict, store_dict, append_dict.
  munfold. cbn [fst snd uniprot_dict uniprot_refs appended mbind option_bind].
  destruct (download_uniprot_file D a "txt" _ _) as [mf|]; cbn; [|eauto].
  destruct (download_uniprot_file D a "fasta" _ _) as [sf|]; cbn; [|eauto].
  destruct (parse_uniprot_txt_file D mf) as [meta|]; cbn; [done|eauto].
Qed.

Lemma uniprot_mapping_accessions_ok (D : Services) (E : External) (gene_folder : string)
    (force_rerun : bool) (accessions : list string) (l l' : UniprotLocals) :
  for_each (uniprot_mapping_accession D E gene_folder force_rerun) accessions l
  = (l', Ok tt) ->
  accessions_dict D E gene_folder (Some force_rerun) accessions (uniprot_dict l)
  = Some (uniprot_dict l') /\
  uniprot_refs l'
  = od_update (uniprot_refs l) ((fun a => (a, Shared)) <$> accessions) /\
  appended l' = (appended l + length accessions)%nat.
Proof.
  revert l. induction accessions as [|a accessions IH]; intros l; cbn [for_each].
  - intros [= <-]. split_and!; [done|done|]. cbn. lia.
  - unfold bind.
    pose proof (uniprot_mapping_accession_run D E gene_folder force_rerun a l) as Hstep.
    cbn [accessions_dict].
    destruct (accession_dict D E gene_folder (Some force_rerun) a (uniprot_dict l))
      as [d|].
    + rewrite Hstep. intros Hrest. destruct (IH _ Hrest) as (Hd & Hrefs & Happ).
      cbn [uniprot_dict uniprot_refs appended mbind option_bind] in *.
      split_and!; [done|done|]. cbn [length]. lia.
    + destruct Hstep as [e He].
      destruct (uniprot_mapping_accession _ _ _ _ a l) as [l1 r]. cbn in He. by subst.
Qed.

Lemma od_get_update_shared (refs : list (string * dict_ref)) (accessions : list string)
    (a : string) :
  od_get a (od_update refs ((fun a => (a, Shared)) <$> accessions))
  = if decide (a ∈ accessions) then Some Shared else od_get a refs.
Proof.
  rewrite od_get_update.
  destruct (decide (a ∈ accessions)) as [Hin|Hnin].
  - assert (His : is_Some (od_get a (reverse ((fun a => (a, Shared)) <$> accessions)))).
    { apply od_get_is_Some. unfold od_keys.
      rewrite fmap_reverse, elem_of_reverse, <- list_fmap_compose.
      apply list_elem_of_fmap. by exists a. }
    destruct His as [v Hv]. rewrite Hv. f_equal.
    apply od_get_Some_elem, elem_of_reverse, list_elem_of_fmap in Hv as (? & [= _ ->] & _).
    done.
  - assert (Hn : od_get a (reverse ((fun a => (a, Shared)) <$> accessions)) = None).
    { apply od_get_None. unfold od_keys.
      rewrite fmap_reverse, elem_of_reverse, <- list_fmap_compose.
      intros (b & -> & Hb)%list_elem_of_fmap. done. }
    by rewrite Hn.
Qed.

Lemma od_get_fmap_snd {K V W} `{EqDecision K} (f : V -> W) (d : list (K * V)) k :
  od_get k ((fun kv => (kv.1, f kv.2)) <$> d) = f <$> od_get k d.
Proof.
  induction d as [|[k' v] d IH]; [done|]. rewrite fmap_cons. cbn [od_get fst snd].
  destruct (decide (k = k')); [done | exact IH].
Qed.


(** The entries that [uniprot_mapping_and_metadata] stores for a gene with
    several accessions are one dictionary: after the step of a gene that has
    returned, every accession mapped to the gene has the same entry, which
    holds what the last turn of the loop has left: the accession, the files
    and the metadata of the last accession, and of the accessions before it
    the keys that the later metadata did not have. The rows appended to the
    data frame are that entry as well. The entries of other accessions, from
    an earlier run, are as they were. *)
Theorem uniprot_mapping_gene_shared (D : Services) (E : External) (P : Project)
    (custom_gene_mapping : list (string * string)) (force_rerun : bool)
    (genes_to_uniprots : gmap string (list string)) (g : Gene)
    (rows : list (string * UniprotEntry)) (tr : list event) (accessions : list string) :
  genes_to_uniprots !! uniprot_gene custom_gene_mapping (gene_id g) = Some accessions ->
  let run :=
    uniprot_mapping_gene D E P custom_gene_mapping force_rerun genes_to_uniprots
      (g, (rows, tr)) in
  run.2 = Ok tt ->
  exists final,
    accessions_dict D E (op_join E (sequence_dir P) (gene_id g)) (Some force_rerun)
      accessions empty_uniprot_dict = Some final /\
    (forall a, a ∈ accessions ->
       od_get a (SequenceProp.uniprot (sequence run.1.1)) = Some final) /\
    (forall a, a ∉ accessions ->
       od_get a (SequenceProp.uniprot (sequence run.1.1))
       = od_get a (SequenceProp.uniprot (sequence g))) /\
    run.1.2.1 = rows ++ replicate (length accessions) (gene_id g, final).
Proof.
  intros Hmap run. unfold run, uniprot_mapping_gene, uniprot_mapping_accessions.
  cbn [fst snd]. rewrite Hmap.
  destruct (for_each _ accessions _) as [l' r] eqn:Hloop. cbn [fst snd].
  intros ->. destruct (uniprot_mapping_accessions_ok _ _ _ _ _ _ _ Hloop)
    as (Hd & Hrefs & Happ).
  cbn [uniprot_dict uniprot_refs appended] in *.
  exists (uniprot_dict l'). split_and!; [done| | |by rewrite Happ].
  - intros a Ha. cbn [sequence set_sequence SequenceProp.uniprot set_uniprot].
    rewrite od_get_fmap_snd, Hrefs, od_get_update_shared. by rewrite decide_True.
  - intros a Ha. cbn [sequence set_sequence SequenceProp.uniprot set_uniprot].
    rewrite od_get_fmap_snd, Hrefs, od_get_update_shared. rewrite decide_False by done.
    rewrite od_get_fmap_snd. by destruct (od_get a _).
Qed.




(** ** A custom mapping that does not have a gene *)

(** With a custom mapping that does not have the gene, the KEGG mapping
    raises [KeyError] at the gene, before anything has been stored for it,
    and the method ends there; the UniProt mapping looks the gene up under
    its own identifier, as it does without custom mapping. *)
Theorem custom_gene_mapping_without_gene (D : Services) (E : External) (P : Project)
    (kegg_organism_code : string) (custom_gene_mapping : list (string * string))
    (force_rerun : bool) (kegg_to_uniprot : gmap string string)
    (genes_to_uniprots : gmap string (list string)) (g : Gene) (genes : list Gene)
    (tr : list event) :
  custom_gene_mapping <> [] ->
  od_get (gene_id g) custom_gene_mapping = None ->
  (forall rows,
     kegg_mapping_gene D E P kegg_organism_code custom_gene_mapping force_rerun
       kegg_to_uniprot (g, (rows, tr)) = ((g, (rows, tr)), Raise KeyError)) /\
  (map_kegg_all_genes D kegg_organism_code = Some kegg_to_uniprot ->
   kegg_mapping_and_metadata D E P kegg_organism_code custom_gene_mapping force_rerun
     (g :: genes, tr) = ((g :: genes, tr), Raise KeyError)) /\
  (forall rows,
     uniprot_mapping_gene D E P custom_gene_mapping force_rerun genes_to_uniprots
       (g, (rows, tr))
     = uniprot_mapping_gene D E P [] force_rerun genes_to_uniprots (g, (rows, tr))).
Proof.
  intros Hne Hnone.
  assert (Hstep : forall rows,
    kegg_mapping_gene D E P kegg_organism_code custom_gene_mapping force_rerun
      kegg_to_uniprot (g, (rows, tr)) = ((g, (rows, tr)), Raise KeyError)).
  { intros rows. unfold kegg_mapping_gene. munfold. cbn [fst snd].
    destruct custom_gene_mapping as [|kv l]; [done|]. by rewrite Hnone. }
  split_and!; [done| |].
  - intros Hmap. unfold kegg_mapping_and_metadata. cbn [fst snd]. rewrite Hmap.
    cbn [for_genes_from]. by rewrite Hstep.
  - intros rows.
    assert (Hg : uniprot_gene custom_gene_mapping (gene_id g) = uniprot_gene [] (gene_id g)).
    { unfold uniprot_gene. destruct custom_gene_mapping; [done|]. by rewrite Hnone. }
    unfold uniprot_mapping_gene. cbn [fst snd]. by rewrite Hg.
Qed.

(** ** Manual UniProt mappings *)

Lemma manual_uniprot_mapping_gene_run (D : Services) (E : External) (P : Project)
    (g u : string) (gene : Gene) (l : ManualLocals) :
  let l1 := {| m_df := m_df l; m_missing := m_missing l; m_pre_df := m_pre_df l;
               m_effects := m_effects l ++ [EvEnsureDir (op_join E (sequence_dir P) g)] |} in
  match manual_uniprot_dict D E P g u with
  | None =>
      exists e, manual_uniprot_mapping_gene D E P g u (gene, l) = ((gene, l1), Raise e)
  | Some d =>
      manual_uniprot_mapping_gene D E P g u (gene, l)
      = forget_gene g
          (set_sequence
             (SequenceProp.set_representative
                (update_for_saving (SequenceProp.representative (sequence gene)) d)
                (sequence gene)) gene,
           {| m_df := m_df l; m_missing := m_missing l;
              m_pre_df := m_pre_df l ++ [(g, d)];
              m_effects := m_effects l ++ [EvEnsureDir (op_join E (sequence_dir P) g)] |})
  end.
Proof.
  unfold manual_uniprot_dict, accession_dict, manual_uniprot_mapping_gene. munfold.
  cbn [fst snd m_df m_missing m_pre_df m_effects mbind option_bind].
  destruct (download_uniprot_file D u "txt" _ _) as [mf|]; cbn; [|eauto].
  destruct (download_uniprot_file D u "fasta" _ _) as [sf|]; cbn; [|eauto].
  destruct (parse_uniprot_txt_file D mf) as [meta|]; cbn; [|eauto].
  reflexivity.
Qed.

Lemma forget_gene_no_frame (g : string) (s : Gene * ManualLocals) :
  m_df s.2 = None -> forget_gene g s = (s, Ok tt).
Proof. intros Hdf. unfold forget_gene. munfold. by rewrite Hdf. Qed.

Lemma forget_gene_no_missing (g : string) (s : Gene * ManualLocals) :
  is_Some (m_df s.2) -> m_missing s.2 = None ->
  forget_gene g s = (s, Raise AttributeError).
Proof.
  intros [df Hdf] Hm. unfold forget_gene. munfold. by rewrite Hdf, Hm.
Qed.

(** The loop of the method on a project that has no data frame of UniProt
    metadata yet: the two attributes are as they were when the loop ends. *)
Lemma manual_uniprot_items_no_frame (D : Services) (E : External) (P : Project)
    (items : list (string * string)) (s : list Gene * ManualLocals) :
  m_df s.2 = None ->
  let run :=
    for_each (fun gu => on_gene_by_id gu.1 (manual_uniprot_mapping_gene D E P gu.1 gu.2))
             items s in
  m_df run.1.2 = None /\ m_missing run.1.2 = m_missing s.2.
Proof.
  revert s. induction items as [|[g u] items IH]; intros s Hdf; cbn [for_each]; [done|].
  unfold bind. cbn [fst snd].
  assert (Hstep : let run1 := on_gene_by_id g (manual_uniprot_mapping_gene D E P g u) s in
                  m_df run1.1.2 = None /\ m_missing run1.1.2 = m_missing s.2).
  { unfold on_gene_by_id. destruct (list_find _ s.1) as [[i gene]|]; [|done].
    pose proof (manual_uniprot_mapping_gene_run D E P g u gene s.2) as Hrun.
    cbv zeta in Hrun. destruct (manual_uniprot_dict D E P g u) as [d|].
    - rewrite Hrun, forget_gene_no_frame by done. done.
    - destruct Hrun as [e ->]. done. }
  cbv zeta in Hstep.
  destruct (on_gene_by_id g _ s) as [s1 [[]|e]]; cbn [fst snd] in *; [|done].
  destruct Hstep as [Hdf1 Hm1]. destruct (IH s1 Hdf1) as [? ?].
  split; [done | congruence].
Qed.

(** [manual_uniprot_mapping] makes the data frame [df_uniprot_metadata]
    when the project has none, but not the list [missing_uniprot_mapping],
    which its loop reads whenever the data frame is there. On a project on
    which [uniprot_mapping_and_metadata] has not run, a first call that
    returns is therefore followed by a second call that cannot return: with
    an input that is not empty it raises, and when its first gene is a gene
    of the project for which the services answer, it raises
    [AttributeError] after the representative sequence of that gene has been
    updated. *)
Theorem manual_uniprot_mapping_second_call (D : Services) (E : External) (P : Project)
    (items1 items2 : list (string * string)) (genes : list Gene) (tr : list event) :
  let fresh := {| df_uniprot_metadata := None; missing_uniprot_mapping := None |} in
  let run1 := manual_uniprot_mapping D E P items1 (genes, (fresh, tr)) in
  let run2 := manual_uniprot_mapping D E P items2 run1.1 in
  run1.2 = Ok tt ->
  items2 <> [] ->
  is_Some (df_uniprot_metadata run1.1.2.1) /\
  missing_uniprot_mapping run1.1.2.1 = None /\
  (exists e, run2.2 = Raise e) /\
  (forall g u rest i gene d,
     items2 = (g, u) :: rest ->
     list_find (fun x => gene_id x = g) run1.1.1 = Some (i, gene) ->
     manual_uniprot_dict D E P g u = Some d ->
     run2.2 = Raise AttributeError /\
     run2.1.1
     = <[i := set_sequence
               (SequenceProp.set_representative
                  (update_for_saving (SequenceProp.representative (sequence gene)) d)
                  (sequence gene)) gene]> run1.1.1).
Proof.
  intros fresh run1 run2 Hok Hne.
  (* the first call *)
  assert (H1 : exists genes1 df1 tr1,
            run1.1 = (genes1, ({| df_uniprot_metadata := Some df1;
                                  missing_uniprot_mapping := None |}, tr1))).
  { revert Hok. unfold run1, manual_uniprot_mapping. cbn [fst snd option_fmap option_map fmap].
    pose proof (manual_uniprot_items_no_frame D E P items1
                  (genes, {| m_df := None; m_missing := None; m_pre_df := [];
                             m_effects := tr |}) eq_refl) as Hinv.
    cbv zeta in Hinv. cbn [fst snd m_df m_missing] in Hinv.
    destruct (for_each _ items1 _) as [[genes1 l1] [[]|e]]; cbn [fst snd] in *; [|done].
    destruct Hinv as [Hdf Hm]. intros _. rewrite Hdf, Hm. cbn. eauto. }
  destruct H1 as (genes1 & df1 & tr1 & Hrun1).
  (* the first item of the second call *)
  destruct items2 as [|[g u] rest]; [done|].
  set (l2 := {| m_df := Some (labelled df1); m_missing := None; m_pre_df := [];
                m_effects := tr1 |}).
  assert (Hfirst : forall l, m_df l = Some (labelled df1) -> m_missing l = None ->
    (exists e s', on_gene_by_id g (manual_uniprot_mapping_gene D E P g u) (genes1, l)
                  = (s', Raise e)) /\
    (forall i gene d,
       list_find (fun x => gene_id x = g) genes1 = Some (i, gene) ->
       manual_uniprot_dict D E P g u = Some d ->
       exists l', on_gene_by_id g (manual_uniprot_mapping_gene D E P g u) (genes1, l)
       = ((<[i := set_sequence
                    (SequenceProp.set_representative
                       (update_for_saving (SequenceProp.representative (sequence gene)) d)
                       (sequence gene)) gene]> genes1, l'), Raise AttributeError))).
  { intros l Hdf Hm. unfold on_gene_by_id. cbn [fst snd].
    destruct (list_find _ genes1) as [[i gene]|]; [|split; [eauto | done]].
    pose proof (manual_uniprot_mapping_gene_run D E P g u gene l) as Hrun.
    cbv zeta in Hrun. destruct (manual_uniprot_dict D E P g u) as [d|].
    - rewrite Hrun, forget_gene_no_missing by (cbn; eauto). split; [eauto|].
      intros ? ? ? [= <- <-] [= <-]. eauto.
    - destruct Hrun as [e ->]. split; [eauto | done]. }
  destruct (Hfirst l2 eq_refl eq_refl) as [(e & s' & Hraise) Hfull].
  rewrite Hrun1. cbn [fst snd df_uniprot_metadata missing_uniprot_mapping].
  split_and!; [eauto | done | |].
  - unfold run2, manual_uniprot_mapping. rewrite Hrun1.
    cbn [fst snd df_uniprot_metadata missing_uniprot_mapping option_fmap option_map fmap for_each].
    unfold bind. fold l2. rewrite Hraise. destruct s' as [? ?]. eauto.
  - intros g' u' rest' i gene d [= <- <- <-] Hfind Hd.
    destruct (Hfull i gene d Hfind Hd) as [l' Hrun].
    unfold run2, manual_uniprot_mapping. rewrite Hrun1.
    cbn [fst snd df_uniprot_metadata missing_uniprot_mapping option_fmap option_map fmap for_each].
    unfold bind. fold l2. rewrite Hrun. done.
Qed.

(** Dropping labels that the index of the data frame has, each once, does
    not raise and leaves the gene, the new rows and the effects as they
    are. *)
Lemma drop_labels_ok (labels : list nat) (gene : Gene) (l : ManualLocals)
    (df : list (nat * (string * UniprotEntry))) :
  m_df l = Some df -> NoDup labels -> (forall i, i ∈ labels -> i ∈ df.*1) ->
  exists l',
    for_each drop_label labels (gene, l) = ((gene, l'), Ok tt) /\
    m_pre_df l' = m_pre_df l /\ m_effects l' = m_effects l.
Proof.
  revert l df. induction labels as [|i labels IH]; intros l df Hdf Hnd Hsub.
  { exists l. done. }
  apply NoDup_cons in Hnd as [Hi Hnd].
  cbn [for_each]. unfold bind, drop_label at 1. munfold. cbn [fst snd]. rewrite Hdf.
  rewrite bool_decide_true by (apply Hsub; left). cbn [fst snd].
  set (l1 := {| m_df := Some (filter (fun row : nat * (string * UniprotEntry) => row.1 <> i) df);
                m_missing := m_missing l; m_pre_df := m_pre_df l;
                m_effects := m_effects l |}).
  destruct (IH l1 (filter (fun row : nat * (string * UniprotEntry) => row.1 <> i) df)
              eq_refl Hnd) as (l' & Hrun & Hpre & Heff).
  { intros k Hk. assert (Hin : k ∈ df.*1) by (apply Hsub; by right).
    apply list_elem_of_fmap in Hin as (row & -> & Hrow).
    apply list_elem_of_fmap. exists row. split; [done|].
    apply list_elem_of_filter. split; [|done]. intros Heq. apply Hi. by rewrite <- Heq. }
  exists l'. by rewrite Hrun.
Qed.

(** On a project that has no data frame of UniProt metadata, or that has it
    together with the list of the genes that were not mapped, the block that
    forgets the gene does not raise. *)
Lemma forget_gene_ok (g : string) (gene : Gene) (l : ManualLocals) :
  (forall df, m_df l = Some df -> is_Some (m_missing l) /\ NoDup df.*1) ->
  exists l',
    forget_gene g (gene, l) = ((gene, l'), Ok tt) /\
    m_pre_df l' = m_pre_df l /\ m_effects l' = m_effects l.
Proof.
  intros Hl. destruct (m_df l) as [df|] eqn:Hdf.
  2: { exists l. by rewrite forget_gene_no_frame. }
  destruct (Hl df eq_refl) as [[missing Hm] Hnd].
  unfold forget_gene. munfold. cbn [fst snd]. rewrite Hdf, Hm. cbn [fst snd].
  set (l1 := if bool_decide (g ∈ missing)
             then {| m_df := m_df l; m_missing := Some (list_remove g missing);
                     m_pre_df := m_pre_df l; m_effects := m_effects l |}
             else l).
  assert (Hl1 : m_df l1 = Some df /\ m_pre_df l1 = m_pre_df l /\ m_effects l1 = m_effects l).
  { unfold l1. by destruct (bool_decide (g ∈ missing)). }
  destruct Hl1 as (Hdf1 & Hpre1 & Heff1).
  assert (Hgoal : exists l',
    match m_df l1 with
    | Some df0 =>
        if bool_decide (g ∈ (df0.*2).*1)
        then for_each drop_label
               (filter (fun row : nat * (string * UniprotEntry) => row.2.1 = g) df0).*1
        else ret tt
    | None => raise AttributeError
    end (gene, l1) = ((gene, l'), Ok tt) /\
    m_pre_df l' = m_pre_df l /\ m_effects l' = m_effects l).
  { rewrite Hdf1. destruct (bool_decide (g ∈ (df.*2).*1)); [|by exists l1].
    destruct (drop_labels_ok
                (filter (fun row : nat * (string * UniprotEntry) => row.2.1 = g) df).*1
                gene l1 df Hdf1) as (l' & Hrun & Hpre & Heff).
    - eapply sublist_NoDup; [exact Hnd | apply fmap_sublist, sublist_filter].
    - intros i Hi. apply list_elem_of_fmap in Hi as (row & -> & Hrow).
      apply list_elem_of_filter in Hrow as [_ Hrow].
      apply list_elem_of_fmap. by exists row.
    - exists l'. rewrite Hrun. split_and!; congruence. }
  unfold l1 in Hgoal. destruct (bool_decide (g ∈ missing)); exact Hgoal.
Qed.

(** A manual mapping, on a project that has no data frame of UniProt
    metadata or that has it together with the list of the genes that were
    not mapped (as [uniprot_mapping_and_metadata] leaves the project),
    returns when the services answer. It writes the representative sequence
    of its gene from the dictionary of the accession and leaves the KEGG
    record and the UniProt mapping of the gene as they are. The resolver
    [set_representative_sequence] keeps this representative when its length
    is positive. When it is not (the metadata that were parsed have no
    positive [seq_len] and the gene had none), the resolver treats the gene
    as not set: on a gene that has a KEGG record with a sequence and no
    UniProt mapping, it replaces what the manual mapping has written by the
    KEGG record. *)
Theorem manual_uniprot_mapping_then_resolve (D : Services) (E : External) (P : Project)
    (g u : string) (gene : Gene) (l : ManualLocals) (d : UniprotEntry) :
  (forall df, m_df l = Some df -> is_Some (m_missing l) /\ NoDup df.*1) ->
  manual_uniprot_dict D E P g u = Some d ->
  let run := manual_uniprot_mapping_gene D E P g u (gene, l) in
  let rep := update_for_saving (SequenceProp.representative (sequence gene)) d in
  let seq_prop := sequence run.1.1 in
  run.2 = Ok tt /\
  seq_prop = SequenceProp.set_representative rep (sequence gene) /\
  m_pre_df run.1.2 = m_pre_df l ++ [(g, d)] /\
  ((0 < seq_len rep)%Z ->
   set_representative_sequence_gene seq_prop = (seq_prop, Ok tt)) /\
  ((seq_len rep <= 0)%Z ->
   (0 < seq_len (SequenceProp.kegg (sequence gene)))%Z ->
   SequenceProp.uniprot (sequence gene) = [] ->
   set_representative_sequence_gene seq_prop
   = (SequenceProp.set_representative (SequenceProp.kegg (sequence gene)) (sequence gene),
      Ok tt)).
Proof.
  intros Hl Hd run rep seq_prop.
  pose proof (manual_uniprot_mapping_gene_run D E P g u gene l) as Hrun.
  cbv zeta in Hrun. rewrite Hd in Hrun.
  match type of Hrun with
  | _ = forget_gene g (?gene1, ?l1) =>
      destruct (forget_gene_ok g gene1 l1) as (l' & Hforget & Hpre & _); [exact Hl|]
  end.
  rewrite Hforget in Hrun. cbn [m_pre_df] in Hpre.
  subst seq_prop run. rewrite Hrun. cbn [fst snd].
  split_and!; try done.
  - intros Hpos. unfold set_representative_sequence_gene, already_set. munfold.
    cbn [SequenceProp.representative SequenceProp.set_representative sequence set_sequence].
    fold rep. by rewrite (proj2 (Z.ltb_lt _ _) Hpos).
  - intros Hzero Hkegg Huni.
    unfold set_representative_sequence_gene, already_set, set_from_kegg. munfold.
    cbn [SequenceProp.representative SequenceProp.set_representative sequence set_sequence
         SequenceProp.kegg SequenceProp.uniprot].
    fold rep. rewrite (proj2 (Z.ltb_ge _ _) Hzero), (proj2 (Z.ltb_lt _ _) Hkegg), Huni.
    done.
Qed.

(** ** The text of the folding rate *)

Lemma string_app_nil (b : string) : EmptyString +:+ b = b.
Proof. reflexivity. Qed.

Lemma string_app_cons (c : ascii) (a b : string) : String c a +:+ b = String c (a +:+ b).
Proof. reflexivity. Qed.

Lemma string_length_app (a b : string) :
  String.length (a +:+ b) = (String.length a + String.length b)%nat.
Proof.
  induction a as [|c a IH]; [done|].
  rewrite string_app_cons. cbn [String.length]. by rewrite IH.
Qed.

Lemma string_app_assoc (a b c : string) : (a +:+ b) +:+ c = a +:+ (b +:+ c).
Proof.
  induction a as [|x a IH]; [done|]. rewrite !string_app_cons. by rewrite IH.
Qed.

Lemma substring_skip (a b : string) (n : nat) :
  String.substring (String.length a) n (a +:+ b) = String.substring 0 n b.
Proof. induction a as [|c a IH]; [done|]. rewrite string_app_cons. exact IH. Qed.

Lemma substring_take (a b : string) (n : nat) :
  (String.length a <= n)%nat ->
  String.substring 0 n (a +:+ b) = a +:+ String.substring 0 (n - String.length a) b.
Proof.
  revert n. induction a as [|c a IH]; intros n Hn.
  - rewrite !string_app_nil. cbn [String.length]. by rewrite Nat.sub_0_r.
  - cbn [String.length] in *. destruct n as [|n]; [lia|].
    rewrite !string_app_cons. cbn [substring Nat.sub]. rewrite IH by lia. done.
Qed.

Lemma substring_zero (s : string) : String.substring 0 0 s = EmptyString.
Proof. by destruct s. Qed.

Lemma substring_prefix (a b : string) :
  String.substring 0 (String.length a) (a +:+ b) = a.
Proof.
  rewrite substring_take by done. rewrite Nat.sub_diag, substring_zero.
  induction a as [|c a IH]; [done|]. rewrite string_app_cons. by rewrite IH.
Qed.

Lemma prefix_app (sub b : string) : String.prefix sub (sub +:+ b) = true.
Proof.
  induction sub as [|c sub IH]; [by destruct b|].
  rewrite string_app_cons. cbn [String.prefix].
  destruct (ascii_dec c c); [exact IH | done].
Qed.

Lemma prefix_no_char (c : ascii) (sub a b : string) :
  has_char c a = false ->
  match a with
  | EmptyString => True
  | String _ _ => String.prefix (String c sub) (a +:+ b) = false
  end.
Proof.
  destruct a as [|c' a]; [done|]. rewrite string_app_cons. cbn [String.prefix has_char].
  intros H. apply orb_false_iff in H as [Hc _].
  destruct (ascii_dec c c') as [->|Hne]; [|done].
  by rewrite Ascii.eqb_refl in Hc.
Qed.

(** A text in which the first character of [sub] does not occur is passed
    over by the search. *)
Lemma find_from_skip (c : ascii) (sub a b : string) (i : Z) :
  has_char c a = false ->
  find_from i (a +:+ b) (String c sub) = find_from (i + Z.of_nat (String.length a)) b (String c sub).
Proof.
  revert i. induction a as [|c' a IH]; intros i Hno.
  - rewrite string_app_nil. cbn [String.length Z.of_nat]. by rewrite Z.add_0_r.
  - pose proof (prefix_no_char c sub (String c' a) b Hno) as Hp. cbv beta iota in Hp.
    rewrite string_app_cons in *. cbn [find_from]. rewrite Hp.
    cbn [has_char] in Hno. apply orb_false_iff in Hno as [_ Hno].
    rewrite IH by done. f_equal. cbn [String.length]. lia.
Qed.

Lemma find_from_here (sub b : string) (i : Z) :
  sub <> EmptyString -> find_from i (sub +:+ b) sub = i.
Proof.
  intros Hne. destruct sub as [|c sub]; [done|].
  rewrite string_app_cons. cbn [find_from]. rewrite <- string_app_cons.
  by rewrite prefix_app.
Qed.

Lemma has_char_app (c : ascii) (a b : string) :
  has_char c (a +:+ b) = has_char c a || has_char c b.
Proof.
  induction a as [|c' a IH]; [done|].
  rewrite string_app_cons. cbn [has_char]. by rewrite IH, orb_assoc.
Qed.

Lemma find_from_bounds (s sub : string) (i : Z) :
  find_from i s sub = (-1)%Z \/
  (i <= find_from i s sub <= i + Z.of_nat (String.length s))%Z.
Proof.
  revert i. induction s as [|c s IH]; intros i; cbn [find_from String.length].
  - destruct (String.prefix sub ""); [right; lia | by left].
  - destruct (String.prefix sub (String c s)); [right; lia|].
    destruct (IH (i + 1)%Z) as [->|?]; [by left | right; lia].
Qed.

Lemma find_from_short (s sub : string) (i : Z) :
  (String.length s < String.length sub)%nat -> find_from i s sub = (-1)%Z.
Proof.
  revert i. induction s as [|c s IH]; intros i Hlen; cbn [find_from].
  - destruct sub; [cbn in Hlen; lia | done].
  - assert (Hp : String.prefix sub (String c s) = false).
    { clear IH. revert sub Hlen. generalize (String c s). intros t.
      induction t as [|c' t IH]; intros sub Hlen.
      - destruct sub; [cbn in Hlen; lia | done].
      - destruct sub as [|c'' sub]; [cbn in Hlen; lia|]. cbn.
        destruct (ascii_dec c'' c'); [|done]. apply IH. cbn in Hlen. lia. }
    rewrite Hp. apply IH. cbn in Hlen. lia.
Qed.

(** When the page does not have the text "The folding rate,", the function
    returns the empty string and does not raise. *)
Theorem foldrate_of_page_no_marker (result : string) :
  str_find result "The folding rate," = (-1)%Z ->
  foldrate_of_page result = EmptyString.
Proof.
  intros Hind. unfold foldrate_of_page. rewrite Hind.
  change (-1 + 70)%Z with 69%Z.
  set (result2 := str_slice result (-1) 69).
  assert (Hlen : (String.length result2 <= 1)%nat).
  { unfold result2, str_slice, slice_bound.
    change (-1 <? 0)%Z with true. change (69 <? 0)%Z with false. cbv iota.
    set (len := Z.of_nat (String.length result)).
    destruct (Z.max 0 (-1 + len) <? Z.min 69 len)%Z eqn:Hlt; [|cbn; lia].
    apply Z.ltb_lt in Hlt.
    assert (Hsub : forall n m s, (m <= 1)%nat -> (String.length (String.substring n m s) <= 1)%nat).
    { clear. intros n m s Hm. revert n. induction s as [|c s IH]; intros n.
      - by destruct n, m; cbn; lia.
      - destruct n as [|n]; [|apply IH].
        destruct m as [|[|m]]; cbn; [lia| |lia]. by destruct s; cbn; lia. }
    apply Hsub. lia. }
  assert (Hind2 : str_find result2 "/sec" = (-1)%Z).
  { apply find_from_short. cbn. lia. }
  rewrite Hind2. unfold str_slice, slice_bound.
  set (len2 := Z.of_nat (String.length result2)).
  assert (0 <= len2 <= 1)%Z by (unfold len2; lia).
  change (-1 <? 0)%Z with true. cbv iota.
  destruct (find_from_bounds result2 "=" 0) as [Hi1|Hi1]; unfold str_find.
  - rewrite Hi1. change (-1 + 2 <? 0)%Z with false. change (-1 + 2)%Z with 1%Z. cbv iota.
    destruct (Z.min 1 len2 <? Z.max 0 (-1 + len2))%Z eqn:Hlt; [|done].
    apply Z.ltb_lt in Hlt. lia.
  - fold len2 in Hi1.
    destruct (find_from 0 result2 "=" + 2 <? 0)%Z eqn:Hneg; [apply Z.ltb_lt in Hneg; lia|].
    destruct (Z.min (find_from 0 result2 "=" + 2) len2 <? Z.max 0 (-1 + len2))%Z eqn:Hlt;
      [|done].
    apply Z.ltb_lt in Hlt. lia.
Qed.

Lemma foldrate_of_page_no_marker_witness : foldrate_of_page "b'<html>busy</html>'" = EmptyString.
Proof. apply (foldrate_of_page_no_marker "b'<html>busy</html>'"). vm_compute. reflexivity. Defined.

Lemma str_slice_mid (a b c : string) :
  str_slice (a +:+ b +:+ c) (Z.of_nat (String.length a))
            (Z.of_nat (String.length a + String.length b)) = b.
Proof.
  unfold str_slice, slice_bound. rewrite !string_length_app.
  destruct (Z.of_nat (String.length a) <? 0)%Z eqn:H1; [apply Z.ltb_lt in H1; lia|].
  destruct (Z.of_nat (String.length a + String.length b) <? 0)%Z eqn:H2;
    [apply Z.ltb_lt in H2; lia|].
  rewrite !Z.min_l by lia.
  destruct (Z.of_nat (String.length a) <? Z.of_nat (String.length a + String.length b))%Z
    eqn:Hlt.
  - rewrite Nat2Z.id.
    replace (Z.to_nat (Z.of_nat (String.length a + String.length b)
                       - Z.of_nat (String.length a))) with (String.length b) by lia.
    by rewrite substring_skip, substring_prefix.
  - apply Z.ltb_ge in Hlt. destruct b; [done | cbn [String.length] in Hlt; lia].
Qed.

(** When the first "The folding rate," of the page is followed, within 70
    characters from its start, by a text without "=" and "/", then "= ", the
    rate and "/sec", the function returns the rate: the text between "= "
    and "/sec". *)
Theorem foldrate_of_page_rate (pre mid rate post : string) :
  let page :=
    pre +:+ "The folding rate," +:+ mid +:+ "= " +:+ rate +:+ "/sec" +:+ post in
  str_find page "The folding rate," = Z.of_nat (String.length pre) ->
  has_char "=" mid = false ->
  has_char "/" mid = false ->
  has_char "/" rate = false ->
  (17 + String.length mid + 2 + String.length rate + 4 <= 70)%nat ->
  foldrate_of_page page = rate.
Proof.
  intros page Hind Hmid_eq Hmid_sl Hrate_sl Hlen.
  set (marker := "The folding rate,"%string) in *.
  set (w := marker +:+ mid +:+ "= " +:+ rate +:+ "/sec").
  assert (Hw : String.length w = (17 + String.length mid + 2 + String.length rate + 4)%nat).
  { unfold w, marker. rewrite !string_length_app. cbn [String.length]. lia. }
  assert (Hpage : page = pre +:+ w +:+ post).
  { unfold page, w. by rewrite !string_app_assoc. }
  (* the window of 70 characters *)
  assert (Hres2 : exists x, str_slice page (Z.of_nat (String.length pre))
                              (Z.of_nat (String.length pre) + 70) = w +:+ x).
  { rewrite Hpage. unfold str_slice, slice_bound. rewrite !string_length_app.
    destruct (Z.of_nat (String.length pre) <? 0)%Z eqn:H1; [apply Z.ltb_lt in H1; lia|].
    destruct (Z.of_nat (String.length pre) + 70 <? 0)%Z eqn:H2; [apply Z.ltb_lt in H2; lia|].
    rewrite Z.min_l by lia.
    set (stop := Z.min _ _).
    assert (Hstop : (Z.of_nat (String.length pre) + Z.of_nat (String.length w) <= stop)%Z).
    { unfold stop. lia. }
    destruct (Z.of_nat (String.length pre) <? stop)%Z eqn:Hlt;
      [|apply Z.ltb_ge in Hlt; lia].
    rewrite Nat2Z.id, substring_skip.
    rewrite substring_take by lia. eexists. reflexivity. }
  destruct Hres2 as [x Hres2].
  unfold foldrate_of_page. fold marker. rewrite Hind, Hres2.
  (* the two searches *)
  assert (Hmarker_eq : has_char "=" marker = false) by reflexivity.
  assert (Hmarker_sl : has_char "/" marker = false) by reflexivity.
  set (a0 := marker +:+ mid +:+ "= ").
  assert (Hsplit : w +:+ x = a0 +:+ rate +:+ ("/sec" +:+ x)).
  { unfold w, a0. by rewrite !string_app_assoc. }
  assert (Hind1 : str_find (w +:+ x) "=" = Z.of_nat (String.length (marker +:+ mid))).
  { assert (Heq : w +:+ x
                   = (marker +:+ mid) +:+ ("=" +:+ (" " +:+ rate +:+ "/sec" +:+ x))).
    { unfold w. rewrite !string_app_assoc. reflexivity. }
    unfold str_find. rewrite Heq.
    rewrite (find_from_skip "=" "" (marker +:+ mid)).
    - rewrite find_from_here by done. lia.
    - by rewrite has_char_app, Hmarker_eq, Hmid_eq. }
  assert (Hind2 : str_find (w +:+ x) "/sec" = Z.of_nat (String.length (a0 +:+ rate))).
  { unfold str_find. rewrite Hsplit, <- string_app_assoc.
    rewrite (find_from_skip "/" "sec" (a0 +:+ rate)).
    - rewrite find_from_here by done. lia.
    - unfold a0. rewrite !has_char_app, Hmarker_sl, Hmid_sl, Hrate_sl. reflexivity. }
  rewrite Hind1, Hind2, Hsplit.
  replace (Z.of_nat (String.length (marker +:+ mid)) + 2)%Z
    with (Z.of_nat (String.length a0)).
  2:{ unfold a0. rewrite <- string_app_assoc, !string_length_app. cbn [String.length]. lia. }
  rewrite string_length_app. apply str_slice_mid.
Qed.

Lemma foldrate_of_page_rate_witness :
  foldrate_of_page
    ("b'<html><body>"
     +:+ "The folding rate," +:+ " ln(k_f) " +:+ "= " +:+ "5.43" +:+ "/sec" +:+ "</body></html>'")
  = "5.43"%string.
Proof.
  apply (foldrate_of_page_rate "b'<html><body>" " ln(k_f) " "5.43" "</body></html>'").
  - vm_compute. reflexivity.
  - reflexivity.
  - reflexivity.
  - reflexivity.
  - vm_compute. lia.
Defined.

(** ** The mapping methods on the example services *)

Lemma custom_gene_mapping_without_gene_witness :
  kegg_mapping_and_metadata example_services example_external example_project "eco"
    [("b0002", "eco2")] false ([new_gene "b0001"; new_gene "b0002"], [])
  = (([new_gene "b0001"; new_gene "b0002"], []), Raise KeyError).
Proof.
  destruct (custom_gene_mapping_without_gene example_services example_external
              example_project "eco" [("b0002", "eco2")] false
              {[ "b0001" := "P00001" ]} ∅ (new_gene "b0001") [new_gene "b0002"] [])
    as (_ & Hrun & _).
  - discriminate.
  - reflexivity.
  - apply Hrun. reflexivity.
Defined.

Lemma kegg_mapping_gene_sequence_witness :
  let run :=
    kegg_mapping_gene example_services example_external example_project "eco" [] false
      {[ "b0001" := "P00001" ]} (new_gene "b0001", ([], [])) in
  let kegg' := SequenceProp.kegg (sequence run.1.1) in
  seq_len kegg' = 300%Z /\ kegg_id kegg' = KStr "eco:b0001" /\
  seq_file kegg' = Some "b0001.faa" /\
  set_representative_sequence_gene (sequence run.1.1)
  = (SequenceProp.set_representative kegg' (sequence run.1.1), Ok tt).
Proof.
  intros run kegg'.
  destruct (kegg_mapping_gene_sequence example_services example_external example_project
              "eco" [] false {[ "b0001" := "P00001" ]} (new_gene "b0001") run.1.1
              [] run.1.2.1 [] run.1.2.2) as (_ & _ & _ & _ & Hfile).
  - vm_compute. reflexivity.
  - destruct (Hfile "sequences/b0001/b0001.faa" 300%Z) as (Hlen & Hid & Hf & Hres).
    + vm_compute. reflexivity.
    + reflexivity.
    + split_and!; [exact Hlen | exact Hid | exact Hf |].
      apply Hres; [lia | reflexivity | reflexivity].
Defined.

Lemma kegg_mapping_and_metadata_missing_witness :
  let run :=
    kegg_mapping_and_metadata example_services example_external example_project "eco" []
      false ([new_gene "b0005"; new_gene "b0001"; new_gene "b0007"], []) in
  exists df, run.2 = Ok (df, ["b0005"; "b0007"]) /\ df.*1 = ["b0005"; "b0001"; "b0007"].
Proof.
  intros run.
  destruct (kegg_mapping_and_metadata_missing example_services example_external
              example_project "eco" [] false
              [new_gene "b0005"; new_gene "b0001"; new_gene "b0007"] [] run.1
              (match run.2 with Ok x => x.1 | Raise _ => [] end)
              (match run.2 with Ok x => x.2 | Raise _ => [] end)) as (Hdf & Hmissing).
  - vm_compute. reflexivity.
  - eexists. split; [|exact Hdf]. vm_compute. reflexivity.
Defined.

Lemma uniprot_mapping_gene_shared_witness :
  let run :=
    uniprot_mapping_gene example_services example_external example_project [] false
      {[ "b0001" := ["P00001"; "P00002"] ]} (example_gene_no_kegg_id_b0001, ([], [])) in
  exists final,
    od_get "P00001" (SequenceProp.uniprot (sequence run.1.1)) = Some final /\
    od_get "P00002" (SequenceProp.uniprot (sequence run.1.1)) = Some final /\
    od_get "P00003" (SequenceProp.uniprot (sequence run.1.1))
    = Some example_entry_no_kegg_id /\
    run.1.2.1 = [("b0001", final); ("b0001", final)].
Proof.
  intros run.
  destruct (uniprot_mapping_gene_shared example_services example_external example_project
              [] false {[ "b0001" := ["P00001"; "P00002"] ]}
              example_gene_no_kegg_id_b0001 [] [] ["P00001"; "P00002"])
    as (final & _ & Hin & Hout & Hrows).
  - reflexivity.
  - vm_compute. reflexivity.
  - exists final. split_and!.
    + apply Hin. by apply (bool_decide_unpack _).
    + apply Hin. by apply (bool_decide_unpack _).
    + rewrite Hout; [reflexivity|]. by apply (bool_decide_unpack _).
    + exact Hrows.
Defined.


Lemma manual_uniprot_mapping_second_call_witness :
  let fresh := {| df_uniprot_metadata := None; missing_uniprot_mapping := None |} in
  let run1 :=
    manual_uniprot_mapping example_services example_external example_project
      [("b0001", "P00001")] ([new_gene "b0001"], (fresh, [])) in
  let run2 :=
    manual_uniprot_mapping example_services example_external example_project
      [("b0001", "P00002")] run1.1 in
  run1.2 = Ok tt /\ run2.2 = Raise AttributeError /\
  (uniprot_acc <$> (SequenceProp.representative <$> (sequence <$> run1.1.1)))
  = [Some "P00001"] /\
  (uniprot_acc <$> (SequenceProp.representative <$> (sequence <$> run2.1.1)))
  = [Some "P00002"].
Proof.
  intros fresh run1 run2.
  destruct (manual_uniprot_mapping_second_call example_services example_external
              example_project [("b0001", "P00001")] [("b0001", "P00002")]
              [new_gene "b0001"] []) as (_ & _ & _ & Hfull).
  - vm_compute. reflexivity.
  - discriminate.
  - fold fresh run1 in Hfull.
    edestruct (Hfull "b0001" "P00002" [] 0%nat) as [Hraise Hgenes].
    + reflexivity.
    + vm_compute. reflexivity.
    + vm_compute. reflexivity.
    + fold run2 in Hraise, Hgenes. split_and!; [vm_compute; reflexivity | exact Hraise | |].
      * vm_compute. reflexivity.
      * rewrite Hgenes. vm_compute. reflexivity.
Defined.

Lemma manual_uniprot_mapping_then_resolve_witness :
  let run :=
    manual_uniprot_mapping_gene example_services example_external example_project
      "b0001" "P00009" (example_gene_kegg_only, mapped_manual_locals) in
  run.2 = Ok tt /\
  uniprot_acc (SequenceProp.representative (sequence run.1.1)) = Some "P00009" /\
  set_representative_sequence_gene (sequence run.1.1)
  = (SequenceProp.set_representative example_kegg (sequence example_gene_kegg_only), Ok tt).
Proof.
  intros run.
  destruct (manual_uniprot_mapping_then_resolve example_services example_external
              example_project "b0001" "P00009" example_gene_kegg_only mapped_manual_locals
              {| u_reviewed := None; u_pdbs := Some []; u_kegg_id := None;
                 u_uniprot_acc := Some "P00009"; u_seq_len := None;
                 u_seq_file := Some "P00009.fasta";
                 u_metadata_file := Some "P00009.txt" |})
    as (Hok & Hseq & _ & _ & Hover).
  - intros df [= <-]. split; [by eexists|].
    apply (bool_decide_unpack _). vm_compute. exact I.
  - vm_compute. reflexivity.
  - fold run in Hok, Hseq, Hover. split_and!; [exact Hok | by rewrite Hseq |].
    apply Hover; [vm_compute; discriminate | vm_compute; reflexivity | reflexivity].
Defined.

Lemma get_itasser_models_gene_top_witness :
  let run :=
    get_itasser_models_gene example_services example_external example_project "/itasser"
      [] (example_gene [] example_homology, ([], [])) in
  run.2 = Ok tt /\
  exists rest,
    sorted_homology_ids "seq_coverage" (StructureProp.homology (structure run.1.1))
    = Ok ("b0001" :: rest).
Proof.
  intros run.
  destruct (get_itasser_models_gene_top example_services example_external example_project
              "/itasser" [] (example_gene [] example_homology) [] []
              {[ "model_file" := VStr "structures/by_gene/b0001/b0001.pdb";
                 "c_score" := VNum (-(3 # 2)) ]})
    as (Hrun & _ & _ & rest & Hsorted).
  - apply (bool_decide_unpack _). vm_compute. exact I.
  - vm_compute. reflexivity.
  - intros Heq. apply (f_equal (fun m => m !! "c_score")) in Heq. vm_compute in Heq.
    discriminate.
  - repeat constructor; intros _; eexists; (split; [reflexivity | reflexivity]).
  - fold run in Hrun, Hsorted. split; [by rewrite Hrun|]. exists rest. exact Hsorted.
Defined.
